(** * Claim-based authorization of the Xcert ledger and the AssetLedger client

    A shallow embedding of

    - [xcert.sol] (contract [XcertToken]): the claim digest [generateClaim],
      the signature check [isValidSignature], the redemption of a signed
      approval [setApprovalForAllWithSignature] and its cancellation
      [cancelSetApprovalForAllWithSignature];
    - the TypeScript client: [getBitfieldFromAbilities] (lib/abilities.ts)
      and the methods [grantAbilities], [revokeAbilities] and [createAsset]
      of the class [AssetLedger];
    - [nf-token-metadata.sol] (contract [NFTokenMetadata]): the ERC-721
      ledger with its transfers, approvals, operators, balances and token
      URIs, and the internal [_create], [_destroy], [_setUri] and
      [_uint2str].

    The EVM's [keccak256] and [ecrecover] and the ERC-20 fee tokens are
    parameters of the contract; the functions of the client's mutation
    modules are recorded as calls.

    Solidity values are integers ([Z]): an [address] is a 160-bit number, a
    [uint256] and a [bytes32] a 256-bit one, a [uint8] an 8-bit one.  The
    storage mappings are finite maps read with the default value [false].
    A function of the contract is a computation in a state-and-revert monad;
    a transaction runs such a computation and restores the storage when it
    reverts. *)

From Stdlib Require Import ZArith List String Ascii Lia Bool.
From Stdlib Require Import HexadecimalString.
From stdpp Require Import gmap strings list fin_maps.

Open Scope Z_scope.

(** ** Packed ABI encoding *)

Module Abi.

(** The byte with value [z mod 256]. *)
Definition byte_of_Z (z : Z) : Byte.byte :=
  default Byte.x00 (Byte.of_N (Z.to_N (z mod 256))).

Definition Z_of_byte (b : Byte.byte) : Z := Z.of_N (Byte.to_N b).

(** [be_bytes n z]: the [n] low-order bytes of [z], most significant first
    (the big-endian, fixed-width layout [abi.encodePacked] gives a value
    type of [n] bytes). *)
Fixpoint be_bytes (n : nat) (z : Z) : list Byte.byte :=
  match n with
  | O => []
  | S k => byte_of_Z (Z.shiftr z (8 * Z.of_nat k)) :: be_bytes k z
  end.

(** The number a big-endian byte string denotes. *)
Definition Z_of_be (bs : list Byte.byte) : Z :=
  fold_left (fun acc b => acc * 256 + Z_of_byte b) bs 0.

(** The value types that occur in the contract, with their packed widths. *)
Inductive field : Type :=
| f_address (a : Z)
| f_bool (b : bool)
| f_uint256 (n : Z)
| f_bytes32 (h : Z)
| f_string (s : list Byte.byte).

Definition encode_field (f : field) : list Byte.byte :=
  match f with
  | f_address a => be_bytes 20 a
  | f_bool b => be_bytes 1 (if b then 1 else 0)
  | f_uint256 n => be_bytes 32 n
  | f_bytes32 h => be_bytes 32 h
  | f_string s => s
  end.

(** [abi.encodePacked(f1, ..., fn)]: the encodings, concatenated in the
    order of the arguments, without padding. *)
Definition encodePacked (fs : list field) : list Byte.byte :=
  concat (map encode_field fs).

(** A field holds a value of its Solidity type. *)
Definition well_typed (f : field) : Prop :=
  match f with
  | f_address a => 0 <= a < 2 ^ 160
  | f_bool _ => True
  | f_uint256 n => 0 <= n < 2 ^ 256
  | f_bytes32 h => 0 <= h < 2 ^ 256
  | f_string _ => True
  end.

End Abi.

(** ** The contract [XcertToken] *)

Module Xcert.
Import Abi.

(** *** Error constants *)

Definition CAPABILITY_NOT_SUPPORTED : string := "007001".
Definition TRANSFERS_DISABLED : string := "007002".
Definition NOT_VALID_XCERT : string := "007003".
Definition NOT_XCERT_OWNER_OR_OPERATOR : string := "007004".
Definition INVALID_SIGNATURE : string := "007005".
Definition INVALID_SIGNATURE_KIND : string := "007006".
Definition CLAIM_PERFORMED : string := "007007".
Definition CLAIM_EXPIRED : string := "007008".
Definition CLAIM_CANCELED : string := "007009".
Definition NOT_OWNER : string := "007010".

(** *** Signature kinds and signature data

    [enum SignatureKind { eth_sign, trezor, no_prefix }]: an enum value is
    its ordinal, a [uint8]. *)

Definition eth_sign : Z := 0.
Definition trezor : Z := 1.
Definition no_prefix : Z := 2.

Record SignatureData : Type := mkSignatureData {
  sig_r : Z;
  sig_s : Z;
  sig_v : Z;
  sig_kind : Z
}.

(** The two message prefixes of [isValidSignature]:
    ["\x19Ethereum Signed Message:\n32"] and
    ["\x19Ethereum Signed Message:\n\x20"]. *)
Definition ETH_SIGN_PREFIX : list Byte.byte :=
  [Byte.x19] ++ list_byte_of_string "Ethereum Signed Message:"
    ++ [Byte.x0a] ++ list_byte_of_string "32".

Definition TREZOR_PREFIX : list Byte.byte :=
  [Byte.x19] ++ list_byte_of_string "Ethereum Signed Message:"
    ++ [Byte.x0a; Byte.x20].

(** *** Results of pure functions and of state-changing ones *)

Inductive Pure (A : Type) : Type :=
| Value (a : A)
| Throw (reason : string).
Arguments Value {A} a.
Arguments Throw {A} reason.

Inductive Event : Type :=
| ApprovalForAll (_owner _operator : Z) (_approved : bool).

(** The environment of a call: [address(this)], [msg.sender] and
    [block.timestamp]. *)
Record Env : Type := mkEnv {
  this : Z;
  msg_sender : Z;
  block_timestamp : Z
}.

Section Contract.

(** The EVM's [keccak256] and [ecrecover] (hash, v, r, s). *)
Variable keccak256 : list Byte.byte -> Z.
Variable ecrecover : Z -> Z -> Z -> Z -> Z.

(** The other contracts of the chain (the ERC-20 fee tokens), and what
    [ERC20(token).transferFrom(from, to, value)] does to them when the
    contract [caller] calls it: a new state, or a revert.  The call is
    taken not to call back into this contract. *)
Variable World : Type.
Variable ERC20_transferFrom :
  Z (* token *) -> Z (* caller *) -> Z (* from *) -> Z (* to *) ->
  Z (* value *) -> World -> World + string.

(** The storage this development follows, the log of the transaction and
    the rest of the chain. *)
Record State : Type := mkState {
  claimPerformed : gmap Z bool;
  claimCancelled : gmap Z bool;
  ownerToOperators : gmap (Z * Z) bool;
  logs : list Event;
  world : World
}.

(** A computation either returns, in a state, or reverts; [Revert] keeps
    the state the computation had reached, which the transaction
    discards (see [transact]). *)
Inductive Outcome (A : Type) : Type :=
| Return (a : A) (st : State)
| Revert (reason : string) (st : State).
Arguments Return {A} a st.
Arguments Revert {A} reason st.

Definition Exec (A : Type) : Type := State -> Outcome A.

#[local] Instance Exec_ret : MRet Exec := fun A a st => Return a st.
#[local] Instance Exec_bind : MBind Exec := fun A B k m st =>
  match m st with
  | Return a st' => k a st'
  | Revert reason st' => Revert reason st'
  end.

Definition require (cond : bool) (reason : string) : Exec unit :=
  fun st => if cond then Return tt st else Revert reason st.

Definition call_pure {A : Type} (p : Pure A) : Exec A :=
  fun st => match p with
            | Value a => Return a st
            | Throw reason => Revert reason st
            end.

(** Reads and writes of the mappings.  A key never written reads as
    [false]. *)
Definition read_claimPerformed (claim : Z) : Exec bool :=
  fun st => Return (default false (claimPerformed st !! claim)) st.

Definition read_claimCancelled (claim : Z) : Exec bool :=
  fun st => Return (default false (claimCancelled st !! claim)) st.

Definition write_claimPerformed (claim : Z) (b : bool) : Exec unit :=
  fun st => Return tt
    (mkState (<[claim := b]> (claimPerformed st)) (claimCancelled st)
             (ownerToOperators st) (logs st) (world st)).

Definition write_claimCancelled (claim : Z) (b : bool) : Exec unit :=
  fun st => Return tt
    (mkState (claimPerformed st) (<[claim := b]> (claimCancelled st))
             (ownerToOperators st) (logs st) (world st)).

Definition write_ownerToOperators (_owner _operator : Z) (b : bool)
  : Exec unit :=
  fun st => Return tt
    (mkState (claimPerformed st) (claimCancelled st)
             (<[(_owner, _operator) := b]> (ownerToOperators st))
             (logs st) (world st)).

Definition emit (e : Event) : Exec unit :=
  fun st => Return tt
    (mkState (claimPerformed st) (claimCancelled st)
             (ownerToOperators st) (logs st ++ [e]) (world st)).

(** An external call: a revert of the callee reverts the caller. *)
Definition call_transferFrom (token caller from to value : Z) : Exec unit :=
  fun st =>
    match ERC20_transferFrom token caller from to value (world st) with
    | inl w => Return tt
        (mkState (claimPerformed st) (claimCancelled st)
                 (ownerToOperators st) (logs st) w)
    | inr reason => Revert reason st
    end.

(** A transaction: the storage after it, and the revert reason if it
    reverted, in which case the storage is the one before it. *)
Definition transact (body : Exec unit) (st : State) : State * option string :=
  match body st with
  | Return _ st' => (st', None)
  | Revert reason _ => (st, Some reason)
  end.

Section Functions.

Variable env : Env.

(** [generateClaim]: the fields a claim is hashed from, in the order of
    the call to [abi.encodePacked], and the digest. *)
Definition generateClaim
  (_owner _operator : Z) (_approved : bool) (_feeToken _feeValue
   _feeRecipient _seed _expiration : Z) : Z :=
  keccak256
    (encodePacked
       [ f_address (this env);
         f_address _owner;
         f_address _operator;
         f_bool _approved;
         f_address _feeToken;
         f_uint256 _feeValue;
         f_address _feeRecipient;
         f_uint256 _seed;
         f_uint256 _expiration ]).

(** [isValidSignature]. *)
Definition isValidSignature
  (_signer _claim : Z) (_signature : SignatureData) : Pure bool :=
  if sig_kind _signature =? eth_sign then
    Value (_signer =?
      ecrecover
        (keccak256 (encodePacked [f_string ETH_SIGN_PREFIX; f_bytes32 _claim]))
        (sig_v _signature) (sig_r _signature) (sig_s _signature))
  else if sig_kind _signature =? trezor then
    Value (_signer =?
      ecrecover
        (keccak256 (encodePacked [f_string TREZOR_PREFIX; f_bytes32 _claim]))
        (sig_v _signature) (sig_r _signature) (sig_s _signature))
  else if sig_kind _signature =? no_prefix then
    Value (_signer =?
      ecrecover _claim
        (sig_v _signature) (sig_r _signature) (sig_s _signature))
  else Throw INVALID_SIGNATURE_KIND.

(** [setApprovalForAllWithSignature]. *)
Definition setApprovalForAllWithSignature
  (_owner _operator : Z) (_approved : bool) (_feeToken _feeValue
   _feeRecipient _seed _expiration : Z) (_signature : SignatureData)
  : Exec unit :=
  let claim := generateClaim _owner _operator _approved _feeToken
                 _feeValue _feeRecipient _seed _expiration in
  cancelled ← read_claimCancelled claim;
  require (negb cancelled) CLAIM_CANCELED;;
  valid ← call_pure (isValidSignature _owner claim _signature);
  require valid INVALID_SIGNATURE;;
  performed ← read_claimPerformed claim;
  require (negb performed) CLAIM_PERFORMED;;
  require (_expiration >=? block_timestamp env) CLAIM_EXPIRED;;
  write_claimPerformed claim true;;
  write_ownerToOperators _owner _operator _approved;;
  let _feeRecipient :=
    if _feeRecipient =? 0 then msg_sender env else _feeRecipient in
  call_transferFrom _feeToken (this env) _owner _feeRecipient _feeValue;;
  emit (ApprovalForAll _owner _operator _approved).

(** [cancelSetApprovalForAllWithSignature]. *)
Definition cancelSetApprovalForAllWithSignature
  (_owner _operator : Z) (_approved : bool) (_feeToken _feeValue
   _feeRecipient _seed _expiration : Z) : Exec unit :=
  require (msg_sender env =? _owner) NOT_OWNER;;
  let claim := generateClaim _owner _operator _approved _feeToken
                 _feeValue _feeRecipient _seed _expiration in
  performed ← read_claimPerformed claim;
  require (negb performed) CLAIM_PERFORMED;;
  write_claimCancelled claim true.

End Functions.

(** What [setApprovalForAllWithSignature] does once the four checks have
    passed. *)
Definition effects (env : Env) (claim _owner _operator : Z)
  (_approved : bool) (_feeToken _feeValue _feeRecipient : Z)
  (st : State) : Outcome unit :=
  let written :=
    mkState (<[claim := true]> (claimPerformed st)) (claimCancelled st)
            (<[(_owner, _operator) := _approved]> (ownerToOperators st))
            (logs st) (world st) in
  match ERC20_transferFrom _feeToken (this env) _owner
          (if _feeRecipient =? 0 then msg_sender env else _feeRecipient)
          _feeValue (world st) with
  | inl w =>
      Return tt
        (mkState (claimPerformed written) (claimCancelled written)
                 (ownerToOperators written)
                 (logs st ++ [ApprovalForAll _owner _operator _approved]) w)
  | inr reason => Revert reason written
  end.

(** The public getters [claimPerformed(bytes32)] and
    [claimCancelled(bytes32)]. *)
Definition is_performed (st : State) (claim : Z) : bool :=
  default false (claimPerformed st !! claim).

Definition is_cancelled (st : State) (claim : Z) : bool :=
  default false (claimCancelled st !! claim).

(** The transactions on claims, and the storage a sequence of them leaves:
    each is applied to the storage its predecessor left, in the order of
    submission. *)
Inductive Tx : Type :=
| tx_setApprovalForAllWithSignature
    (env : Env) (_owner _operator : Z) (_approved : bool) (_feeToken
     _feeValue _feeRecipient _seed _expiration : Z)
    (_signature : SignatureData)
| tx_cancelSetApprovalForAllWithSignature
    (env : Env) (_owner _operator : Z) (_approved : bool) (_feeToken
     _feeValue _feeRecipient _seed _expiration : Z).

Definition tx_body (tx : Tx) : Exec unit :=
  match tx with
  | tx_setApprovalForAllWithSignature env o op a ft fv fr sd ex sg =>
      setApprovalForAllWithSignature env o op a ft fv fr sd ex sg
  | tx_cancelSetApprovalForAllWithSignature env o op a ft fv fr sd ex =>
      cancelSetApprovalForAllWithSignature env o op a ft fv fr sd ex
  end.

Definition apply_tx (st : State) (tx : Tx) : State :=
  fst (transact (tx_body tx) st).

Definition run (txs : list Tx) (st : State) : State :=
  fold_left apply_tx txs st.

End Contract.

Arguments Return {World A} a st.
Arguments Revert {World A} reason st.
Arguments mkState {World} _ _ _ _ _.
Arguments claimPerformed {World} _.
Arguments claimCancelled {World} _.
Arguments ownerToOperators {World} _.
Arguments logs {World} _.
Arguments world {World} _.
Arguments is_performed {World} st claim.
Arguments is_cancelled {World} st claim.
Arguments transact {World} body st.

End Xcert.

(** ** The signature kind in a call

    [SignatureKind] is an enum of three members.  The code solc 0.8.6
    generates to decode an argument of type [SignatureData] checks the
    word it reads for [kind]: a value that is not the ordinal of a member
    reverts the call with no return data, before the body of the
    function runs.  The body of [isValidSignature] is therefore run on
    the ordinals 0, 1 and 2 only. *)

Module SignatureAbi.
Import Abi Xcert.

(** What a caller of a function sees. *)
Inductive CallResult (A : Type) : Type :=
| Returns (a : A)
| RevertsWith (reason : string)
| RevertsEmpty.
Arguments Returns {A} a.
Arguments RevertsWith {A} reason.
Arguments RevertsEmpty {A}.

(** The check of the decoder: [kind < 3]. *)
Definition is_SignatureKind (kind : Z) : bool :=
  (0 <=? kind) && (kind <? 3).

Definition returned {A : Type} (p : Pure A) : CallResult A :=
  match p with
  | Value a => Returns a
  | Throw reason => RevertsWith reason
  end.

Section Call.

Variable keccak256 : list Byte.byte -> Z.
Variable ecrecover : Z -> Z -> Z -> Z -> Z.

(** A call of [isValidSignature]: the arguments are decoded, then the
    body runs. *)
Definition call_isValidSignature (_signer _claim : Z)
  (_signature : SignatureData) : CallResult bool :=
  if is_SignatureKind (sig_kind _signature)
  then returned (isValidSignature keccak256 ecrecover _signer _claim
                   _signature)
  else RevertsEmpty.

End Call.

End SignatureAbi.

(** ** The claim codec, in the words of the specification

    The field set of an approval-style claim under the names the
    specification gives them, the documented order of the fields, and the
    digest as the hash of the packed field list.  [generateClaim] is
    compared with it in [ClaimFacts]. *)

Module ClaimCodec.
Import Abi.

Record ApprovalClaim : Type := mkApprovalClaim {
  dispatcherId : Z;
  ownerId : Z;
  operatorId : Z;
  approvedFlag : bool;
  feeTokenId : Z;
  feeValue : Z;
  feeRecipientId : Z;
  seed : Z;
  expirationTimestamp : Z
}.

Definition field_order (c : ApprovalClaim) : list field :=
  [ f_address (dispatcherId c);
    f_address (ownerId c);
    f_address (operatorId c);
    f_bool (approvedFlag c);
    f_address (feeTokenId c);
    f_uint256 (feeValue c);
    f_address (feeRecipientId c);
    f_uint256 (seed c);
    f_uint256 (expirationTimestamp c) ].

Definition encode (hash : list Byte.byte -> Z) (c : ApprovalClaim) : Z :=
  hash (encodePacked (field_order c)).

(** Every field holds a value of its type. *)
Definition well_formed (c : ApprovalClaim) : Prop :=
  Forall well_typed (field_order c).

End ClaimCodec.

(** ** SHA-256

    The hash of FIPS 180-4, on byte strings, with 32-bit words as
    integers.  The round constants and the initial hash value are the
    first 32 bits of the fractional parts of the cube roots and of the
    square roots of the first primes.  It serves to identify the default
    imprint of [AssetLedger.createAsset]. *)

Module Sha256.
Import Abi.

Definition w32 (x : Z) : Z := x mod 2 ^ 32.

Definition add32 (x y : Z) : Z := w32 (x + y).

Definition rotr (n x : Z) : Z :=
  Z.lor (Z.shiftr x n) (w32 (Z.shiftl x (32 - n))).

Definition Ch (x y z : Z) : Z :=
  Z.lxor (Z.land x y) (Z.land (Z.lxor x (Z.ones 32)) z).

Definition Maj (x y z : Z) : Z :=
  Z.lxor (Z.lxor (Z.land x y) (Z.land x z)) (Z.land y z).

Definition Sigma0 (x : Z) : Z :=
  Z.lxor (rotr 2 x) (Z.lxor (rotr 13 x) (rotr 22 x)).

Definition Sigma1 (x : Z) : Z :=
  Z.lxor (rotr 6 x) (Z.lxor (rotr 11 x) (rotr 25 x)).

Definition sigma0 (x : Z) : Z :=
  Z.lxor (rotr 7 x) (Z.lxor (rotr 18 x) (Z.shiftr x 3)).

Definition sigma1 (x : Z) : Z :=
  Z.lxor (rotr 17 x) (Z.lxor (rotr 19 x) (Z.shiftr x 10)).

Definition primes : list Z :=
  [2; 3; 5; 7; 11; 13; 17; 19; 23; 29; 31; 37; 41; 43; 47; 53; 59; 61; 67; 71;
   73; 79; 83; 89; 97; 101; 103; 107; 109; 113; 127; 131; 137; 139; 149; 151;
   157; 163; 167; 173; 179; 181; 191; 193; 197; 199; 211; 223; 227; 229; 233;
   239; 241; 251; 257; 263; 269; 271; 277; 281; 283; 293; 307; 311].

(** The largest [r] in [[lo, lo + 2 ^ bits)] with [r ^ 3 <= n], when there
    is one. *)
Fixpoint cbrt_from (bits : nat) (lo n : Z) : Z :=
  match bits with
  | O => lo
  | S b =>
      let mid := lo + 2 ^ Z.of_nat b in
      if mid * mid * mid <=? n then cbrt_from b mid n else cbrt_from b lo n
  end.

Definition K : list Z :=
  Eval vm_compute in map (fun p => w32 (cbrt_from 40 0 (p * 2 ^ 96))) primes.

Definition H0 : list Z :=
  Eval vm_compute in map (fun p => w32 (Z.sqrt (p * 2 ^ 64))) (take 8 primes).

(** The message, the byte 0x80, zero bytes up to 8 bytes short of a
    multiple of 64, and the length of the message in bits. *)
Definition pad (msg : list Byte.byte) : list Byte.byte :=
  let len := length msg in
  let zeros := ((64 - (len + 9) mod 64) mod 64)%nat in
  msg ++ [Byte.x80] ++ replicate zeros Byte.x00
      ++ be_bytes 8 (8 * Z.of_nat len).

Fixpoint words (n : nat) (bs : list Byte.byte) : list Z :=
  match n with
  | O => []
  | S k => Z_of_be (take 4 bs) :: words k (drop 4 bs)
  end.

(** The message schedule, extended by [n] words; the latest word first. *)
Fixpoint schedule (n : nat) (w : list Z) : list Z :=
  match n with
  | O => w
  | S k =>
      let x i := nth i w 0 in
      schedule k (add32 (add32 (sigma1 (x 1%nat)) (x 6%nat))
                        (add32 (sigma0 (x 14%nat)) (x 15%nat)) :: w)
  end.

Definition round (h : list Z) (kw : Z * Z) : list Z :=
  match h with
  | [a; b; c; d; e; f; g; hh] =>
      let t1 :=
        add32 (add32 (add32 hh (Sigma1 e)) (add32 (Ch e f g) (fst kw)))
              (snd kw) in
      let t2 := add32 (Sigma0 a) (Maj a b c) in
      [add32 t1 t2; a; b; c; add32 d t1; e; f; g]
  | _ => h
  end.

Definition compress (h : list Z) (block : list Byte.byte) : list Z :=
  let w := rev (schedule 48 (rev (words 16 block))) in
  let h' := fold_left round (combine K w) h in
  map (fun p => add32 (fst p) (snd p)) (combine h h').

Fixpoint blocks (n : nat) (h : list Z) (bs : list Byte.byte) : list Z :=
  match n with
  | O => h
  | S k => blocks k (compress h (take 64 bs)) (drop 64 bs)
  end.

Definition sha256 (msg : list Byte.byte) : list Byte.byte :=
  let p := pad msg in
  concat (map (be_bytes 4) (blocks (length p / 64) H0 p)).

Definition hex_digit (n : Z) : ascii :=
  ascii_of_nat (Z.to_nat (if n <? 10 then 48 + n else 87 + n)).

(** A byte string in lower-case hexadecimal digits. *)
Definition hex (bs : list Byte.byte) : string :=
  string_of_list_ascii
    (concat (map (fun b => [hex_digit (Z_of_byte b / 16);
                            hex_digit (Z_of_byte b mod 16)]) bs)).

End Sha256.

(** ** The client class [AssetLedger] *)

Module AssetLedger.

(** *** Abilities (enums [SuperAssetLedgerAbility] and
    [GeneralAssetLedgerAbility], and their union [AssetLedgerAbility]) *)

Inductive GeneralAssetLedgerAbility : Type :=
| CREATE_ASSET
| REVOKE_ASSET
| TOGGLE_TRANSFERS
| UPDATE_ASSET
| UPDATE_URI_BASE
| ALLOW_CREATE_ASSET
| ALLOW_UPDATE_ASSET_IMPRINT.

Inductive SuperAssetLedgerAbility : Type :=
| MANAGE_ABILITIES
| ALLOW_MANAGE_ABILITIES.

Inductive AssetLedgerAbility : Type :=
| Super (a : SuperAssetLedgerAbility)
| General (a : GeneralAssetLedgerAbility).

Coercion Super : SuperAssetLedgerAbility >-> AssetLedgerAbility.
Coercion General : GeneralAssetLedgerAbility >-> AssetLedgerAbility.

(** The number an enum member stands for. *)
Definition ability_value (a : AssetLedgerAbility) : Z :=
  match a with
  | Super MANAGE_ABILITIES => 1
  | Super ALLOW_MANAGE_ABILITIES => 2
  | General CREATE_ASSET => 16
  | General REVOKE_ASSET => 32
  | General TOGGLE_TRANSFERS => 64
  | General UPDATE_ASSET => 128
  | General UPDATE_URI_BASE => 256
  | General ALLOW_CREATE_ASSET => 512
  | General ALLOW_UPDATE_ASSET_IMPRINT => 1024
  end.

(** The position of the single bit of an ability. *)
Definition ability_bit (a : AssetLedgerAbility) : Z :=
  match a with
  | Super MANAGE_ABILITIES => 0
  | Super ALLOW_MANAGE_ABILITIES => 1
  | General CREATE_ASSET => 4
  | General REVOKE_ASSET => 5
  | General TOGGLE_TRANSFERS => 6
  | General UPDATE_ASSET => 7
  | General UPDATE_URI_BASE => 8
  | General ALLOW_CREATE_ASSET => 9
  | General ALLOW_UPDATE_ASSET_IMPRINT => 10
  end.

#[global] Instance GeneralAssetLedgerAbility_eq_dec :
  EqDecision GeneralAssetLedgerAbility.
Proof. solve_decision. Defined.

#[global] Instance SuperAssetLedgerAbility_eq_dec :
  EqDecision SuperAssetLedgerAbility.
Proof. solve_decision. Defined.

#[global] Instance AssetLedgerAbility_eq_dec : EqDecision AssetLedgerAbility.
Proof. solve_decision. Defined.

(** Modelled from the spec: the membership test of an ability bitmask,
    which is not among the sources: [hasAbility(mask, bit) ==
    (mask & bit) != 0]. *)
Definition hasAbility (mask bit : Z) : bool :=
  negb (Z.land mask bit =? 0).

(** The bitwise OR of the values of a list of abilities (the spec's
    reading of a bitfield). *)
Definition bitwise_or_of (abilities : list AssetLedgerAbility) : Z :=
  fold_left (fun acc a => Z.lor acc (ability_value a)) abilities 0.

(** *** Big numbers

    [bigNumberify(0)], [BigNumber.add] and [BigNumber.toHexString] of the
    big-number library: integers of any size; the hexadecimal string has
    an even number of digits. *)

Definition hex_digits (n : N) : string :=
  HexadecimalString.NilZero.string_of_uint (N.to_hex_uint n).

Definition toHexString (z : Z) : string :=
  let value := hex_digits (Z.to_N (Z.abs z)) in
  let sign := if z <? 0 then "-" else "" in
  if Nat.odd (String.length value)
  then sign +:+ "0x0" +:+ value
  else sign +:+ "0x" +:+ value.

(** The loop shared by [getBitfieldFromAbilities], [grantAbilities] and
    [revokeAbilities]:
    [let bitAbilities = bigNumberify(0);
     abilities.forEach((ability) => { bitAbilities = bitAbilities.add(ability); });] *)
Definition bitAbilities_of (abilities : list AssetLedgerAbility) : Z :=
  fold_left (fun bitAbilities ability => bitAbilities + ability_value ability)
            abilities 0.

(** [getBitfieldFromAbilities] (lib/abilities.ts). *)
Definition getBitfieldFromAbilities (abilities : list AssetLedgerAbility)
  : string :=
  toHexString (bitAbilities_of abilities).

(** *** Provider, gateway, ledger and recipes *)

(** [GenericProvider]: the account that signs and sends the mutations, and
    the address normalisation of its encoder. *)
Record GenericProvider : Type := mkGenericProvider {
  accountId : string;
  normalizeAddress : string -> string
}.

(** [GatewayBase]: [getProxyAccountId(proxyId)]. *)
Record GatewayBase : Type := mkGatewayBase {
  getProxyAccountId : Z -> string
}.

(** An argument of type [string | GatewayBase]. *)
Inductive AccountArg : Type :=
| account_string (accountId : string)
| account_gateway (gateway : GatewayBase).

Record AssetLedger : Type := mkAssetLedger {
  _id : string;
  _provider : GenericProvider
}.

(** [AssetLedgerItemRecipe]; [imprint] is optional. *)
Record AssetLedgerItemRecipe : Type := mkAssetLedgerItemRecipe {
  receiverId : string;
  id : string;
  imprint : option string
}.

(** The calls to the functions of [../mutations], which are not among the
    sources: a call is recorded with its arguments. *)
Inductive Mutation : Type :=
| mutation_grantAbilities
    (ledger : AssetLedger) (accountId : string) (abilities : Z)
| mutation_revokeAbilities
    (ledger : AssetLedger) (accountId : string) (abilities : Z)
    (allowSuperRevoke : bool)
| mutation_createAsset
    (ledger : AssetLedger) (receiverId : string) (id : string)
    (imprint : string).

(** [x || d] on an optional string: [undefined] and the empty string are
    falsy. *)
Definition or_default (x : option string) (d : string) : string :=
  match x with
  | Some EmptyString => d
  | Some s => s
  | None => d
  end.

(** [abilities.indexOf(a) !== -1]. *)
Definition includes (abilities : list AssetLedgerAbility)
  (a : AssetLedgerAbility) : bool :=
  existsb (fun b => bool_decide (b = a)) abilities.

(** [typeof accountId !== 'string'] branch shared by [grantAbilities] and
    [revokeAbilities]: a gateway stands for its proxy account 0. *)
Definition resolve_account (accountId : AccountArg) : string :=
  match accountId with
  | account_string s => s
  | account_gateway g => getProxyAccountId g 0
  end.

(** [AssetLedger.grantAbilities]. *)
Definition grantAbilities (self : AssetLedger) (accountId : AccountArg)
  (abilities : list AssetLedgerAbility) : Mutation :=
  let accountId := resolve_account accountId in
  let accountId := normalizeAddress (_provider self) accountId in
  let bitAbilities := bitAbilities_of abilities in
  mutation_grantAbilities self accountId bitAbilities.

(** [AssetLedger.createAsset]. *)
Definition createAsset (self : AssetLedger) (recipe : AssetLedgerItemRecipe)
  : Mutation :=
  let imprint :=
    or_default (imprint recipe)
      "e3b0c44298fc1c149afbf4c8996fb92427ae41e4649b934ca495991b7852b855" in
  let receiverId := normalizeAddress (_provider self) (receiverId recipe) in
  mutation_createAsset self receiverId (id recipe) ("0x" +:+ imprint).

(** [AssetLedger.revokeAbilities]. *)
Definition revokeAbilities (self : AssetLedger) (accountId : AccountArg)
  (abilities : list AssetLedgerAbility) : Mutation :=
  let accountId := resolve_account accountId in
  let allowSuperRevoke :=
    if includes abilities MANAGE_ABILITIES then true else false in
  let accountId := normalizeAddress (_provider self) accountId in
  let bitAbilities := bitAbilities_of abilities in
  mutation_revokeAbilities self accountId bitAbilities allowSuperRevoke.

End AssetLedger.

(** ** An instance of the chain

    The contract is stated over every hash function, every recovery
    function and every behaviour of the fee tokens.  The instance below
    fixes them, so that transactions can be evaluated: a polynomial
    checksum modulo the prime 65521 as hash, a recovery that undoes
    [sign], and fee tokens that keep one balance per holder. *)

Module Sample.
Import Abi Xcert.

Definition keccak256 (bs : list Byte.byte) : Z :=
  fold_left (fun acc b => (acc * 257 + Z_of_byte b + 1) mod 65521) bs 0.

Definition ecrecover (hash v r s : Z) : Z :=
  if (v =? 27) || (v =? 28) then Z.lxor r hash mod 2 ^ 160 else 0.

(** The message a signature of kind [kind] signs for the digest [claim]. *)
Definition signed_message (kind claim : Z) : Z :=
  if kind =? eth_sign then
    keccak256 (encodePacked [f_string ETH_SIGN_PREFIX; f_bytes32 claim])
  else if kind =? trezor then
    keccak256 (encodePacked [f_string TREZOR_PREFIX; f_bytes32 claim])
  else claim.

Definition sign (signer kind claim : Z) : SignatureData :=
  mkSignatureData (Z.lxor signer (signed_message kind claim)) 1 27 kind.

(** Balances per token and holder. *)
Definition World : Type := gmap (Z * Z) Z.

Definition ERC20_transferFrom (token caller from to value : Z) (w : World)
  : World + string :=
  let balance := default 0 (w !! (token, from)) in
  if value <=? balance then
    let w := <[(token, from) := balance - value]> w in
    inl (<[(token, to) := default 0 (w !! (token, to)) + value]> w)
  else inr "insufficient balance"%string.

(** The contract at address 1000; the account 7 holds 50 units of the
    token 500; nothing is performed or cancelled. *)
Definition contract : Z := 1000.

Definition genesis : State World :=
  mkState ∅ ∅ ∅ [] {[ (500, 7) := 50 ]}.

Definition at_time (sender now : Z) : Env := mkEnv contract sender now.

(** The digest of the claim "7 approves 8 as operator, fee 5 of token 500
    to 9, seed 1", as a function of its expiration. *)
Definition claim_of (expiration : Z) : Z :=
  generateClaim keccak256 (at_time 0 0) 7 8 true 500 5 9 1 expiration.

Definition perform (env : Env) (expiration : Z) (sg : SignatureData)
  : Exec World unit :=
  setApprovalForAllWithSignature keccak256 ecrecover World ERC20_transferFrom
    env 7 8 true 500 5 9 1 expiration sg.

Definition cancel (env : Env) (expiration : Z) : Exec World unit :=
  cancelSetApprovalForAllWithSignature keccak256 World
    env 7 8 true 500 5 9 1 expiration.

(** A ledger of the client, used by the account [caller]; [other] is
    another account.  Addresses are taken to be in normal form already. *)
Definition caller : string := "0x1111111111111111111111111111111111111111".

Definition other : string := "0x2222222222222222222222222222222222222222".

Definition ledger : AssetLedger.AssetLedger :=
  AssetLedger.mkAssetLedger "0x3333333333333333333333333333333333333333"
    (AssetLedger.mkGenericProvider caller (fun address => address)).

End Sample.

(** ** A state-and-revert monad for any contract

    A call fails with the reason of a [require] or a [revert], with a
    panic ([assert]: code 1; checked arithmetic: code 17; index out of
    bounds: code 50), or because a loop ran longer than the bound this
    development gives it. *)

Module Evm.

Inductive Failure : Type :=
| Error (reason : string)
| Panic (code : Z)
| OutOfFuel.

(** The result of a function that does not change the state. *)
Inductive Result (A : Type) : Type :=
| Ok (a : A)
| Fail (f : Failure).
Arguments Ok {A} a.
Arguments Fail {A} f.

Inductive Outcome (St A : Type) : Type :=
| Return (a : A) (st : St)
| Revert (f : Failure) (st : St).
Arguments Return {St A} a st.
Arguments Revert {St A} f st.

Definition Exec (St A : Type) : Type := St -> Outcome St A.

#[global] Instance Exec_ret {St} : MRet (Exec St) := fun A a st => Return a st.

#[global] Instance Exec_bind {St} : MBind (Exec St) := fun A B k m st =>
  match m st with
  | Return a st' => k a st'
  | Revert f st' => Revert f st'
  end.

Definition gets {St A : Type} (f : St -> A) : Exec St A :=
  fun st => Return (f st) st.

Definition modify {St : Type} (f : St -> St) : Exec St unit :=
  fun st => Return tt (f st).

Definition require {St : Type} (cond : bool) (reason : string) : Exec St unit :=
  fun st => if cond then Return tt st else Revert (Error reason) st.

(** [assert(cond)]. *)
Definition assert {St : Type} (cond : bool) : Exec St unit :=
  fun st => if cond then Return tt st else Revert (Panic 1) st.

Definition call_view {St A : Type} (r : Result A) : Exec St A :=
  fun st => match r with
            | Ok a => Return a st
            | Fail f => Revert f st
            end.

(** Checked arithmetic on [uint256]. *)
Definition checked_add (x y : Z) : Result Z :=
  if x + y <? 2 ^ 256 then Ok (x + y) else Fail (Panic 17).

Definition checked_sub (x y : Z) : Result Z :=
  if y <=? x then Ok (x - y) else Fail (Panic 17).

(** A transaction: the state after it, and the failure if it reverted, in
    which case the state is the one before it. *)
Definition transact {St : Type} (body : Exec St unit) (st : St)
  : St * option Failure :=
  match body st with
  | Return _ st' => (st', None)
  | Revert f _ => (st, Some f)
  end.

End Evm.

(** ** The contract [NFTokenMetadata] (nf-token-metadata.sol) *)

Module NFToken.
Import Abi Evm.

Definition ZERO_ADDRESS : string := "004001".
Definition NOT_VALID_NFT : string := "004002".
Definition NOT_OWNER_OR_OPERATOR : string := "004003".
Definition NOT_OWNER_APPROWED_OR_OPERATOR : string := "004004".
Definition NOT_ABLE_TO_RECEIVE_NFT : string := "004005".
Definition NFT_ALREADY_EXISTS : string := "004006".

Definition MAGIC_ON_ERC721_RECEIVED : Z := 0x150b7a02.

Inductive Event : Type :=
| Transfer (_from _to _tokenId : Z)
| Approval (_owner _approved _tokenId : Z)
| ApprovalForAll (_owner _operator : Z) (_approved : bool).

Record State : Type := mkState {
  nftName : string;
  nftSymbol : string;
  uriPrefix : string;
  uriPostfix : string;
  idToOwner : gmap Z Z;
  idToApproval : gmap Z Z;
  ownerToNFTokenCount : gmap Z Z;
  ownerToOperators : gmap (Z * Z) bool;
  logs : list Event
}.

(** Reads of the mappings; a key never written, or deleted, reads as zero
    or [false]. *)
Definition owner_of (st : State) (_tokenId : Z) : Z :=
  default 0 (idToOwner st !! _tokenId).

Definition approval_of (st : State) (_tokenId : Z) : Z :=
  default 0 (idToApproval st !! _tokenId).

Definition count_of (st : State) (_owner : Z) : Z :=
  default 0 (ownerToNFTokenCount st !! _owner).

Definition operator_of (st : State) (_owner _operator : Z) : bool :=
  default false (ownerToOperators st !! (_owner, _operator)).

(** Writes of the storage. *)
Definition set_uri (prefix postfix : string) (st : State) : State :=
  mkState (nftName st) (nftSymbol st) prefix postfix (idToOwner st)
    (idToApproval st) (ownerToNFTokenCount st) (ownerToOperators st) (logs st).

Definition set_idToOwner (f : gmap Z Z -> gmap Z Z) (st : State) : State :=
  mkState (nftName st) (nftSymbol st) (uriPrefix st) (uriPostfix st)
    (f (idToOwner st)) (idToApproval st) (ownerToNFTokenCount st)
    (ownerToOperators st) (logs st).

Definition set_idToApproval (f : gmap Z Z -> gmap Z Z) (st : State) : State :=
  mkState (nftName st) (nftSymbol st) (uriPrefix st) (uriPostfix st)
    (idToOwner st) (f (idToApproval st)) (ownerToNFTokenCount st)
    (ownerToOperators st) (logs st).

Definition set_count (_owner n : Z) (st : State) : State :=
  mkState (nftName st) (nftSymbol st) (uriPrefix st) (uriPostfix st)
    (idToOwner st) (idToApproval st)
    (<[_owner := n]> (ownerToNFTokenCount st)) (ownerToOperators st) (logs st).

Definition set_operator (_owner _operator : Z) (b : bool) (st : State)
  : State :=
  mkState (nftName st) (nftSymbol st) (uriPrefix st) (uriPostfix st)
    (idToOwner st) (idToApproval st) (ownerToNFTokenCount st)
    (<[(_owner, _operator) := b]> (ownerToOperators st)) (logs st).

Definition emit (e : Event) : Exec State unit :=
  modify (fun st =>
    mkState (nftName st) (nftSymbol st) (uriPrefix st) (uriPostfix st)
      (idToOwner st) (idToApproval st) (ownerToNFTokenCount st)
      (ownerToOperators st) (logs st ++ [e])).

(** *** [_uint2str] *)

(** The bound on the runs of a loop over the decimal digits of a
    [uint256]: such a number has at most 78 digits. *)
Definition DIGITS_BOUND : nat := 78.

(** [while (j != 0) { length++; j /= 10; }] *)
Fixpoint count_digits (fuel : nat) (j length : Z) : Result Z :=
  if j =? 0 then Ok length
  else match fuel with
       | O => Fail OutOfFuel
       | S fuel => count_digits fuel (j / 10) (length + 1)
       end.

(** [while (j != 0) { bstr[--k] = bytes1(uint8(48 + j % 10)); j /= 10; }] *)
Fixpoint write_digits (fuel : nat) (j k : Z) (bstr : list Byte.byte)
  : Result (list Byte.byte) :=
  if j =? 0 then Ok bstr
  else match fuel with
       | O => Fail OutOfFuel
       | S fuel =>
           match checked_sub k 1 with
           | Fail f => Fail f
           | Ok k =>
               if k <? Z.of_nat (length bstr) then
                 write_digits fuel (j / 10) k
                   (<[Z.to_nat k := byte_of_Z (48 + j mod 10)]> bstr)
               else Fail (Panic 50)
           end
       end.

Definition _uint2str (_i : Z) : Result string :=
  if _i =? 0 then Ok "0"%string
  else
    match count_digits DIGITS_BOUND _i 0 with
    | Fail f => Fail f
    | Ok length =>
        let bstr := replicate (Z.to_nat length) Byte.x00 in
        match write_digits DIGITS_BOUND _i length bstr with
        | Fail f => Fail f
        | Ok bstr => Ok (string_of_list_byte bstr)
        end
    end.

Section Functions.

(** [_to.isDeployedContract()] and the call
    [ERC721TokenReceiver(_to).onERC721Received(operator, from, tokenId, data)],
    which answers four bytes or reverts; the call is taken not to call
    back into this contract. *)
Variable isDeployedContract : Z -> bool.
Variable onERC721Received :
  Z (* _to *) -> Z (* operator *) -> Z (* _from *) -> Z (* _tokenId *) ->
  list Byte.byte (* _data *) -> Result Z.

Variable env : Xcert.Env.

Definition approve (_approved _tokenId : Z) : Exec State unit :=
  tokenOwner ← gets (fun st => owner_of st _tokenId);
  is_operator ← gets (fun st =>
                        operator_of st tokenOwner (Xcert.msg_sender env));
  require ((tokenOwner =? Xcert.msg_sender env) || is_operator)
    NOT_OWNER_OR_OPERATOR;;
  modify (set_idToApproval (insert _tokenId _approved));;
  emit (Approval tokenOwner _approved _tokenId).

Definition setApprovalForAll (_operator : Z) (_approved : bool)
  : Exec State unit :=
  modify (set_operator (Xcert.msg_sender env) _operator _approved);;
  emit (ApprovalForAll (Xcert.msg_sender env) _operator _approved).

Definition balanceOf (_owner : Z) (st : State) : Result Z :=
  if _owner =? 0 then Fail (Error ZERO_ADDRESS)
  else Ok (count_of st _owner).

Definition ownerOf (_tokenId : Z) (st : State) : Result Z :=
  let _owner := owner_of st _tokenId in
  if _owner =? 0 then Fail (Error NOT_VALID_NFT) else Ok _owner.

Definition getApproved (_tokenId : Z) (st : State) : Result Z :=
  if owner_of st _tokenId =? 0 then Fail (Error NOT_VALID_NFT)
  else Ok (approval_of st _tokenId).

Definition isApprovedForAll (_owner _operator : Z) (st : State) : bool :=
  operator_of st _owner _operator.

Definition name (st : State) : string := nftName st.

Definition symbol (st : State) : string := nftSymbol st.

Definition tokenURI (_tokenId : Z) (st : State) : Result string :=
  if owner_of st _tokenId =? 0 then Fail (Error NOT_VALID_NFT)
  else
    if (0 <? String.length (uriPrefix st))%nat then
      match _uint2str _tokenId with
      | Fail f => Fail f
      | Ok digits =>
          let uri := (uriPrefix st +:+ digits)%string in
          if (0 <? String.length (uriPostfix st))%nat
          then Ok (uri +:+ uriPostfix st)%string
          else Ok uri
      end
    else Ok ""%string.

Definition _setUri (_prefix _postfix : string) : Exec State unit :=
  modify (set_uri _prefix _postfix).

Definition _create (_to _tokenId : Z) : Exec State unit :=
  require (negb (_to =? 0)) ZERO_ADDRESS;;
  owner ← gets (fun st => owner_of st _tokenId);
  require (owner =? 0) NFT_ALREADY_EXISTS;;
  modify (set_idToOwner (insert _tokenId _to));;
  count ← gets (fun st => count_of st _to);
  count ← call_view (checked_add count 1);
  modify (set_count _to count);;
  emit (Transfer 0 _to _tokenId).

Definition _destroy (_tokenId : Z) : Exec State unit :=
  owner ← gets (fun st => owner_of st _tokenId);
  require (negb (owner =? 0)) NOT_VALID_NFT;;
  modify (set_idToApproval (delete _tokenId));;
  count ← gets (fun st => count_of st owner);
  assert (0 <? count);;
  count ← call_view (checked_sub count 1);
  modify (set_count owner count);;
  modify (set_idToOwner (delete _tokenId));;
  emit (Transfer owner 0 _tokenId).

Definition _transferFrom (_from _to _tokenId : Z) : Exec State unit :=
  require (negb (_from =? 0)) ZERO_ADDRESS;;
  owner ← gets (fun st => owner_of st _tokenId);
  require (owner =? _from) NOT_VALID_NFT;;
  require (negb (_to =? 0)) ZERO_ADDRESS;;
  approved ← gets (fun st => approval_of st _tokenId);
  is_operator ← gets (fun st =>
                        operator_of st _from (Xcert.msg_sender env));
  require ((_from =? Xcert.msg_sender env)
           || (approved =? Xcert.msg_sender env)
           || is_operator) NOT_OWNER_APPROWED_OR_OPERATOR;;
  modify (set_idToApproval (delete _tokenId));;
  count ← gets (fun st => count_of st _from);
  assert (0 <? count);;
  count ← call_view (checked_sub count 1);
  modify (set_count _from count);;
  modify (set_idToOwner (insert _tokenId _to));;
  count ← gets (fun st => count_of st _to);
  count ← call_view (checked_add count 1);
  modify (set_count _to count);;
  emit (Transfer _from _to _tokenId).

Definition _safeTransferFrom (_from _to _tokenId : Z) (_data : list Byte.byte)
  : Exec State unit :=
  (if isDeployedContract _to then
     answer ← call_view (onERC721Received _to (Xcert.msg_sender env) _from
                           _tokenId _data);
     require (answer =? MAGIC_ON_ERC721_RECEIVED) NOT_ABLE_TO_RECEIVE_NFT
   else mret tt);;
  _transferFrom _from _to _tokenId.

(** The external functions. *)
Definition safeTransferFrom_data (_from _to _tokenId : Z)
  (_data : list Byte.byte) : Exec State unit :=
  _safeTransferFrom _from _to _tokenId _data.

Definition safeTransferFrom (_from _to _tokenId : Z) : Exec State unit :=
  _safeTransferFrom _from _to _tokenId [].

Definition transferFrom (_from _to _tokenId : Z) : Exec State unit :=
  _transferFrom _from _to _tokenId.

End Functions.

End NFToken.

(** *** Decimal strings, as a reader of [_uint2str] and [tokenURI] sees
    them *)

Module Decimal.
Import Abi.

Definition is_digit (b : Byte.byte) : Prop := 48 <= Z_of_byte b <= 57.

(** The number a string of decimal digits denotes. *)
Definition value (bs : list Byte.byte) : Z :=
  fold_left (fun acc b => acc * 10 + (Z_of_byte b - 48)) bs 0.

(** The digits of [j], most significant first; none for zero.  [fuel]
    bounds their number. *)
Fixpoint digits (fuel : nat) (j : Z) : list Byte.byte :=
  if j =? 0 then []
  else match fuel with
       | O => []
       | S fuel => digits fuel (j / 10) ++ [byte_of_Z (48 + j mod 10)]
       end.

End Decimal.

(** ** The life of an [NFTokenMetadata] ledger *)

Module NFTokenLife.
Import Evm NFToken.

(** The contract as deployed: nothing owned, approved or counted (the
    constructor leaves the names and the URI parts to the contract that
    inherits from it). *)
Definition deployed (_name _symbol _prefix _postfix : string) : State :=
  mkState _name _symbol _prefix _postfix ∅ ∅ ∅ ∅ [].

(** The tokens an address owns. *)
Definition tokens_of (st : State) (_owner : Z) : gmap Z Z :=
  filter (fun kv => kv.2 = _owner) (idToOwner st).

(** Whether the sender may transfer the token of [_from]: it is
    [_from], the token's approved address or an operator of [_from]. *)
Definition may_transfer (env : Xcert.Env) (st : State) (_from _tokenId : Z)
  : bool :=
  (_from =? Xcert.msg_sender env)
  || (approval_of st _tokenId =? Xcert.msg_sender env)
  || operator_of st _from (Xcert.msg_sender env).

(** The state [_transferFrom] leaves when it returns [count] as the new
    count of [_to]. *)
Definition transferred (st : State) (_from _to _tokenId count : Z) : State :=
  mkState (nftName st) (nftSymbol st) (uriPrefix st) (uriPostfix st)
    (<[_tokenId := _to]> (idToOwner st))
    (delete _tokenId (idToApproval st))
    (<[_to := count]> (<[_from := count_of st _from - 1]>
                         (ownerToNFTokenCount st)))
    (ownerToOperators st)
    (logs st ++ [Transfer _from _to _tokenId]).

(** The state [_create] leaves. *)
Definition created (st : State) (_to _tokenId : Z) : State :=
  mkState (nftName st) (nftSymbol st) (uriPrefix st) (uriPostfix st)
    (<[_tokenId := _to]> (idToOwner st)) (idToApproval st)
    (<[_to := count_of st _to + 1]> (ownerToNFTokenCount st))
    (ownerToOperators st) (logs st ++ [Transfer 0 _to _tokenId]).

(** The state [_destroy] leaves. *)
Definition destroyed (st : State) (_tokenId : Z) : State :=
  mkState (nftName st) (nftSymbol st) (uriPrefix st) (uriPostfix st)
    (delete _tokenId (idToOwner st)) (delete _tokenId (idToApproval st))
    (<[owner_of st _tokenId := count_of st (owner_of st _tokenId) - 1]>
       (ownerToNFTokenCount st))
    (ownerToOperators st)
    (logs st ++ [Transfer (owner_of st _tokenId) 0 _tokenId]).

(** The number of tokens an owner map gives an address. *)
Definition owned (m : gmap Z Z) (a : Z) : Z :=
  Z.of_nat (size (filter (fun kv : Z * Z => kv.2 = a) m)).

(** No token belongs to the zero address, and the count kept for an
    address is the number of tokens it owns. *)
Definition consistent (st : State) : Prop :=
  (forall id, idToOwner st !! id <> Some 0) /\
  (forall a, count_of st a = owned (idToOwner st) a).

(** Tokens that do not exist have no approved address, and the zero
    address has no operator. *)
Definition clean (st : State) : Prop :=
  (forall id, owner_of st id = 0 -> approval_of st id = 0) /\
  (forall o, operator_of st 0 o = false).

(** Every count fits a [uint256]. *)
Definition bounded (st : State) : Prop :=
  forall a, count_of st a < 2 ^ 256.

(** The calls that change the state: the external functions, and the
    internal [_create], [_destroy] and [_setUri] that contracts which
    inherit from this one expose. *)
Inductive Op : Type :=
| op_approve (env : Xcert.Env) (_approved _tokenId : Z)
| op_setApprovalForAll (env : Xcert.Env) (_operator : Z) (_approved : bool)
| op_transferFrom (env : Xcert.Env) (_from _to _tokenId : Z)
| op_safeTransferFrom (env : Xcert.Env) (_from _to _tokenId : Z)
    (_data : list Byte.byte)
| op_create (_to _tokenId : Z)
| op_destroy (_tokenId : Z)
| op_setUri (_prefix _postfix : string).

(** The sender of an external call; the internal functions have none. *)
Definition op_sender (op : Op) : option Z :=
  match op with
  | op_approve env _ _ | op_setApprovalForAll env _ _
  | op_transferFrom env _ _ _ | op_safeTransferFrom env _ _ _ _ =>
      Some (Xcert.msg_sender env)
  | op_create _ _ | op_destroy _ | op_setUri _ _ => None
  end.

(** The senders of a list of calls are not the zero address. *)
Definition real_senders (ops : list Op) : Prop :=
  Forall (fun op => op_sender op <> Some 0) ops.

Section Run.

Variable isDeployedContract : Z -> bool.
Variable onERC721Received :
  Z -> Z -> Z -> Z -> list Byte.byte -> Result Z.

(** Whether the receiver accepts the token: it is no contract, or its
    hook answers the magic value. *)
Definition accepts (env : Xcert.Env) (f t id : Z) (data : list Byte.byte)
  : Result unit :=
  if isDeployedContract t then
    match onERC721Received t (Xcert.msg_sender env) f id data with
    | Ok answer =>
        if answer =? MAGIC_ON_ERC721_RECEIVED then Ok tt
        else Fail (Error NOT_ABLE_TO_RECEIVE_NFT)
    | Fail e => Fail e
    end
  else Ok tt.

(** Whether a call runs the hook of the receiver: a safe transfer to a
    deployed contract does, no other call calls out of the contract. *)
Definition calls_receiver (op : Op) : bool :=
  match op with
  | op_safeTransferFrom _ _ _to _ _ => isDeployedContract _to
  | _ => false
  end.

Definition op_body (op : Op) : Exec State unit :=
  match op with
  | op_approve env a id => approve env a id
  | op_setApprovalForAll env o b => setApprovalForAll env o b
  | op_transferFrom env f t id => transferFrom env f t id
  | op_safeTransferFrom env f t id d =>
      safeTransferFrom_data isDeployedContract onERC721Received env f t id d
  | op_create t id => _create t id
  | op_destroy id => _destroy id
  | op_setUri p q => _setUri p q
  end.

Definition apply_op (st : State) (op : Op) : State :=
  fst (transact (op_body op) st).

Definition run_ops (ops : list Op) (st : State) : State :=
  fold_left apply_op ops st.

End Run.

End NFTokenLife.

(** ** The claims of a sequence of transactions *)

Module ClaimLife.
Import Abi Xcert.

Section Claims.

Variable keccak256 : list Byte.byte -> Z.

Abbreviation digest := (generateClaim keccak256).

(** The digest a transaction on claims is about. *)
Definition tx_claim (tx : Tx) : Z :=
  match tx with
  | tx_setApprovalForAllWithSignature env o op a ft fv fr sd ex _
  | tx_cancelSetApprovalForAllWithSignature env o op a ft fv fr sd ex =>
      digest env o op a ft fv fr sd ex
  end.

End Claims.

End ClaimLife.


(** ** An instance of a ledger

    The address 900 is a contract whose hook accepts every token; no
    other address is a contract.  On the ledger the tokens 1 and 2 were
    created for the account 7 and the token 3 for the account 8, and 7
    approved 9 for the token 1. *)

Module NFTokenSample.
Import Evm NFToken NFTokenLife.

Definition isDeployedContract (a : Z) : bool := a =? 900.

Definition onERC721Received (_to operator _from _tokenId : Z)
  (_data : list Byte.byte) : Result Z :=
  Ok MAGIC_ON_ERC721_RECEIVED.

Definition sent_by (sender : Z) : Xcert.Env := Xcert.mkEnv 2000 sender 0.

Definition history : list Op :=
  [op_create 7 1; op_create 7 2; op_create 8 3; op_approve (sent_by 7) 9 1].

Definition minted : State :=
  run_ops isDeployedContract onERC721Received history
    (deployed "Certificates" "CRT" "https://example.org/" ".json").

(** The ledger after the approved account 9 has transferred the token 1
    from 7 to 8. *)
Definition moved : State :=
  fst (transact (transferFrom (sent_by 9) 7 8 1) minted).

(** A chain on which the owner 7 of the claims of [Sample] holds no fee
    token. *)
Definition penniless : Xcert.State Sample.World :=
  Xcert.mkState ∅ ∅ ∅ [] ∅.

End NFTokenSample.

(** ** Properties of the packed encoding *)

Module AbiFacts.
Import Abi.

Lemma Z_of_byte_of_Z z : Z_of_byte (byte_of_Z z) = z mod 256.
Proof.
  unfold Z_of_byte, byte_of_Z.
  assert (0 <= z mod 256 < 256) as Hr by (apply Z.mod_pos_bound; lia).
  destruct (Byte.of_N (Z.to_N (z mod 256))) as [b|] eqn:E; simpl.
  - apply Byte.to_of_N in E. rewrite E. lia.
  - apply Byte.of_N_None_iff in E. lia.
Qed.

Lemma length_be_bytes n z : length (be_bytes n z) = n.
Proof.
  induction n as [|n IH]; simpl; [reflexivity|]. rewrite IH. reflexivity.
Qed.

Lemma fold_Z_of_be bs acc :
  fold_left (fun acc b => acc * 256 + Z_of_byte b) bs acc =
  acc * 256 ^ Z.of_nat (length bs) + Z_of_be bs.
Proof.
  unfold Z_of_be. revert acc. induction bs as [|b bs IH]; intros acc.
  - simpl. lia.
  - cbn [fold_left length]. rewrite IH, (IH (0 * 256 + Z_of_byte b)).
    rewrite Nat2Z.inj_succ, Z.pow_succ_r by lia. lia.
Qed.

(** Reading back the [n] bytes of [z] gives [z] modulo [256 ^ n]. *)
Lemma Z_of_be_be_bytes n z : Z_of_be (be_bytes n z) = z mod 256 ^ Z.of_nat n.
Proof.
  induction n as [|n IH].
  - simpl. rewrite Z.mod_1_r. reflexivity.
  - cbn [be_bytes]. unfold Z_of_be. cbn [fold_left].
    rewrite fold_Z_of_be, length_be_bytes, IH, Z_of_byte_of_Z.
    rewrite Z.shiftr_div_pow2 by lia.
    replace (2 ^ (8 * Z.of_nat n)) with (256 ^ Z.of_nat n)
      by (rewrite Z.pow_mul_r by lia; reflexivity).
    rewrite Nat2Z.inj_succ, Z.pow_succ_r by lia.
    rewrite (Z.mul_comm 256), Z.rem_mul_r by lia. lia.
Qed.

(** A value that fits in [n] bytes is determined by its encoding. *)
Lemma be_bytes_inj n x y :
  0 <= x < 256 ^ Z.of_nat n -> 0 <= y < 256 ^ Z.of_nat n ->
  be_bytes n x = be_bytes n y -> x = y.
Proof.
  intros Hx Hy E. apply (f_equal Z_of_be) in E.
  rewrite !Z_of_be_be_bytes in E. rewrite !Z.mod_small in E; assumption.
Qed.

Lemma length_encode_field f :
  length (encode_field f) =
    match f with
    | f_address _ => 20%nat
    | f_bool _ => 1%nat
    | f_uint256 _ | f_bytes32 _ => 32%nat
    | f_string s => length s
    end.
Proof.
  destruct f; cbn [encode_field]; try apply length_be_bytes; reflexivity.
Qed.

End AbiFacts.

(** ** Properties of the contract *)

Module XcertFacts.
Import Abi Xcert.

(** Unfolds the monad and the storage accesses of a contract function. *)
Ltac unfold_exec :=
  unfold transact, setApprovalForAllWithSignature,
    cancelSetApprovalForAllWithSignature, mbind, Exec_bind, require,
    call_pure, read_claimCancelled, read_claimPerformed,
    write_claimPerformed, write_claimCancelled, write_ownerToOperators,
    call_transferFrom, emit, is_cancelled, is_performed in *;
  simpl in *.

Lemma error_codes_distinct :
  NoDup [CAPABILITY_NOT_SUPPORTED; TRANSFERS_DISABLED; NOT_VALID_XCERT;
         NOT_XCERT_OWNER_OR_OPERATOR; INVALID_SIGNATURE;
         INVALID_SIGNATURE_KIND; CLAIM_PERFORMED; CLAIM_EXPIRED;
         CLAIM_CANCELED; NOT_OWNER].
Proof.
  apply (bool_decide_unpack _). vm_compute. exact I.
Qed.

Section Redemption.

Variable keccak256 : list Byte.byte -> Z.
Variable ecrecover : Z -> Z -> Z -> Z -> Z.
Variable World : Type.
Variable ERC20_transferFrom : Z -> Z -> Z -> Z -> Z -> World -> World + string.

Abbreviation perform :=
  (setApprovalForAllWithSignature keccak256 ecrecover World ERC20_transferFrom).
Abbreviation cancel := (cancelSetApprovalForAllWithSignature keccak256 World).
Abbreviation digest := (generateClaim keccak256).
Abbreviation valid := (isValidSignature keccak256 ecrecover).

(** The checks of [setApprovalForAllWithSignature], in the order in which
    the function makes them. *)
Lemma perform_cases env o op a ft fv fr sd ex sg (st : State World) :
  perform env o op a ft fv fr sd ex sg st =
    let claim := digest env o op a ft fv fr sd ex in
    if is_cancelled st claim then Revert CLAIM_CANCELED st
    else match valid o claim sg with
         | Throw reason => Revert reason st
         | Value false => Revert INVALID_SIGNATURE st
         | Value true =>
             if is_performed st claim then Revert CLAIM_PERFORMED st
             else if ex <? block_timestamp env then Revert CLAIM_EXPIRED st
             else effects World ERC20_transferFrom env claim o op a ft fv fr st
         end.
Proof.
  unfold effects. unfold_exec.
  destruct (default false (claimCancelled st !! _)); simpl; [reflexivity|].
  destruct (valid _ _ _) as [[|]|reason]; simpl; try reflexivity.
  destruct (default false (claimPerformed st !! _)); simpl; [reflexivity|].
  rewrite Z.geb_leb, Z.leb_antisym.
  destruct (ex <? block_timestamp env); simpl; [reflexivity|].
  destruct (ERC20_transferFrom _ _ _ _ _ _); reflexivity.
Qed.

(** The checks of [cancelSetApprovalForAllWithSignature]. *)
Lemma cancel_cases env o op a ft fv fr sd ex (st : State World) :
  cancel env o op a ft fv fr sd ex st =
    let claim := digest env o op a ft fv fr sd ex in
    if negb (msg_sender env =? o) then Revert NOT_OWNER st
    else if is_performed st claim then Revert CLAIM_PERFORMED st
    else Return tt
           (mkState (claimPerformed st) (<[claim := true]> (claimCancelled st))
                    (ownerToOperators st) (logs st) (world st)).
Proof.
  unfold_exec.
  destruct (msg_sender env =? o); simpl; [|reflexivity].
  destruct (default false (claimPerformed st !! _)); reflexivity.
Qed.

(** A transaction that reverts leaves the storage as it was. *)
Lemma transact_revert (body : Exec World unit) (st st' : State World) reason :
  body st = Revert reason st' -> transact body st = (st, Some reason).
Proof. unfold transact. intros ->. reflexivity. Qed.

(** A transaction that succeeded returned. *)
Lemma transact_success (body : Exec World unit) (st st' : State World) :
  transact body st = (st', None) -> body st = Return tt st'.
Proof.
  unfold transact. destruct (body st) as [[] s|reason s]; intros E.
  - injection E as ->. reflexivity.
  - discriminate E.
Qed.

(** The signature is checked before the expiration: a claim that is not
    cancelled and whose signature does not recover to the owner is
    rejected with INVALID_SIGNATURE, expired or not, performed or not. *)
Lemma invalid_signature_rejected_first env o op a ft fv fr sd ex sg
  (st : State World) :
  is_cancelled st (digest env o op a ft fv fr sd ex) = false ->
  valid o (digest env o op a ft fv fr sd ex) sg = Value false ->
  transact (perform env o op a ft fv fr sd ex sg) st =
    (st, Some INVALID_SIGNATURE).
Proof.
  intros Hc Hv. unfold transact. rewrite perform_cases. cbv zeta.
  rewrite Hc, Hv. reflexivity.
Qed.

(** C1, as amended: a claim whose expiration lies before the current time
    is always rejected and the storage stays as it was; the expiration is
    the last of the four checks, so the reason is CLAIM_EXPIRED only when
    the claim is not cancelled, its signature is valid and it is not yet
    performed, and otherwise the reason of the first check that fails;
    the function reverts in the state in which it was called, before any
    write. *)
Theorem expired_claim_rejected env o op a ft fv fr sd ex sg
  (st : State World) :
  ex < block_timestamp env ->
  let claim := digest env o op a ft fv fr sd ex in
  let reason :=
    if is_cancelled st claim then CLAIM_CANCELED
    else match valid o claim sg with
         | Throw reason => reason
         | Value false => INVALID_SIGNATURE
         | Value true =>
             if is_performed st claim then CLAIM_PERFORMED
             else CLAIM_EXPIRED
         end in
  perform env o op a ft fv fr sd ex sg st = Revert reason st /\
  transact (perform env o op a ft fv fr sd ex sg) st = (st, Some reason).
Proof.
  intros Hexpired claim reason. apply Z.ltb_lt in Hexpired.
  assert (perform env o op a ft fv fr sd ex sg st = Revert reason st)
    as Hrev.
  { rewrite perform_cases. fold claim. cbv zeta. unfold reason.
    destruct (is_cancelled st claim); [reflexivity|].
    destruct (valid o claim sg) as [[|]|r]; try reflexivity.
    destruct (is_performed st claim); [reflexivity|].
    rewrite Hexpired. reflexivity. }
  split; [exact Hrev|]. exact (transact_revert _ _ _ _ Hrev).
Qed.

(** C7: when a check of [setApprovalForAllWithSignature] fails (the claim
    is cancelled, the signature is not valid, the claim is performed, or
    it has expired) the function reverts in the state in which it was
    called: nothing was written, no token was moved and no event was
    logged before the revert; and the transaction leaves [claimPerformed],
    [claimCancelled] and [ownerToOperators] as they were. *)
Theorem failed_verification_changes_nothing env o op a ft fv fr sd ex sg
  (st : State World) :
  let claim := digest env o op a ft fv fr sd ex in
  is_cancelled st claim = true \/ valid o claim sg <> Value true \/
  is_performed st claim = true \/ ex < block_timestamp env ->
  exists reason,
    perform env o op a ft fv fr sd ex sg st = Revert reason st /\
    transact (perform env o op a ft fv fr sd ex sg) st = (st, Some reason) /\
    let st' := fst (transact (perform env o op a ft fv fr sd ex sg) st) in
    claimPerformed st' = claimPerformed st /\
    claimCancelled st' = claimCancelled st /\
    ownerToOperators st' = ownerToOperators st.
Proof.
  intros claim Hfail.
  assert (exists reason, perform env o op a ft fv fr sd ex sg st
                         = Revert reason st) as [reason Hrev].
  { rewrite perform_cases. fold claim. cbv zeta.
    destruct (is_cancelled st claim); [eauto|].
    destruct (valid o claim sg) as [[|]|r]; eauto.
    destruct (is_performed st claim); [eauto|].
    destruct Hfail as [H|[H|[H|H]]]; try discriminate H.
    - exfalso. apply H. reflexivity.
    - apply Z.ltb_lt in H. rewrite H. eauto. }
  exists reason. split; [exact Hrev|].
  rewrite (transact_revert _ _ _ _ Hrev). simpl. auto.
Qed.

(** C3: a cancellation of a performed claim is rejected, with NOT_OWNER
    when the caller is not the owner and CLAIM_PERFORMED when it is; a
    cancellation by anyone but the claim's owner is rejected with
    NOT_OWNER; a redemption of a cancelled claim is rejected with
    CLAIM_CANCELED.  Each rejection leaves the storage as it was. *)
Theorem cancellation_exclusive env o op a ft fv fr sd ex sg
  (st : State World) :
  let claim := digest env o op a ft fv fr sd ex in
  (is_performed st claim = true ->
   transact (cancel env o op a ft fv fr sd ex) st =
     (st, Some (if msg_sender env =? o then CLAIM_PERFORMED else NOT_OWNER)))
  /\ (msg_sender env <> o ->
      transact (cancel env o op a ft fv fr sd ex) st = (st, Some NOT_OWNER))
  /\ (is_cancelled st claim = true ->
      transact (perform env o op a ft fv fr sd ex sg) st =
        (st, Some CLAIM_CANCELED)).
Proof.
  intros claim. repeat split.
  - intros Hperf. unfold transact. rewrite cancel_cases. fold claim.
    cbv zeta. rewrite Hperf. destruct (msg_sender env =? o); reflexivity.
  - intros Hne. apply Z.eqb_neq in Hne.
    unfold transact. rewrite cancel_cases. cbv zeta. rewrite Hne.
    reflexivity.
  - intros Hcanc. unfold transact. rewrite perform_cases. fold claim.
    cbv zeta. rewrite Hcanc. reflexivity.
Qed.

(** *** The life of a claim *)

Abbreviation apply := (apply_tx keccak256 ecrecover World ERC20_transferFrom).
Abbreviation run_all := (run keccak256 ecrecover World ERC20_transferFrom).

(** What a successful redemption has checked and written. *)
Lemma perform_success env o op a ft fv fr sd ex sg (st st1 : State World) :
  transact (perform env o op a ft fv fr sd ex sg) st = (st1, None) ->
  let claim := digest env o op a ft fv fr sd ex in
  is_cancelled st claim = false /\
  valid o claim sg = Value true /\
  is_performed st claim = false /\
  block_timestamp env <= ex /\
  claimPerformed st1 = <[claim := true]> (claimPerformed st) /\
  claimCancelled st1 = claimCancelled st /\
  ownerToOperators st1 = <[(o, op) := a]> (ownerToOperators st) /\
  logs st1 = logs st ++ [ApprovalForAll o op a].
Proof.
  intros Hok claim. apply transact_success in Hok.
  rewrite perform_cases in Hok. fold claim in Hok. cbv zeta in Hok.
  destruct (is_cancelled st claim); [discriminate Hok|].
  destruct (valid o claim sg) as [[|]|r]; try discriminate Hok.
  destruct (is_performed st claim); [discriminate Hok|].
  destruct (ex <? block_timestamp env) eqn:Hex; [discriminate Hok|].
  apply Z.ltb_ge in Hex. unfold effects in Hok.
  destruct (ERC20_transferFrom _ _ _ _ _ _); [|discriminate Hok].
  injection Hok as <-. simpl. auto 10.
Qed.

(** What a successful cancellation has checked and written. *)
Lemma cancel_success env o op a ft fv fr sd ex (st st1 : State World) :
  transact (cancel env o op a ft fv fr sd ex) st = (st1, None) ->
  let claim := digest env o op a ft fv fr sd ex in
  msg_sender env = o /\
  is_performed st claim = false /\
  st1 = mkState (claimPerformed st) (<[claim := true]> (claimCancelled st))
                (ownerToOperators st) (logs st) (world st).
Proof.
  intros Hok claim. apply transact_success in Hok.
  rewrite cancel_cases in Hok. fold claim in Hok. cbv zeta in Hok.
  destruct (msg_sender env =? o) eqn:Hown; [|discriminate Hok].
  apply Z.eqb_eq in Hown. simpl in Hok.
  destruct (is_performed st claim); [discriminate Hok|].
  injection Hok as <-. auto.
Qed.

Lemma is_performed_insert (m : gmap Z bool) cc oo lg (w : World) c d :
  is_performed (mkState (<[c := true]> m) cc oo lg w) d =
    if decide (c = d) then true else default false (m !! d).
Proof.
  unfold is_performed. simpl. rewrite lookup_insert.
  destruct (decide (c = d)); reflexivity.
Qed.

Lemma is_cancelled_insert cp (m : gmap Z bool) oo lg (w : World) c d :
  is_cancelled (mkState cp (<[c := true]> m) oo lg w) d =
    if decide (c = d) then true else default false (m !! d).
Proof.
  unfold is_cancelled. simpl. rewrite lookup_insert.
  destruct (decide (c = d)); reflexivity.
Qed.

(** Performed is final: no transaction on claims makes a performed claim
    unperformed, or cancels it. *)
Lemma apply_keeps_performed (st : State World) tx d :
  is_performed st d = true ->
  is_performed (apply st tx) d = true /\
  (is_cancelled st d = false -> is_cancelled (apply st tx) d = false).
Proof.
  intros Hperf. unfold apply_tx, transact.
  destruct tx as [env o op a ft fv fr sd ex sg|env o op a ft fv fr sd ex];
    unfold tx_body.
  - rewrite perform_cases. cbv zeta.
    set (claim := digest env o op a ft fv fr sd ex).
    destruct (is_cancelled st claim); [auto|].
    destruct (valid o claim sg) as [[|]|r]; auto.
    destruct (is_performed st claim); [auto|].
    destruct (ex <? block_timestamp env); [auto|].
    unfold effects. destruct (ERC20_transferFrom _ _ _ _ _ _); [|auto].
    simpl. split.
    + rewrite is_performed_insert. case_decide; [reflexivity|exact Hperf].
    + intros Hc. exact Hc.
  - rewrite cancel_cases. cbv zeta.
    set (claim := digest env o op a ft fv fr sd ex).
    destruct (negb _); [auto|].
    destruct (is_performed st claim) eqn:Hp; [auto|].
    simpl. split; [exact Hperf|].
    intros Hc. rewrite is_cancelled_insert. case_decide as Heq; [|exact Hc].
    rewrite Heq in Hp. congruence.
Qed.

Lemma run_keeps_performed txs (st : State World) d :
  is_performed st d = true ->
  is_cancelled st d = false ->
  is_performed (run_all txs st) d = true /\
  is_cancelled (run_all txs st) d = false.
Proof.
  revert st. induction txs as [|tx txs IH]; intros st Hp Hc; [auto|].
  simpl. destruct (apply_keeps_performed st tx d Hp) as [Hp' Hc'].
  apply IH; auto.
Qed.

(** C2, as amended: once a claim has been redeemed, and whatever
    transactions on claims follow, the claim stays performed and every
    further redemption of it is rejected and leaves the storage as it was;
    the signature is checked before the performed flag, so the reason is
    CLAIM_PERFORMED when the signature presented is valid (as it is when
    the first call is submitted again) and INVALID_SIGNATURE, or the
    reason of [isValidSignature], when it is not.  A redemption of a
    cancelled claim is rejected with CLAIM_CANCELED. *)
Theorem replay_rejected env1 env2 o op a ft fv fr sd ex sg1 txs
  (st st1 : State World) :
  transact (perform env1 o op a ft fv fr sd ex sg1) st = (st1, None) ->
  this env2 = this env1 ->
  let claim := digest env1 o op a ft fv fr sd ex in
  let st2 := run_all txs st1 in
  is_performed st2 claim = true /\
  (forall sg2,
     transact (perform env2 o op a ft fv fr sd ex sg2) st2 =
       (st2, Some match valid o claim sg2 with
                  | Throw reason => reason
                  | Value false => INVALID_SIGNATURE
                  | Value true => CLAIM_PERFORMED
                  end)) /\
  transact (perform env2 o op a ft fv fr sd ex sg1) st2 =
    (st2, Some CLAIM_PERFORMED) /\
  (forall sg2 (st' : State World),
     is_cancelled st' claim = true ->
     transact (perform env2 o op a ft fv fr sd ex sg2) st' =
       (st', Some CLAIM_CANCELED)).
Proof.
  intros Hok Hthis claim st2.
  destruct (perform_success _ _ _ _ _ _ _ _ _ _ _ _ Hok)
    as (Hc & Hvalid & _ & _ & Hp1 & Hc1 & _).
  fold claim in Hc, Hvalid, Hp1.
  assert (is_performed st1 claim = true) as Hperf1.
  { unfold is_performed. rewrite Hp1, lookup_insert_eq. reflexivity. }
  assert (is_cancelled st1 claim = false) as Hcanc1.
  { unfold is_cancelled in *. rewrite Hc1. exact Hc. }
  destruct (run_keeps_performed txs st1 claim Hperf1 Hcanc1) as [Hp2 Hc2].
  fold st2 in Hp2, Hc2.
  assert (digest env2 o op a ft fv fr sd ex = claim) as Hdigest.
  { unfold claim, generateClaim. rewrite Hthis. reflexivity. }
  assert (forall sg2,
     transact (perform env2 o op a ft fv fr sd ex sg2) st2 =
       (st2, Some match valid o claim sg2 with
                  | Throw reason => reason
                  | Value false => INVALID_SIGNATURE
                  | Value true => CLAIM_PERFORMED
                  end)) as Hreplay.
  { intros sg2. unfold transact. rewrite perform_cases, Hdigest. cbv zeta.
    rewrite Hc2. destruct (valid o claim sg2) as [[|]|r]; try reflexivity.
    rewrite Hp2. reflexivity. }
  split; [exact Hp2|]. split; [exact Hreplay|]. split.
  - rewrite Hreplay, Hvalid. reflexivity.
  - intros sg2 st' Hcanc. unfold transact.
    rewrite perform_cases, Hdigest. cbv zeta. rewrite Hcanc. reflexivity.
Qed.

(** Cancelled is final: no transaction on claims makes a cancelled claim
    uncancelled, or performs it. *)
Lemma apply_keeps_cancelled (st : State World) tx d :
  is_cancelled st d = true ->
  is_cancelled (apply st tx) d = true /\
  (is_performed st d = false -> is_performed (apply st tx) d = false).
Proof.
  intros Hcanc. unfold apply_tx, transact.
  destruct tx as [env o op a ft fv fr sd ex sg|env o op a ft fv fr sd ex];
    unfold tx_body.
  - rewrite perform_cases. cbv zeta.
    set (claim := digest env o op a ft fv fr sd ex).
    destruct (is_cancelled st claim) eqn:Hc; [auto|].
    destruct (valid o claim sg) as [[|]|r]; auto.
    destruct (is_performed st claim); [auto|].
    destruct (ex <? block_timestamp env); [auto|].
    unfold effects. destruct (ERC20_transferFrom _ _ _ _ _ _); [|auto].
    simpl. split; [exact Hcanc|].
    intros Hp. rewrite is_performed_insert. case_decide as Heq; [|exact Hp].
    rewrite Heq in Hc. congruence.
  - rewrite cancel_cases. cbv zeta.
    set (claim := digest env o op a ft fv fr sd ex).
    destruct (negb _); [auto|].
    destruct (is_performed st claim); [auto|].
    simpl. split; [|auto].
    rewrite is_cancelled_insert. case_decide; [reflexivity|exact Hcanc].
Qed.

Lemma run_keeps_cancelled txs (st : State World) d :
  is_cancelled st d = true ->
  is_performed st d = false ->
  is_cancelled (run_all txs st) d = true /\
  is_performed (run_all txs st) d = false.
Proof.
  revert st. induction txs as [|tx txs IH]; intros st Hc Hp; [auto|].
  simpl. destruct (apply_keeps_cancelled st tx d Hc) as [Hc' Hp'].
  apply IH; auto.
Qed.

(** Writing [true] again into a flag that is set changes nothing. *)
Lemma cancel_again (st : State World) d :
  is_cancelled st d = true ->
  mkState (claimPerformed st) (<[d := true]> (claimCancelled st))
          (ownerToOperators st) (logs st) (world st) = st.
Proof.
  unfold is_cancelled. intros H. destruct st as [cp cc oo lg w]. simpl in *.
  f_equal. apply insert_id.
  destruct (cc !! d) as [[|]|]; simpl in H; congruence.
Qed.

(** C4, as amended: once a redemption has succeeded, and whatever
    transactions on claims follow, every further redemption of the claim
    fails, whatever signature it presents, and leaves the storage as it
    was: with CLAIM_PERFORMED when the signature is the owner's (as when
    the first call is submitted again), and with the failure of the
    signature check when it is not.  A cancellation is different: once
    it has succeeded, and whatever transactions on claims follow, the
    claim is still cancelled and a further cancellation by the owner
    does not fail: it succeeds and leaves the storage as it was. *)
Theorem repeated_operation env1 env2 o op a ft fv fr sd ex sg txs
  (st st1 : State World) :
  this env2 = this env1 ->
  (transact (perform env1 o op a ft fv fr sd ex sg) st = (st1, None) ->
   (forall sg2,
      exists reason,
        transact (perform env2 o op a ft fv fr sd ex sg2) (run_all txs st1) =
          (run_all txs st1, Some reason) /\
        reason = match valid o (digest env1 o op a ft fv fr sd ex) sg2 with
                 | Throw thrown => thrown
                 | Value false => INVALID_SIGNATURE
                 | Value true => CLAIM_PERFORMED
                 end) /\
   transact (perform env2 o op a ft fv fr sd ex sg) (run_all txs st1) =
     (run_all txs st1, Some CLAIM_PERFORMED))
  /\
  (transact (cancel env1 o op a ft fv fr sd ex) st = (st1, None) ->
   msg_sender env2 = o ->
   is_cancelled (run_all txs st1) (digest env1 o op a ft fv fr sd ex) = true /\
   transact (cancel env2 o op a ft fv fr sd ex) (run_all txs st1) =
     (run_all txs st1, None)).
Proof.
  intros Hthis.
  assert (digest env2 o op a ft fv fr sd ex = digest env1 o op a ft fv fr sd ex)
    as Hdigest.
  { unfold generateClaim. rewrite Hthis. reflexivity. }
  set (claim := digest env1 o op a ft fv fr sd ex) in *.
  set (st2 := run_all txs st1).
  split.
  - intros Hok.
    destruct (perform_success _ _ _ _ _ _ _ _ _ _ _ _ Hok)
      as (Hc & Hvalid & _ & _ & Hp1 & Hc1 & _).
    fold claim in Hc, Hvalid, Hp1.
    assert (is_performed st1 claim = true) as Hperf1.
    { unfold is_performed. rewrite Hp1, lookup_insert_eq. reflexivity. }
    assert (is_cancelled st1 claim = false) as Hcanc1.
    { unfold is_cancelled in *. rewrite Hc1. exact Hc. }
    destruct (run_keeps_performed txs st1 claim Hperf1 Hcanc1) as [Hp2 Hc2].
    fold st2 in Hp2, Hc2.
    assert (forall sg2,
      transact (perform env2 o op a ft fv fr sd ex sg2) st2 =
        (st2, Some match valid o claim sg2 with
                   | Throw thrown => thrown
                   | Value false => INVALID_SIGNATURE
                   | Value true => CLAIM_PERFORMED
                   end)) as Hreplay.
    { intros sg2. unfold transact. rewrite perform_cases, Hdigest. cbv zeta.
      rewrite Hc2. destruct (valid o claim sg2) as [[|]|r]; try reflexivity.
      rewrite Hp2. reflexivity. }
    split.
    + intros sg2. eexists. split; [apply Hreplay|reflexivity].
    + rewrite Hreplay, Hvalid. reflexivity.
  - intros Hok Hsender.
    destruct (cancel_success _ _ _ _ _ _ _ _ _ _ _ Hok) as (_ & Hp & E).
    fold claim in Hp, E.
    assert (is_cancelled st1 claim = true) as Hcanc1.
    { rewrite E, is_cancelled_insert.
      case_decide; [reflexivity|congruence]. }
    assert (is_performed st1 claim = false) as Hperf1
      by (rewrite E; exact Hp).
    destruct (run_keeps_cancelled txs st1 claim Hcanc1 Hperf1) as [Hc2 Hp2].
    fold st2 in Hc2, Hp2.
    split; [exact Hc2|].
    unfold transact. rewrite cancel_cases, Hdigest. cbv zeta.
    apply Z.eqb_eq in Hsender. rewrite Hsender. simpl.
    rewrite Hp2, (cancel_again st2 claim Hc2). reflexivity.
Qed.

End Redemption.

End XcertFacts.

(** ** Properties of the claim digest and of the signature check *)

Module ClaimFacts.
Import Abi Xcert SignatureAbi ClaimCodec AbiFacts.

(** The claim a call of [generateClaim] stands for. *)
Definition claim_of_call (env : Env) (_owner _operator : Z) (_approved : bool)
  (_feeToken _feeValue _feeRecipient _seed _expiration : Z) : ApprovalClaim :=
  mkApprovalClaim (this env) _owner _operator _approved _feeToken _feeValue
    _feeRecipient _seed _expiration.

(** The packed field list, byte string by byte string. *)
Lemma claim_preimage c :
  encodePacked (field_order c) =
    be_bytes 20 (dispatcherId c) ++ be_bytes 20 (ownerId c) ++
    be_bytes 20 (operatorId c) ++
    be_bytes 1 (if approvedFlag c then 1 else 0) ++
    be_bytes 20 (feeTokenId c) ++ be_bytes 32 (feeValue c) ++
    be_bytes 20 (feeRecipientId c) ++ be_bytes 32 (seed c) ++
    be_bytes 32 (expirationTimestamp c).
Proof.
  unfold encodePacked, field_order. cbn [map concat encode_field].
  rewrite app_nil_r. reflexivity.
Qed.

(** Two well-formed claims with the same packed field list are the same
    claim: every field, at its place, is part of what is hashed. *)
Lemma claim_preimage_injective c c' :
  well_formed c -> well_formed c' ->
  encodePacked (field_order c) = encodePacked (field_order c') -> c = c'.
Proof.
  intros Hc Hc' E. rewrite !claim_preimage in E.
  destruct c as [d o op a ft fv fr sd ex], c' as [d' o' op' a' ft' fv' fr' sd' ex'].
  unfold well_formed, field_order in Hc, Hc'.
  cbn [dispatcherId ownerId operatorId approvedFlag feeTokenId feeValue
       feeRecipientId seed expirationTimestamp] in E, Hc, Hc'.
  repeat match goal with
         | H : Forall _ (_ :: _) |- _ => apply Forall_cons in H as [? H]
         end.
  cbn [well_typed] in *.
  repeat match type of E with
         | _ ++ _ = _ ++ _ =>
             let E1 := fresh "E" in
             apply app_inj_1 in E as [E1 E];
             [| rewrite !length_be_bytes; reflexivity]
         end.
  assert (a = a') as ->.
  { match goal with
    | H : be_bytes 1 _ = be_bytes 1 _ |- _ =>
        destruct a, a'; try reflexivity; vm_compute in H; discriminate H
    end. }
  repeat match goal with
         | H : be_bytes _ ?x = be_bytes _ ?y |- _ =>
             apply be_bytes_inj in H; [subst x | assumption | assumption]
         end.
  reflexivity.
Qed.

Section Digest.

Variable keccak256 : list Byte.byte -> Z.
Variable ecrecover : Z -> Z -> Z -> Z -> Z.

(** C5: the digest of [generateClaim] is the hash of the packed list of
    the fields dispatcherId, ownerId, operatorId, approvedFlag,
    feeTokenId, feeValue, feeRecipientId, seed and expirationTimestamp,
    in this order, where the dispatcher is the contract itself; the
    packed list has 197 bytes, of which the first 20 are the address of
    the contract; and the digest depends on the call's environment
    through the address of the contract only. *)
Theorem generateClaim_field_order env o op a ft fv fr sd ex :
  let c := claim_of_call env o op a ft fv fr sd ex in
  generateClaim keccak256 env o op a ft fv fr sd ex = encode keccak256 c /\
  dispatcherId c = this env /\
  length (encodePacked (field_order c)) = 197%nat /\
  take 20 (encodePacked (field_order c)) = be_bytes 20 (this env) /\
  forall env', this env' = this env ->
    generateClaim keccak256 env' o op a ft fv fr sd ex =
    generateClaim keccak256 env o op a ft fv fr sd ex.
Proof.
  intros c. split; [reflexivity|]. split; [reflexivity|].
  rewrite claim_preimage. split; [|split].
  - rewrite !length_app, !length_be_bytes. reflexivity.
  - apply take_app_length'. symmetry. apply length_be_bytes.
  - intros env' Hthis. unfold generateClaim. rewrite Hthis. reflexivity.
Qed.

(** The part the two prefixes share, and what follows it: the length 32
    in decimal digits, or the byte 32. *)
Definition SIGNED_MESSAGE_HEADER : list Byte.byte :=
  [Byte.x19] ++ list_byte_of_string "Ethereum Signed Message:" ++ [Byte.x0a].


End Digest.

End ClaimFacts.

(** ** Properties of the client *)

Module AssetLedgerFacts.
Import AssetLedger.

Lemma ability_value_pow2 a : ability_value a = 2 ^ ability_bit a.
Proof. destruct a as [[]|[]]; reflexivity. Qed.

Lemma ability_bit_nonneg a : 0 <= ability_bit a.
Proof. destruct a as [[]|[]]; simpl; lia. Qed.

Lemma ability_bit_inj a b : ability_bit a = ability_bit b -> a = b.
Proof.
  destruct a as [[]|[]], b as [[]|[]]; simpl; intros E;
    try reflexivity; discriminate E.
Qed.

(** Bit [k] of [m], tested with the mask [2 ^ k]. *)
Lemma hasAbility_testbit m k : 0 <= k -> hasAbility m (2 ^ k) = Z.testbit m k.
Proof.
  intros Hk. unfold hasAbility.
  destruct (Z.testbit m k) eqn:Hb.
  - apply negb_true_iff, Z.eqb_neq. intros E.
    apply (f_equal (fun z => Z.testbit z k)) in E.
    rewrite Z.land_spec, Hb, Z.pow2_bits_true, Z.bits_0 in E by lia.
    discriminate E.
  - apply negb_false_iff, Z.eqb_eq. apply Z.bits_inj'. intros i Hi.
    rewrite Z.land_spec, Z.bits_0, Z.pow2_bits_eqb by lia.
    destruct (k =? i) eqn:E; [|apply andb_false_r].
    apply Z.eqb_eq in E. subst i. rewrite Hb. reflexivity.
Qed.

(** The bits of an OR of abilities: those of the start value and those of
    the abilities. *)
Lemma testbit_fold_lor l acc i :
  Z.testbit (fold_left (fun acc a => Z.lor acc (ability_value a)) l acc) i =
  Z.testbit acc i || existsb (fun a => ability_bit a =? i) l.
Proof.
  revert acc. induction l as [|a l IH]; intros acc; simpl.
  - rewrite orb_false_r. reflexivity.
  - rewrite IH, Z.lor_spec, ability_value_pow2, Z.pow2_bits_eqb
      by apply ability_bit_nonneg.
    rewrite orb_assoc. reflexivity.
Qed.

(** Adding abilities that are distinct from each other, to a number that
    has none of their bits, is the same as OR-ing them. *)
Lemma fold_add_lor l acc :
  NoDup l -> (forall a, a ∈ l -> Z.testbit acc (ability_bit a) = false) ->
  fold_left (fun acc a => acc + ability_value a) l acc =
  fold_left (fun acc a => Z.lor acc (ability_value a)) l acc.
Proof.
  revert acc. induction l as [|a l IH]; intros acc Hnd Hacc; simpl;
    [reflexivity|].
  apply NoDup_cons in Hnd as [Hnotin Hnd].
  assert (acc + ability_value a = Z.lor acc (ability_value a)) as ->.
  { apply Z.add_nocarry_lor.
    pose proof (hasAbility_testbit acc (ability_bit a)
                  (ability_bit_nonneg a)) as H.
    rewrite Hacc in H by (apply elem_of_cons; auto).
    unfold hasAbility in H. apply negb_false_iff, Z.eqb_eq in H.
    rewrite ability_value_pow2. exact H. }
  apply IH; [exact Hnd|].
  intros b Hb.
  rewrite Z.lor_spec, ability_value_pow2, Z.pow2_bits_eqb
    by apply ability_bit_nonneg.
  rewrite Hacc by (apply elem_of_cons; auto). simpl.
  apply Z.eqb_neq. intros E. apply ability_bit_inj in E. subst b. contradiction.
Qed.

Lemma includes_elem_of abilities a :
  includes abilities a = bool_decide (a ∈ abilities).
Proof.
  unfold includes. apply Bool.eq_iff_eq_true.
  rewrite existsb_exists, bool_decide_eq_true. split.
  - intros (b & Hin & Hb). apply bool_decide_eq_true in Hb. subst b.
    apply list_elem_of_In. exact Hin.
  - intros Hin. exists a. split; [apply list_elem_of_In; exact Hin|].
    apply bool_decide_eq_true. reflexivity.
Qed.

Lemma bit_listed abilities a :
  existsb (fun b => ability_bit b =? ability_bit a) abilities =
  bool_decide (a ∈ abilities).
Proof.
  apply Bool.eq_iff_eq_true.
  rewrite existsb_exists, bool_decide_eq_true. split.
  - intros (b & Hin & Hb). apply Z.eqb_eq, ability_bit_inj in Hb. subst b.
    apply list_elem_of_In. exact Hin.
  - intros Hin. exists a. split; [apply list_elem_of_In; exact Hin|].
    apply Z.eqb_refl.
Qed.

(** The sum of pairwise distinct abilities is their OR. *)
Lemma bitAbilities_of_distinct abilities :
  NoDup abilities -> bitAbilities_of abilities = bitwise_or_of abilities.
Proof.
  intros Hnd. apply fold_add_lor; [exact Hnd|].
  intros a _. apply Z.bits_0.
Qed.

(** An ability is in the OR of a list exactly when it is listed. *)
Lemma hasAbility_bitwise_or_of abilities a :
  hasAbility (bitwise_or_of abilities) (ability_value a) =
  bool_decide (a ∈ abilities).
Proof.
  rewrite ability_value_pow2, hasAbility_testbit by apply ability_bit_nonneg.
  unfold bitwise_or_of. rewrite testbit_fold_lor, Z.bits_0. simpl.
  apply bit_listed.
Qed.

(** C8, as amended: the flag allowSuperRevoke that [revokeAbilities]
    passes on is true exactly when MANAGE_ABILITIES is among the abilities
    to revoke, whoever the target account and the caller are; the account
    passed on is the normalised target and the bitmask the sum of the
    abilities.  For pairwise distinct abilities the flag is the
    MANAGE_ABILITIES bit of that bitmask. *)
Theorem revokeAbilities_allowSuperRevoke self accountId abilities :
  revokeAbilities self accountId abilities =
    mutation_revokeAbilities self
      (normalizeAddress (_provider self) (resolve_account accountId))
      (bitAbilities_of abilities)
      (bool_decide (Super MANAGE_ABILITIES ∈ abilities)) /\
  (NoDup abilities ->
   bool_decide (Super MANAGE_ABILITIES ∈ abilities) =
     hasAbility (bitAbilities_of abilities) (ability_value MANAGE_ABILITIES)).
Proof.
  split.
  - unfold revokeAbilities. rewrite includes_elem_of.
    destruct (bool_decide _); reflexivity.
  - intros Hnd. rewrite bitAbilities_of_distinct by exact Hnd.
    symmetry. apply hasAbility_bitwise_or_of.
Qed.

(** Where the sum is the bitfield: for a list of pairwise distinct
    abilities the number [getBitfieldFromAbilities] and [grantAbilities]
    compute, the sum of the values, is the bitwise OR of the values, and
    an ability tests as present in it exactly when it is listed; the
    abilities CREATE_ASSET (16) and UPDATE_ASSET (128) give 144, in which
    UPDATE_ASSET is present and REVOKE_ASSET (32) is absent. *)
Theorem bitfield_of_distinct_abilities abilities :
  NoDup abilities ->
  bitAbilities_of abilities = bitwise_or_of abilities /\
  getBitfieldFromAbilities abilities = toHexString (bitwise_or_of abilities) /\
  (forall self accountId,
     grantAbilities self accountId abilities =
       mutation_grantAbilities self
         (normalizeAddress (_provider self) (resolve_account accountId))
         (bitwise_or_of abilities)) /\
  (forall a,
     hasAbility (bitAbilities_of abilities) (ability_value a) =
       bool_decide (a ∈ abilities)) /\
  bitAbilities_of [General CREATE_ASSET; General UPDATE_ASSET] = 144 /\
  getBitfieldFromAbilities [General CREATE_ASSET; General UPDATE_ASSET]
    = "0x90"%string /\
  hasAbility 144 (ability_value UPDATE_ASSET) = true /\
  hasAbility 144 (ability_value REVOKE_ASSET) = false.
Proof.
  intros Hnd. pose proof (bitAbilities_of_distinct abilities Hnd) as Hsum.
  split; [exact Hsum|]. split.
  { unfold getBitfieldFromAbilities. rewrite Hsum. reflexivity. }
  split.
  { intros self accountId. unfold grantAbilities. rewrite Hsum. reflexivity. }
  split.
  { intros a. rewrite Hsum. apply hasAbility_bitwise_or_of. }
  repeat split.
Qed.

(** SHA-256 on the test vectors of the standard, and on the empty
    string. *)
Lemma sha256_test_vectors :
  Sha256.hex (Sha256.sha256 (list_byte_of_string "abc")) =
    "ba7816bf8f01cfea414140de5dae2223b00361a396177a9cb410ff61f20015ad"%string
  /\
  Sha256.hex (Sha256.sha256 (list_byte_of_string
    "abcdbcdecdefdefgefghfghighijhijkijkljklmklmnlmnomnopnopq")) =
    "248d6a61d20638b8e5c026930c3e6039a33ce45964ff2167f6ecedd419db06c1"%string.
Proof. split; vm_compute; reflexivity. Qed.

Lemma sha256_empty :
  Sha256.hex (Sha256.sha256 []) =
    "e3b0c44298fc1c149afbf4c8996fb92427ae41e4649b934ca495991b7852b855"%string.
Proof. vm_compute. reflexivity. Qed.

(** C10: [createAsset] passes on, as imprint, 0x followed by the imprint
    of the recipe, or by the digest e3b0...b855, which is the SHA-256 of
    the empty string, when the recipe has no imprint or an empty one;
    what follows 0x is never empty. *)
Theorem createAsset_imprint self recipe :
  exists digest,
    createAsset self recipe =
      mutation_createAsset self
        (normalizeAddress (_provider self) (receiverId recipe))
        (id recipe) ("0x" +:+ digest) /\
    digest <> ""%string /\
    (imprint recipe = None \/ imprint recipe = Some ""%string ->
     digest =
       "e3b0c44298fc1c149afbf4c8996fb92427ae41e4649b934ca495991b7852b855"%string
     /\ digest = Sha256.hex (Sha256.sha256 [])) /\
    (forall s, imprint recipe = Some s -> s <> ""%string -> digest = s).
Proof.
  unfold createAsset. destruct (imprint recipe) as [[|c s]|]; simpl.
  - eexists. split; [reflexivity|]. split; [discriminate|]. split.
    + intros _. split; [reflexivity|]. symmetry. exact sha256_empty.
    + intros s Hs Hne. injection Hs as <-. contradiction.
  - exists (String c s). split; [reflexivity|]. split; [discriminate|].
    split.
    + intros [H|H]; discriminate H.
    + intros s' Hs _. injection Hs as <-. reflexivity.
  - eexists. split; [reflexivity|]. split; [discriminate|]. split.
    + intros _. split; [reflexivity|]. symmetry. exact sha256_empty.
    + intros s Hs. discriminate Hs.
Qed.

End AssetLedgerFacts.

(** ** The theorems at work on transactions of the sample chain *)

Module Scenarios.
Import Abi Xcert AssetLedger.

Abbreviation perform_tx :=
  (setApprovalForAllWithSignature Sample.keccak256 Sample.ecrecover
     Sample.World Sample.ERC20_transferFrom).
Abbreviation cancel_tx :=
  (cancelSetApprovalForAllWithSignature Sample.keccak256 Sample.World).
Abbreviation digest_at env :=
  (generateClaim Sample.keccak256 env 7 8 true 500 5 9 1 2000).

(** The owner's signature of the claim that expires at 2000, and a
    signature that recovers to the zero address. *)
Definition signed : SignatureData :=
  Sample.sign 7 eth_sign (Sample.claim_of 2000).

Definition unsigned : SignatureData := mkSignatureData 0 0 0 eth_sign.

(** The storage after the claim was redeemed at time 1500, and after it
    was cancelled instead. *)
Definition redeemed : State Sample.World :=
  fst (transact (perform_tx (Sample.at_time 3 1500) 7 8 true 500 5 9 1 2000
                   signed) Sample.genesis).

Definition cancelled : State Sample.World :=
  fst (transact (cancel_tx (Sample.at_time 7 1500) 7 8 true 500 5 9 1 2000)
         Sample.genesis).

(** Two transactions that follow the redemption: the owner tries to cancel
    the claim, and redeems another claim (seed 2). *)
Definition followers : list Tx :=
  [ tx_cancelSetApprovalForAllWithSignature (Sample.at_time 7 1550)
      7 8 true 500 5 9 1 2000;
    tx_setApprovalForAllWithSignature (Sample.at_time 3 1560)
      7 8 false 500 5 9 2 2000
      (Sample.sign 7 no_prefix
         (generateClaim Sample.keccak256 (Sample.at_time 3 1560)
            7 8 false 500 5 9 2 2000)) ].

(** The two calls succeed. *)
Lemma redeemed_ok :
  transact (perform_tx (Sample.at_time 3 1500) 7 8 true 500 5 9 1 2000
              signed) Sample.genesis = (redeemed, None).
Proof. vm_compute. reflexivity. Qed.

Lemma cancelled_ok :
  transact (cancel_tx (Sample.at_time 7 1500) 7 8 true 500 5 9 1 2000)
    Sample.genesis = (cancelled, None).
Proof. vm_compute. reflexivity. Qed.

(** The redemption at work (scenario A of the specification): the claim
    is performed, 8 is an operator of 7, one ApprovalForAll event is
    logged, and the fee of 5 has moved from 7 to 9. *)
Lemma redeemed_state :
  is_performed redeemed (Sample.claim_of 2000) = true /\
  is_cancelled redeemed (Sample.claim_of 2000) = false /\
  ownerToOperators redeemed !! (7, 8) = Some true /\
  logs redeemed = [ApprovalForAll 7 8 true] /\
  world redeemed !! (500, 7) = Some 45 /\
  world redeemed !! (500, 9) = Some 5.
Proof.
  repeat (split; [vm_compute; reflexivity|]). vm_compute. reflexivity.
Qed.

(** C1, counterexample: at time 2500 the claim that expired at 2000 is
    submitted with a signature that is not the owner's; the call is
    rejected with INVALID_SIGNATURE (007005), not with CLAIM_EXPIRED
    (007008). *)
Lemma expired_claim_with_invalid_signature :
  2000 < block_timestamp (Sample.at_time 3 2500) /\
  transact (perform_tx (Sample.at_time 3 2500) 7 8 true 500 5 9 1 2000
              unsigned) Sample.genesis
    = (Sample.genesis, Some INVALID_SIGNATURE) /\
  INVALID_SIGNATURE <> CLAIM_EXPIRED.
Proof.
  split; [simpl; lia|]. split; [vm_compute; reflexivity|discriminate].
Qed.

(** C1, witness: at time 2500 the expired claim, signed by its owner, is
    rejected with CLAIM_EXPIRED. *)
Lemma expired_claim_rejected_witness :
  2000 < block_timestamp (Sample.at_time 3 2500) /\
  transact (perform_tx (Sample.at_time 3 2500) 7 8 true 500 5 9 1 2000
              signed) Sample.genesis
    = (Sample.genesis, Some CLAIM_EXPIRED).
Proof.
  assert (2000 < block_timestamp (Sample.at_time 3 2500)) as H
    by (simpl; lia).
  split; [exact H|].
  destruct (XcertFacts.expired_claim_rejected Sample.keccak256
              Sample.ecrecover Sample.World Sample.ERC20_transferFrom
              (Sample.at_time 3 2500) 7 8 true 500 5 9 1 2000 signed
              Sample.genesis H) as [_ E].
  rewrite E. vm_compute. reflexivity.
Defined.

(** C2, counterexample: the claim is redeemed at time 1500 and submitted
    again at time 1600 with a signature that is not the owner's; the
    second call is rejected with INVALID_SIGNATURE (007005), not with
    CLAIM_PERFORMED (007007). *)
Lemma replay_with_invalid_signature :
  transact (perform_tx (Sample.at_time 3 1500) 7 8 true 500 5 9 1 2000
              signed) Sample.genesis = (redeemed, None) /\
  is_performed redeemed (Sample.claim_of 2000) = true /\
  transact (perform_tx (Sample.at_time 3 1600) 7 8 true 500 5 9 1 2000
              unsigned) redeemed = (redeemed, Some INVALID_SIGNATURE) /\
  INVALID_SIGNATURE <> CLAIM_PERFORMED.
Proof.
  split; [exact redeemed_ok|].
  split; [vm_compute; reflexivity|].
  split; [vm_compute; reflexivity|discriminate].
Qed.

(** C2, witness: the claim is redeemed, the owner tries to cancel it and
    redeems another claim, and the first call is submitted again: the
    claim is still performed and the call is rejected with
    CLAIM_PERFORMED. *)
Lemma replay_rejected_witness :
  let later :=
    run Sample.keccak256 Sample.ecrecover Sample.World
      Sample.ERC20_transferFrom followers redeemed in
  transact (perform_tx (Sample.at_time 3 1500) 7 8 true 500 5 9 1 2000
              signed) Sample.genesis = (redeemed, None) /\
  is_performed later (digest_at (Sample.at_time 3 1500)) = true /\
  transact (perform_tx (Sample.at_time 4 1600) 7 8 true 500 5 9 1 2000
              signed) later = (later, Some CLAIM_PERFORMED).
Proof.
  intros later. split; [exact redeemed_ok|].
  destruct (XcertFacts.replay_rejected Sample.keccak256 Sample.ecrecover
              Sample.World Sample.ERC20_transferFrom
              (Sample.at_time 3 1500) (Sample.at_time 4 1600)
              7 8 true 500 5 9 1 2000 signed followers
              Sample.genesis redeemed redeemed_ok eq_refl)
    as (Hp & _ & Hr & _).
  split; [exact Hp|exact Hr].
Defined.

(** C3, witness: on the redeemed claim the owner's cancellation is
    rejected with CLAIM_PERFORMED and a stranger's with NOT_OWNER; a
    stranger's cancellation of the fresh claim is rejected with NOT_OWNER;
    the redemption of the cancelled claim is rejected with CLAIM_CANCELED. *)
Lemma cancellation_exclusive_witness :
  transact (cancel_tx (Sample.at_time 7 1600) 7 8 true 500 5 9 1 2000)
    redeemed = (redeemed, Some CLAIM_PERFORMED) /\
  transact (cancel_tx (Sample.at_time 3 1600) 7 8 true 500 5 9 1 2000)
    redeemed = (redeemed, Some NOT_OWNER) /\
  transact (cancel_tx (Sample.at_time 3 1600) 7 8 true 500 5 9 1 2000)
    Sample.genesis = (Sample.genesis, Some NOT_OWNER) /\
  transact (perform_tx (Sample.at_time 3 1600) 7 8 true 500 5 9 1 2000
              signed) cancelled = (cancelled, Some CLAIM_CANCELED).
Proof.
  split; [|split; [|split]].
  - destruct (XcertFacts.cancellation_exclusive Sample.keccak256
                Sample.ecrecover Sample.World Sample.ERC20_transferFrom
                (Sample.at_time 7 1600) 7 8 true 500 5 9 1 2000 signed
                redeemed) as (H & _ & _).
    apply H. vm_compute. reflexivity.
  - destruct (XcertFacts.cancellation_exclusive Sample.keccak256
                Sample.ecrecover Sample.World Sample.ERC20_transferFrom
                (Sample.at_time 3 1600) 7 8 true 500 5 9 1 2000 signed
                redeemed) as (H & _ & _).
    apply H. vm_compute. reflexivity.
  - destruct (XcertFacts.cancellation_exclusive Sample.keccak256
                Sample.ecrecover Sample.World Sample.ERC20_transferFrom
                (Sample.at_time 3 1600) 7 8 true 500 5 9 1 2000 signed
                Sample.genesis) as (_ & H & _).
    apply H. simpl. lia.
  - destruct (XcertFacts.cancellation_exclusive Sample.keccak256
                Sample.ecrecover Sample.World Sample.ERC20_transferFrom
                (Sample.at_time 3 1600) 7 8 true 500 5 9 1 2000 signed
                cancelled) as (_ & _ & H).
    apply H. vm_compute. reflexivity.
Defined.

(** C4, counterexample: the owner cancels the claim at time 1500 and
    cancels it again at time 1600; the second call does not fail: it
    succeeds and leaves the storage as the first call left it. *)
Lemma second_cancellation_succeeds :
  transact (cancel_tx (Sample.at_time 7 1500) 7 8 true 500 5 9 1 2000)
    Sample.genesis = (cancelled, None) /\
  is_cancelled cancelled (Sample.claim_of 2000) = true /\
  transact (cancel_tx (Sample.at_time 7 1600) 7 8 true 500 5 9 1 2000)
    cancelled = (cancelled, None).
Proof.
  split; [exact cancelled_ok|].
  split; vm_compute; reflexivity.
Qed.

(** C4, witness: the claim is redeemed, the owner tries to cancel it and
    redeems another claim; the redemption submitted again is then
    rejected with CLAIM_PERFORMED, and with a signature that is not the
    owner's it is rejected too.  The cancellation submitted again
    succeeds and changes nothing. *)
Lemma repeated_operation_witness :
  let later :=
    run Sample.keccak256 Sample.ecrecover Sample.World
      Sample.ERC20_transferFrom followers redeemed in
  transact (perform_tx (Sample.at_time 3 1500) 7 8 true 500 5 9 1 2000
              signed) Sample.genesis = (redeemed, None) /\
  transact (perform_tx (Sample.at_time 4 1600) 7 8 true 500 5 9 1 2000
              signed) later = (later, Some CLAIM_PERFORMED) /\
  (exists reason,
     transact (perform_tx (Sample.at_time 4 1600) 7 8 true 500 5 9 1 2000
                 unsigned) later = (later, Some reason)) /\
  is_cancelled cancelled (digest_at (Sample.at_time 7 1500)) = true /\
  transact (cancel_tx (Sample.at_time 7 1600) 7 8 true 500 5 9 1 2000)
    cancelled = (cancelled, None).
Proof.
  intros later.
  assert (this (Sample.at_time 4 1600) = this (Sample.at_time 3 1500)) as H1
    by reflexivity.
  assert (this (Sample.at_time 7 1600) = this (Sample.at_time 7 1500)) as H2
    by reflexivity.
  split; [exact redeemed_ok|].
  destruct (XcertFacts.repeated_operation Sample.keccak256 Sample.ecrecover
              Sample.World Sample.ERC20_transferFrom
              (Sample.at_time 3 1500) (Sample.at_time 4 1600)
              7 8 true 500 5 9 1 2000 signed followers Sample.genesis
              redeemed H1) as [Hperform _].
  destruct (Hperform redeemed_ok) as [Hany Hsame].
  split; [exact Hsame|].
  split.
  { destruct (Hany unsigned) as (reason & E & _). exists reason. exact E. }
  destruct (XcertFacts.repeated_operation Sample.keccak256 Sample.ecrecover
              Sample.World Sample.ERC20_transferFrom
              (Sample.at_time 7 1500) (Sample.at_time 7 1600)
              7 8 true 500 5 9 1 2000 signed [] Sample.genesis cancelled H2)
    as [_ Hcancel].
  exact (Hcancel cancelled_ok eq_refl).
Defined.

(** C5, witness: the bytes hashed for the sample claim. *)
Lemma generateClaim_field_order_witness :
  generateClaim Sample.keccak256 (Sample.at_time 3 1500) 7 8 true 500 5 9 1
    2000 =
  Sample.keccak256
    (be_bytes 20 1000 ++ be_bytes 20 7 ++ be_bytes 20 8 ++ be_bytes 1 1 ++
     be_bytes 20 500 ++ be_bytes 32 5 ++ be_bytes 20 9 ++ be_bytes 32 1 ++
     be_bytes 32 2000).
Proof.
  destruct (ClaimFacts.generateClaim_field_order Sample.keccak256
              (Sample.at_time 3 1500) 7 8 true 500 5 9 1 2000) as [E _].
  rewrite E. unfold ClaimCodec.encode. rewrite ClaimFacts.claim_preimage.
  reflexivity.
Defined.



(** C7, witness: a call with a signature that is not the owner's
    reverts in the state in which it was made. *)
Lemma failed_verification_witness :
  exists reason,
    perform_tx (Sample.at_time 3 1600) 7 8 true 500 5 9 1 2000 unsigned
      redeemed = Revert reason redeemed /\
    transact (perform_tx (Sample.at_time 3 1600) 7 8 true 500 5 9 1 2000
                unsigned) redeemed = (redeemed, Some reason).
Proof.
  destruct (XcertFacts.failed_verification_changes_nothing Sample.keccak256
              Sample.ecrecover Sample.World Sample.ERC20_transferFrom
              (Sample.at_time 3 1600) 7 8 true 500 5 9 1 2000 unsigned
              redeemed) as (reason & Hbody & Htx & _).
  - right. left. vm_compute. discriminate.
  - exists reason. split; [exact Hbody|exact Htx].
Defined.

(** C8, counterexample: the caller revokes MANAGE_ABILITIES from another
    account; the flag passed on is true although the target is not the
    caller. *)
Lemma allowSuperRevoke_for_another_account :
  Sample.other <> accountId (_provider Sample.ledger) /\
  revokeAbilities Sample.ledger (account_string Sample.other)
    [Super MANAGE_ABILITIES]
    = mutation_revokeAbilities Sample.ledger Sample.other 1 true.
Proof. split; [discriminate|reflexivity]. Qed.

(** C8, witness: the flag with and without MANAGE_ABILITIES in the list,
    and as a bit of the bitmask 17. *)
Lemma revokeAbilities_allowSuperRevoke_witness :
  revokeAbilities Sample.ledger (account_string Sample.caller)
    [General CREATE_ASSET; Super MANAGE_ABILITIES]
    = mutation_revokeAbilities Sample.ledger Sample.caller 17 true /\
  revokeAbilities Sample.ledger (account_string Sample.caller)
    [General CREATE_ASSET; Super ALLOW_MANAGE_ABILITIES]
    = mutation_revokeAbilities Sample.ledger Sample.caller 18 false /\
  hasAbility 17 (ability_value MANAGE_ABILITIES) = true.
Proof.
  assert (NoDup [General CREATE_ASSET; Super MANAGE_ABILITIES]) as Hnd
    by (apply (bool_decide_unpack _); vm_compute; exact I).
  destruct (AssetLedgerFacts.revokeAbilities_allowSuperRevoke Sample.ledger
              (account_string Sample.caller)
              [General CREATE_ASSET; Super MANAGE_ABILITIES]) as [E Hbit].
  split; [rewrite E; reflexivity|]. split.
  - destruct (AssetLedgerFacts.revokeAbilities_allowSuperRevoke Sample.ledger
                (account_string Sample.caller)
                [General CREATE_ASSET; Super ALLOW_MANAGE_ABILITIES])
      as [E' _].
    rewrite E'. reflexivity.
  - symmetry. exact (Hbit Hnd).
Defined.

(** C9, the code at the failing input: for CREATE_ASSET (16) listed twice
    [getBitfieldFromAbilities] returns 0x20 and [grantAbilities] grants
    32, which is the bit of REVOKE_ASSET, while the bitfield of the list,
    the bitwise OR of the listed values, is 16: the values are added,
    not OR-ed. *)
Lemma bitfield_of_repeated_ability :
  bitAbilities_of [General CREATE_ASSET; General CREATE_ASSET] = 32 /\
  getBitfieldFromAbilities [General CREATE_ASSET; General CREATE_ASSET]
    = "0x20"%string /\
  bitwise_or_of [General CREATE_ASSET; General CREATE_ASSET] = 16 /\
  grantAbilities Sample.ledger (account_string Sample.other)
    [General CREATE_ASSET; General CREATE_ASSET]
    = mutation_grantAbilities Sample.ledger Sample.other
        (ability_value REVOKE_ASSET).
Proof. split; [|split; [|split]]; vm_compute; reflexivity. Qed.

(** Three distinct abilities: the sum is the bitwise OR. *)
Lemma bitfield_of_distinct_abilities_witness :
  NoDup [General CREATE_ASSET; General UPDATE_ASSET; Super MANAGE_ABILITIES]
  /\
  getBitfieldFromAbilities
    [General CREATE_ASSET; General UPDATE_ASSET; Super MANAGE_ABILITIES]
    = toHexString (Z.lor (Z.lor 16 128) 1).
Proof.
  assert (NoDup [General CREATE_ASSET; General UPDATE_ASSET;
                 Super MANAGE_ABILITIES]) as H
    by (apply (bool_decide_unpack _); vm_compute; exact I).
  split; [exact H|].
  destruct (AssetLedgerFacts.bitfield_of_distinct_abilities _ H)
    as (_ & E & _).
  rewrite E. reflexivity.
Defined.

(** C10, witness: a recipe without imprint, and one with the imprint 1f. *)
Lemma createAsset_imprint_witness :
  createAsset Sample.ledger
    (mkAssetLedgerItemRecipe Sample.other "100" None) =
    mutation_createAsset Sample.ledger Sample.other "100"
      "0xe3b0c44298fc1c149afbf4c8996fb92427ae41e4649b934ca495991b7852b855"
  /\
  createAsset Sample.ledger
    (mkAssetLedgerItemRecipe Sample.other "100" (Some "1f"))
    = mutation_createAsset Sample.ledger Sample.other "100" "0x1f".
Proof.
  split.
  - destruct (AssetLedgerFacts.createAsset_imprint Sample.ledger
                (mkAssetLedgerItemRecipe Sample.other "100" None))
      as (digest & E & _ & Hdefault & _).
    destruct Hdefault as [-> _]; [left; reflexivity|]. exact E.
  - destruct (AssetLedgerFacts.createAsset_imprint Sample.ledger
                (mkAssetLedgerItemRecipe Sample.other "100" (Some "1f")))
      as (digest & E & _ & _ & Hgiven).
    rewrite (Hgiven "1f"%string eq_refl) in E by discriminate. exact E.
Defined.

End Scenarios.

(** ** Properties of [NFTokenMetadata] *)

Module Uint2strFacts.
Import Abi AbiFacts Evm NFToken Decimal.

Lemma value_app bs b :
  value (bs ++ [b]) = value bs * 10 + (Z_of_byte b - 48).
Proof. unfold value. rewrite fold_left_app. reflexivity. Qed.

Lemma digit_byte j : 0 <= j -> Z_of_byte (byte_of_Z (48 + j mod 10)) = 48 + j mod 10.
Proof.
  intros Hj. rewrite Z_of_byte_of_Z.
  pose proof (Z.mod_pos_bound j 10 ltac:(lia)). apply Z.mod_small. lia.
Qed.

Lemma digits_are_digits fuel j : 0 <= j -> Forall is_digit (digits fuel j).
Proof.
  revert j. induction fuel as [|fuel IH]; intros j Hj; simpl.
  - destruct (j =? 0); constructor.
  - destruct (j =? 0); [constructor|].
    apply Forall_app. split; [apply IH; apply Z.div_pos; lia|].
    constructor; [|constructor]. unfold is_digit. rewrite digit_byte by lia.
    pose proof (Z.mod_pos_bound j 10 ltac:(lia)). lia.
Qed.

(** Reading the digits of [j] gives [j] back. *)
Lemma value_digits fuel j :
  0 <= j < 10 ^ Z.of_nat fuel -> value (digits fuel j) = j.
Proof.
  revert j. induction fuel as [|fuel IH]; intros j Hj.
  - simpl in *. assert (j = 0) as -> by lia. reflexivity.
  - cbn [digits]. destruct (j =? 0) eqn:E.
    + apply Z.eqb_eq in E. subst j. reflexivity.
    + rewrite value_app, digit_byte by lia.
      rewrite IH.
      * pose proof (Z.div_mod j 10 ltac:(lia)). lia.
      * rewrite Nat2Z.inj_succ, Z.pow_succ_r in Hj by lia.
        split; [apply Z.div_pos; lia|].
        apply Z.div_lt_upper_bound; lia.
Qed.

(** The first digit of a number is not the digit zero. *)
Lemma digits_head fuel j :
  0 < j < 10 ^ Z.of_nat fuel ->
  exists b bs, digits fuel j = b :: bs /\ Z_of_byte b <> 48.
Proof.
  revert j. induction fuel as [|fuel IH]; intros j Hj.
  - simpl in Hj. lia.
  - cbn [digits]. destruct (j =? 0) eqn:E; [apply Z.eqb_eq in E; lia|].
    destruct (Z.eq_dec (j / 10) 0) as [Hz|Hnz].
    + rewrite Hz. assert (digits fuel 0 = []) as -> by (destruct fuel; reflexivity).
      eexists _, []. split; [reflexivity|].
      rewrite digit_byte by lia.
      apply Z.div_small_iff in Hz; [|lia].
      rewrite Z.mod_small by lia. lia.
    + destruct (IH (j / 10)) as (b & bs & Hd & Hb).
      * rewrite Nat2Z.inj_succ, Z.pow_succ_r in Hj by lia.
        pose proof (Z.div_pos j 10 ltac:(lia) ltac:(lia)).
        split; [lia|]. apply Z.div_lt_upper_bound; lia.
      * rewrite Hd. eexists b, _. split; [reflexivity|exact Hb].
Qed.

(** The first loop counts the digits. *)
Lemma count_digits_spec fuel j len :
  0 <= j < 10 ^ Z.of_nat fuel ->
  count_digits fuel j len = Ok (len + Z.of_nat (length (digits fuel j))).
Proof.
  revert j len. induction fuel as [|fuel IH]; intros j len Hj.
  - simpl in *. assert (j = 0) as -> by lia. simpl. f_equal. lia.
  - cbn [count_digits digits]. destruct (j =? 0) eqn:E.
    + simpl. f_equal. lia.
    + apply Z.eqb_neq in E. rewrite IH.
      * rewrite length_app. simpl. f_equal. lia.
      * rewrite Nat2Z.inj_succ, Z.pow_succ_r in Hj by lia.
        split; [apply Z.div_pos; lia|]. apply Z.div_lt_upper_bound; lia.
Qed.

(** The second loop writes the digits, from the last to the first, into
    the [length (digits j)] places below [k]; it neither underflows [k]
    nor leaves the array. *)
Lemma write_digits_spec fuel j (k : nat) bstr :
  0 <= j < 10 ^ Z.of_nat fuel ->
  (length (digits fuel j) <= k <= length bstr)%nat ->
  write_digits fuel j (Z.of_nat k) bstr =
    Ok (take (k - length (digits fuel j)) bstr ++ digits fuel j ++ drop k bstr).
Proof.
  revert j k bstr. induction fuel as [|fuel IH]; intros j k bstr Hj Hk.
  - simpl in *. assert (j = 0) as -> by lia. simpl.
    rewrite Nat.sub_0_r, take_drop. reflexivity.
  - cbn [write_digits digits] in *. destruct (j =? 0) eqn:E.
    + simpl. rewrite Nat.sub_0_r, take_drop. reflexivity.
    + apply Z.eqb_neq in E. rewrite length_app in Hk. simpl in Hk.
      rewrite length_app. simpl length.
      unfold checked_sub.
      destruct (1 <=? Z.of_nat k) eqn:H1; [|apply Z.leb_gt in H1; lia].
      replace (Z.of_nat k - 1) with (Z.of_nat (k - 1)) by lia.
      destruct (Z.of_nat (k - 1) <? Z.of_nat (length bstr)) eqn:H2;
        [|apply Z.ltb_ge in H2; lia].
      rewrite Nat2Z.id, IH.
      * f_equal.
        rewrite take_insert_ge by lia.
        rewrite drop_insert_ge by lia. rewrite Nat.sub_diag.
        replace (k - 1 - length (digits fuel (j / 10)))%nat
          with (k - (length (digits fuel (j / 10)) + 1))%nat by lia.
        rewrite <- !app_assoc. do 2 f_equal.
        destruct (drop (k - 1) bstr) as [|x rest] eqn:Hd.
        { apply (f_equal length) in Hd. rewrite length_drop in Hd.
          simpl in Hd. lia. }
        simpl. f_equal.
        replace k with (1 + (k - 1))%nat at 1 by lia.
        rewrite Nat.add_comm, <- drop_drop, Hd. reflexivity.
      * rewrite Nat2Z.inj_succ, Z.pow_succ_r in Hj by lia.
        split; [apply Z.div_pos; lia|]. apply Z.div_lt_upper_bound; lia.
      * rewrite length_insert. lia.
Qed.

End Uint2strFacts.

Module NFTokenUriFacts.
Import Abi AbiFacts Evm NFToken Decimal Uint2strFacts.

Lemma uint256_has_78_digits _i :
  0 <= _i < 2 ^ 256 -> 0 <= _i < 10 ^ Z.of_nat DIGITS_BOUND.
Proof.
  intros H. split; [lia|].
  apply Z.lt_trans with (2 ^ 256); [lia|]. vm_compute. reflexivity.
Qed.

(** What [_uint2str] returns for a number that is not zero. *)
Lemma uint2str_digits _i :
  0 < _i < 2 ^ 256 ->
  _uint2str _i = Ok (string_of_list_byte (digits DIGITS_BOUND _i)).
Proof.
  intros H. unfold _uint2str.
  destruct (_i =? 0) eqn:E; [apply Z.eqb_eq in E; lia|].
  pose proof (uint256_has_78_digits _i ltac:(lia)) as Hb.
  rewrite count_digits_spec by exact Hb. rewrite Z.add_0_l.
  cbv beta iota zeta. rewrite Nat2Z.id.
  rewrite write_digits_spec; [|exact Hb|rewrite length_replicate; lia].
  rewrite Nat.sub_diag, take_0.
  rewrite drop_ge by (rewrite length_replicate; lia).
  rewrite app_nil_r. reflexivity.
Qed.

(** [_uint2str] returns a string that reads back as the number. *)
Lemma uint2str_value _i :
  0 <= _i < 2 ^ 256 ->
  exists s, _uint2str _i = Ok s /\ value (list_byte_of_string s) = _i.
Proof.
  intros H. destruct (Z.eq_dec _i 0) as [->|Hnz].
  - exists "0"%string. split; reflexivity.
  - exists (string_of_list_byte (digits DIGITS_BOUND _i)).
    split; [apply uint2str_digits; lia|].
    rewrite list_byte_of_string_of_list_byte.
    apply value_digits, uint256_has_78_digits, H.
Qed.

(** [_uint2str] writes a [uint256] in decimal: it returns, for every
    number, a string of digits that is not empty, that reads back as the
    number, and that starts with the digit 0 only when it is the string
    0 of the number zero; so no loop runs out of its bound, and the
    decrement of the index and the write into the array never panic. *)
Theorem uint2str_decimal _i :
  0 <= _i < 2 ^ 256 ->
  exists s,
    _uint2str _i = Ok s /\
    Forall is_digit (list_byte_of_string s) /\
    value (list_byte_of_string s) = _i /\
    (exists b bs, list_byte_of_string s = b :: bs /\
                  (Z_of_byte b = 48 -> _i = 0 /\ bs = [])).
Proof.
  intros H. destruct (Z.eq_dec _i 0) as [->|Hnz].
  - exists "0"%string. split; [reflexivity|]. split.
    + repeat constructor; vm_compute; discriminate.
    + split; [reflexivity|]. exists Byte.x30, []. auto.
  - pose proof (uint256_has_78_digits _i H) as Hb.
    exists (string_of_list_byte (digits DIGITS_BOUND _i)).
    split; [apply uint2str_digits; lia|].
    rewrite list_byte_of_string_of_list_byte.
    split; [apply digits_are_digits; lia|].
    split; [apply value_digits; exact Hb|].
    destruct (digits_head DIGITS_BOUND _i ltac:(lia)) as (b & bs & Hd & Hb0).
    exists b, bs. split; [exact Hd|]. intros E. contradiction.
Qed.

(** Different numbers have different strings. *)
Lemma uint2str_inj i j :
  0 <= i < 2 ^ 256 -> 0 <= j < 2 ^ 256 -> _uint2str i = _uint2str j -> i = j.
Proof.
  intros Hi Hj E.
  destruct (uint2str_value i Hi) as (s & Hs & Hv).
  destruct (uint2str_value j Hj) as (s' & Hs' & Hv').
  rewrite Hs, Hs' in E. injection E as ->. congruence.
Qed.

Lemma list_ascii_of_string_app a b :
  list_ascii_of_string (a +:+ b) =
  list_ascii_of_string a ++ list_ascii_of_string b.
Proof. induction a as [|c a IH]; simpl; [reflexivity|]. rewrite IH. reflexivity. Qed.

Lemma string_app_inv_tail a b p : (a +:+ p = b +:+ p)%string -> a = b.
Proof.
  intros E. apply (f_equal list_ascii_of_string) in E.
  rewrite !list_ascii_of_string_app in E. apply app_inv_tail in E.
  rewrite <- (string_of_list_ascii_of_string a),
          <- (string_of_list_ascii_of_string b), E. reflexivity.
Qed.

Lemma string_app_nil_r s : (s +:+ "")%string = s.
Proof.
  induction s as [|c s IH]; [reflexivity|].
  change (String c (s +:+ "") = String c s). rewrite IH. reflexivity.
Qed.

Lemma string_app_assoc a b c : ((a +:+ b) +:+ c = a +:+ (b +:+ c))%string.
Proof.
  induction a as [|x a IH]; [reflexivity|].
  change (String x ((a +:+ b) +:+ c) = String x (a +:+ (b +:+ c))).
  rewrite IH. reflexivity.
Qed.

Lemma string_length_pos s : (0 <? String.length s)%nat = negb (bool_decide (s = ""%string)).
Proof. destruct s; reflexivity. Qed.

(** [tokenURI]: a token that does not exist has no URI (NOT_VALID_NFT);
    with an empty prefix the URI of every token is the empty string,
    whatever the postfix; with a prefix the URI is the prefix, the
    token's number in decimal and the postfix, and two tokens have the
    same URI only if they are the same token. *)
Theorem tokenURI_of_tokens st id id' :
  0 <= id < 2 ^ 256 -> 0 <= id' < 2 ^ 256 ->
  (owner_of st id = 0 -> tokenURI id st = Fail (Error NOT_VALID_NFT)) /\
  (owner_of st id <> 0 -> uriPrefix st = ""%string ->
   tokenURI id st = Ok ""%string) /\
  (owner_of st id <> 0 -> uriPrefix st <> ""%string ->
   exists digits,
     _uint2str id = Ok digits /\
     value (list_byte_of_string digits) = id /\
     tokenURI id st = Ok (uriPrefix st +:+ digits +:+ uriPostfix st)%string) /\
  (owner_of st id <> 0 -> owner_of st id' <> 0 -> uriPrefix st <> ""%string ->
   tokenURI id st = tokenURI id' st -> id = id').
Proof.
  intros Hid Hid'.
  assert (forall i, 0 <= i < 2 ^ 256 -> owner_of st i <> 0 ->
            uriPrefix st <> ""%string ->
            exists digits,
              _uint2str i = Ok digits /\
              value (list_byte_of_string digits) = i /\
              tokenURI i st =
                Ok (uriPrefix st +:+ digits +:+ uriPostfix st)%string)
    as Hshape.
  { intros i Hi Ho Hp. destruct (uint2str_value i Hi) as (s & Hs & Hv).
    exists s. split; [exact Hs|]. split; [exact Hv|].
    unfold tokenURI. apply Z.eqb_neq in Ho. rewrite Ho, Hs.
    rewrite !string_length_pos. rewrite bool_decide_eq_false_2 by exact Hp.
    simpl. case_bool_decide as Hq; simpl.
    - rewrite Hq, string_app_nil_r. reflexivity.
    - rewrite string_app_assoc. reflexivity. }
  split; [|split; [|split]].
  - intros Ho. unfold tokenURI. rewrite Ho. reflexivity.
  - intros Ho Hp. unfold tokenURI. apply Z.eqb_neq in Ho. rewrite Ho, Hp.
    reflexivity.
  - intros Ho Hp. exact (Hshape id Hid Ho Hp).
  - intros Ho Ho' Hp E.
    destruct (Hshape id Hid Ho Hp) as (d & Hd & _ & Hu).
    destruct (Hshape id' Hid' Ho' Hp) as (d' & Hd' & _ & Hu').
    rewrite Hu, Hu' in E. injection E as E.
    apply String.app_inj in E. apply string_app_inv_tail in E. subst d'.
    apply uint2str_inj; [assumption..|]. congruence.
Qed.

End NFTokenUriFacts.

Module NFTokenFacts.
Import Abi Evm NFToken NFTokenLife.

Ltac unfold_evm :=
  unfold transact, mbind, Exec_bind, mret, Exec_ret, gets, modify, require,
    assert, call_view, emit in *.

(** *** Reads after writes *)

Lemma lookup_default_insert `{Countable K} {A} (m : gmap K A) i j x d :
  default d (<[i := x]> m !! j) = if decide (i = j) then x else default d (m !! j).
Proof. rewrite lookup_insert. destruct (decide (i = j)); reflexivity. Qed.

Lemma lookup_default_delete `{Countable K} {A} (m : gmap K A) i j d :
  default d (delete i m !! j) = if decide (i = j) then d else default d (m !! j).
Proof. rewrite lookup_delete. destruct (decide (i = j)); reflexivity. Qed.

(** *** The functions, check by check *)



Lemma transferFrom_cases env f t id st :
  _transferFrom env f t id st =
    if f =? 0 then Revert (Error ZERO_ADDRESS) st
    else if negb (owner_of st id =? f) then Revert (Error NOT_VALID_NFT) st
    else if t =? 0 then Revert (Error ZERO_ADDRESS) st
    else if negb (may_transfer env st f id)
         then Revert (Error NOT_OWNER_APPROWED_OR_OPERATOR) st
    else if negb (0 <? count_of st f)
         then Revert (Panic 1) (set_idToApproval (delete id) st)
    else
      let count := if decide (f = t) then count_of st f - 1 else count_of st t in
      if count + 1 <? 2 ^ 256
      then Return tt (transferred st f t id (count + 1))
      else Revert (Panic 17)
             (set_idToOwner (insert id t)
                (set_count f (count_of st f - 1)
                   (set_idToApproval (delete id) st))).
Proof.
  unfold _transferFrom, may_transfer. unfold_evm.
  destruct (f =? 0); simpl; [reflexivity|].
  destruct (owner_of st id =? f); simpl; [|reflexivity].
  destruct (t =? 0); simpl; [reflexivity|].
  destruct ((f =? Xcert.msg_sender env)
            || (approval_of st id =? Xcert.msg_sender env)
            || operator_of st f (Xcert.msg_sender env)); simpl; [|reflexivity].
  change (count_of (set_idToApproval (delete id) st) f) with (count_of st f).
  destruct (0 <? count_of st f) eqn:Hpos; simpl; [|reflexivity].
  unfold checked_sub. apply Z.ltb_lt in Hpos.
  destruct (1 <=? count_of st f) eqn:H1; [|apply Z.leb_gt in H1; lia].
  simpl.
  match goal with |- context [checked_add ?c 1] =>
    assert (c = if decide (f = t) then count_of st f - 1 else count_of st t)
      as ->
  end.
  { unfold count_of, set_idToOwner, set_count, set_idToApproval. simpl.
    apply lookup_default_insert. }
  unfold checked_add.
  destruct (_ + 1 <? 2 ^ 256); reflexivity.
Qed.


Lemma create_cases t id st :
  _create t id st =
    if t =? 0 then Revert (Error ZERO_ADDRESS) st
    else if negb (owner_of st id =? 0)
         then Revert (Error NFT_ALREADY_EXISTS) st
    else if count_of st t + 1 <? 2 ^ 256
         then Return tt
                (mkState (nftName st) (nftSymbol st) (uriPrefix st)
                   (uriPostfix st) (<[id := t]> (idToOwner st))
                   (idToApproval st)
                   (<[t := count_of st t + 1]> (ownerToNFTokenCount st))
                   (ownerToOperators st) (logs st ++ [Transfer 0 t id]))
         else Revert (Panic 17) (set_idToOwner (insert id t) st).
Proof.
  unfold _create. unfold_evm.
  destruct (t =? 0); simpl; [reflexivity|].
  destruct (owner_of st id =? 0); simpl; [|reflexivity].
  change (count_of (set_idToOwner (insert id t) st) t) with (count_of st t).
  unfold checked_add. destruct (_ + 1 <? 2 ^ 256); reflexivity.
Qed.

Lemma destroy_cases id st :
  _destroy id st =
    if owner_of st id =? 0 then Revert (Error NOT_VALID_NFT) st
    else if negb (0 <? count_of st (owner_of st id))
         then Revert (Panic 1) (set_idToApproval (delete id) st)
    else Return tt
           (mkState (nftName st) (nftSymbol st) (uriPrefix st)
              (uriPostfix st) (delete id (idToOwner st))
              (delete id (idToApproval st))
              (<[owner_of st id := count_of st (owner_of st id) - 1]>
                 (ownerToNFTokenCount st))
              (ownerToOperators st)
              (logs st ++ [Transfer (owner_of st id) 0 id])).
Proof.
  unfold _destroy. unfold_evm.
  destruct (owner_of st id =? 0); simpl; [reflexivity|].
  change (count_of (set_idToApproval (delete id) st) (owner_of st id))
    with (count_of st (owner_of st id)).
  destruct (0 <? count_of st (owner_of st id)) eqn:Hpos; simpl; [|reflexivity].
  unfold checked_sub. apply Z.ltb_lt in Hpos.
  destruct (1 <=? _) eqn:H1; [|apply Z.leb_gt in H1; lia].
  reflexivity.
Qed.

Lemma approve_cases env a id st :
  approve env a id st =
    if (owner_of st id =? Xcert.msg_sender env)
       || operator_of st (owner_of st id) (Xcert.msg_sender env)
    then Return tt
           (mkState (nftName st) (nftSymbol st) (uriPrefix st)
              (uriPostfix st) (idToOwner st) (<[id := a]> (idToApproval st))
              (ownerToNFTokenCount st) (ownerToOperators st)
              (logs st ++ [Approval (owner_of st id) a id]))
    else Revert (Error NOT_OWNER_OR_OPERATOR) st.
Proof.
  unfold approve. unfold_evm.
  destruct ((owner_of st id =? Xcert.msg_sender env) || _); reflexivity.
Qed.

Lemma setApprovalForAll_cases env o b st :
  setApprovalForAll env o b st =
    Return tt
      (mkState (nftName st) (nftSymbol st) (uriPrefix st) (uriPostfix st)
         (idToOwner st) (idToApproval st) (ownerToNFTokenCount st)
         (<[(Xcert.msg_sender env, o) := b]> (ownerToOperators st))
         (logs st ++ [ApprovalForAll (Xcert.msg_sender env) o b])).
Proof. reflexivity. Qed.

Section Hooks.

Variable isDeployedContract : Z -> bool.
Variable onERC721Received :
  Z -> Z -> Z -> Z -> list Byte.byte -> Result Z.


Lemma safeTransferFrom_cases env f t id data st :
  _safeTransferFrom isDeployedContract onERC721Received env f t id data st =
    match accepts isDeployedContract onERC721Received env f t id data with
    | Ok _ => _transferFrom env f t id st
    | Fail e => Revert e st
    end.
Proof.
  unfold _safeTransferFrom, accepts. unfold_evm.
  destruct (isDeployedContract t); [|reflexivity].
  destruct (onERC721Received _ _ _ _ _) as [answer|e]; [|reflexivity].
  destruct (answer =? MAGIC_ON_ERC721_RECEIVED); reflexivity.
Qed.

End Hooks.

(** *** Counting the tokens of an address *)


Lemma owned_delete m id a :
  owned (delete id m) a =
    owned m a - (if decide (m !! id = Some a) then 1 else 0).
Proof.
  unfold owned. rewrite map_filter_delete.
  destruct (decide (m !! id = Some a)) as [Hin|Hout].
  - rewrite map_size_delete.
    assert (filter (fun kv : Z * Z => kv.2 = a) m !! id = Some a) as ->
      by (apply map_lookup_filter_Some; auto).
    assert (0 < size (filter (fun kv : Z * Z => kv.2 = a) m))%nat.
    { apply Nat.neq_0_lt_0. intros H0. apply map_size_empty_iff in H0.
      assert (filter (fun kv : Z * Z => kv.2 = a) m !! id = Some a) as E
        by (apply map_lookup_filter_Some; auto).
      rewrite H0, lookup_empty in E. discriminate. }
    lia.
  - rewrite delete_id; [lia|].
    apply map_lookup_filter_None. right. intros x Hx Hp. simpl in Hp.
    subst. contradiction.
Qed.

Lemma owned_insert m id t a :
  owned (<[id := t]> m) a =
    owned m a - (if decide (m !! id = Some a) then 1 else 0)
              + (if decide (t = a) then 1 else 0).
Proof.
  rewrite <- owned_delete.
  rewrite <- (insert_delete_eq m id t).
  assert (delete id m !! id = None) as Hnone by apply lookup_delete_eq.
  revert Hnone. generalize (delete id m). intros m' Hnone.
  unfold owned.
  destruct (decide (t = a)) as [->|Hne].
  - rewrite map_filter_insert_True by reflexivity.
    rewrite map_size_insert.
    assert (filter (fun kv : Z * Z => kv.2 = a) m' !! id = None) as ->.
    { apply map_lookup_filter_None. left. exact Hnone. }
    lia.
  - rewrite map_filter_insert_False by (simpl; congruence).
    rewrite (delete_id m' id) by exact Hnone. lia.
Qed.

Lemma owned_empty a : owned ∅ a = 0.
Proof. unfold owned. rewrite map_filter_empty. reflexivity. Qed.

End NFTokenFacts.

Module NFTokenInvariants.
Import Abi Evm NFToken NFTokenLife NFTokenFacts.



Lemma owner_lookup st id a :
  owner_of st id = a -> a <> 0 -> idToOwner st !! id = Some a.
Proof.
  unfold owner_of. destruct (idToOwner st !! id); simpl; congruence.
Qed.

Lemma owner_lookup_none st id :
  consistent st -> owner_of st id = 0 -> idToOwner st !! id = None.
Proof.
  intros [Hz _]. unfold owner_of. specialize (Hz id).
  destruct (idToOwner st !! id) as [o|]; simpl; [|reflexivity].
  intros ->. contradiction.
Qed.

Lemma owned_pos m id a : m !! id = Some a -> 0 < owned m a.
Proof.
  intros Hin. unfold owned.
  assert (size (filter (fun kv : Z * Z => kv.2 = a) m) <> 0%nat); [|lia].
  intros H0. apply map_size_empty_iff in H0.
  assert (filter (fun kv : Z * Z => kv.2 = a) m !! id = Some a) as E
    by (apply map_lookup_filter_Some; auto).
  rewrite H0, lookup_empty in E. discriminate.
Qed.

Lemma count_pos st id a :
  consistent st -> owner_of st id = a -> a <> 0 -> 0 < count_of st a.
Proof.
  intros [_ Hc] Ho Ha. rewrite Hc.
  apply (owned_pos _ id). apply owner_lookup; assumption.
Qed.

Lemma deployed_consistent n s p q : consistent (deployed n s p q).
Proof.
  split.
  - intros id. simpl. rewrite lookup_empty. discriminate.
  - intros a. simpl. rewrite owned_empty. reflexivity.
Qed.

Lemma deployed_clean n s p q : clean (deployed n s p q).
Proof. split; intros; reflexivity. Qed.

(** *** Transfers in a consistent state *)

Lemma transferFrom_consistent_cases env f t id st :
  consistent st ->
  _transferFrom env f t id st =
    if f =? 0 then Revert (Error ZERO_ADDRESS) st
    else if negb (owner_of st id =? f) then Revert (Error NOT_VALID_NFT) st
    else if t =? 0 then Revert (Error ZERO_ADDRESS) st
    else if negb (may_transfer env st f id)
         then Revert (Error NOT_OWNER_APPROWED_OR_OPERATOR) st
    else
      let count := if decide (f = t) then count_of st f - 1 else count_of st t in
      if count + 1 <? 2 ^ 256
      then Return tt (transferred st f t id (count + 1))
      else Revert (Panic 17)
             (set_idToOwner (insert id t)
                (set_count f (count_of st f - 1)
                   (set_idToApproval (delete id) st))).
Proof.
  intros Hc. rewrite transferFrom_cases.
  destruct (f =? 0) eqn:Hf; [reflexivity|].
  destruct (owner_of st id =? f) eqn:Ho; simpl; [|reflexivity].
  destruct (t =? 0); [reflexivity|].
  destruct (may_transfer env st f id); simpl; [|reflexivity].
  apply Z.eqb_eq in Ho. apply Z.eqb_neq in Hf.
  pose proof (count_pos st id f Hc Ho Hf) as Hpos.
  apply Z.ltb_lt in Hpos. rewrite Hpos. reflexivity.
Qed.

Lemma transferred_consistent st f t id :
  consistent st -> owner_of st id = f -> f <> 0 -> t <> 0 ->
  consistent
    (transferred st f t id
       ((if decide (f = t) then count_of st f - 1 else count_of st t) + 1)).
Proof.
  intros Hc Ho Hf Ht. pose proof (owner_lookup st id f Ho Hf) as Hin.
  destruct Hc as [Hz Hcount]. split.
  - intros id'. simpl. rewrite lookup_insert.
    destruct (decide (id = id')); [congruence|apply Hz].
  - intros a. unfold count_of at 1. simpl.
    rewrite lookup_default_insert, lookup_default_insert.
    rewrite owned_insert, Hin.
    fold (count_of st a). rewrite <- (Hcount a).
    destruct (decide (t = a)) as [->|Hta];
      destruct (decide (f = a)) as [->|Hfa];
      repeat case_decide; try congruence; lia.
Qed.

Lemma transferFrom_consistent env f t id st st' :
  consistent st -> _transferFrom env f t id st = Return tt st' ->
  consistent st'.
Proof.
  intros Hc. rewrite transferFrom_cases.
  destruct (f =? 0) eqn:Hf; [discriminate|].
  destruct (owner_of st id =? f) eqn:Ho; simpl; [|discriminate].
  destruct (t =? 0) eqn:Ht; [discriminate|].
  destruct (may_transfer env st f id); simpl; [|discriminate].
  destruct (0 <? count_of st f); simpl; [|discriminate].
  destruct (_ + 1 <? 2 ^ 256); [|discriminate].
  intros [= <-].
  apply Z.eqb_eq in Ho. apply Z.eqb_neq in Hf, Ht.
  apply transferred_consistent; assumption.
Qed.

Lemma create_consistent t id st st' :
  consistent st -> _create t id st = Return tt st' -> consistent st'.
Proof.
  intros Hc. rewrite create_cases.
  destruct (t =? 0) eqn:Ht; [discriminate|].
  destruct (owner_of st id =? 0) eqn:Ho; simpl; [|discriminate].
  destruct (_ + 1 <? 2 ^ 256); [|discriminate].
  intros [= <-].
  apply Z.eqb_eq in Ho. apply Z.eqb_neq in Ht.
  pose proof (owner_lookup_none st id Hc Ho) as Hnone.
  destruct Hc as [Hz Hcount]. split.
  - intros id'. simpl. rewrite lookup_insert.
    destruct (decide (id = id')); [congruence|apply Hz].
  - intros a. unfold count_of at 1. simpl.
    rewrite lookup_default_insert, owned_insert, Hnone.
    fold (count_of st a). rewrite <- (Hcount a).
    repeat case_decide; try congruence; subst; lia.
Qed.

Lemma destroy_consistent id st st' :
  consistent st -> _destroy id st = Return tt st' -> consistent st'.
Proof.
  intros Hc. rewrite destroy_cases.
  destruct (owner_of st id =? 0) eqn:Ho; [discriminate|].
  destruct (0 <? count_of st (owner_of st id)); simpl; [|discriminate].
  intros [= <-].
  apply Z.eqb_neq in Ho.
  pose proof (owner_lookup st id _ eq_refl Ho) as Hin.
  destruct Hc as [Hz Hcount]. split.
  - intros id'. simpl. rewrite lookup_delete.
    destruct (decide (id = id')); [congruence|apply Hz].
  - intros a. unfold count_of at 1. simpl.
    rewrite lookup_default_insert, owned_delete, Hin.
    fold (count_of st a). rewrite <- (Hcount a).
    repeat case_decide; try congruence; subst; lia.
Qed.

Section Run.

Variable isDeployedContract : Z -> bool.
Variable onERC721Received :
  Z -> Z -> Z -> Z -> list Byte.byte -> Result Z.

Abbreviation apply_op' := (apply_op isDeployedContract onERC721Received).
Abbreviation run_ops' := (run_ops isDeployedContract onERC721Received).
Abbreviation op_body' := (op_body isDeployedContract onERC721Received).

Lemma apply_op_preserves (P : State -> Prop) op st :
  P st -> (forall st', op_body' op st = Return tt st' -> P st') ->
  P (apply_op' st op).
Proof.
  intros Hst Hstep. unfold apply_op, transact.
  destruct (op_body' op st) as [[] st'|e st'] eqn:E; simpl; auto.
Qed.

Lemma op_consistent op st st' :
  consistent st -> op_body' op st = Return tt st' -> consistent st'.
Proof.
  intros Hc. destruct op; simpl.
  - rewrite approve_cases. destruct (_ || _); [|discriminate].
    intros [= <-]. exact Hc.
  - rewrite setApprovalForAll_cases. intros [= <-]. exact Hc.
  - apply transferFrom_consistent, Hc.
  - unfold safeTransferFrom_data. rewrite safeTransferFrom_cases.
    destruct (accepts _ _ _ _ _ _ _); [|discriminate].
    apply transferFrom_consistent, Hc.
  - apply create_consistent, Hc.
  - apply destroy_consistent, Hc.
  - intros [= <-]. exact Hc.
Qed.

Lemma run_ops_consistent ops st :
  consistent st -> consistent (run_ops' ops st).
Proof.
  revert st. induction ops as [|op ops IH]; intros st Hc; [exact Hc|].
  simpl. apply IH. apply apply_op_preserves; [exact Hc|].
  intros st'. apply op_consistent, Hc.
Qed.


Lemma op_clean op st st' :
  op_sender op <> Some 0 -> clean st ->
  op_body' op st = Return tt st' -> clean st'.
Proof.
  intros Hs [Ha Hop]. destruct op; simpl in *.
  - rewrite approve_cases.
    destruct (_ || _) eqn:Hauth; [|discriminate].
    intros [= <-]. split; [|exact Hop].
    intros id Hid. unfold approval_of. simpl.
    rewrite lookup_default_insert. case_decide; [|apply Ha, Hid].
    subst id. change (owner_of st _tokenId = 0) in Hid.
    rewrite Hid, Hop, orb_false_r in Hauth.
    apply Z.eqb_eq in Hauth. congruence.
  - rewrite setApprovalForAll_cases. intros [= <-]. split; [exact Ha|].
    intros o. unfold operator_of. simpl. rewrite lookup_default_insert.
    case_decide as E; [|apply Hop]. injection E as E _. congruence.
  - rewrite transferFrom_cases.
    destruct (_from =? 0); [discriminate|].
    destruct (owner_of st _tokenId =? _from); simpl; [|discriminate].
    destruct (_to =? 0) eqn:Ht; [discriminate|].
    destruct (may_transfer env st _from _tokenId); simpl; [|discriminate].
    destruct (0 <? _); simpl; [|discriminate].
    destruct (_ + 1 <? 2 ^ 256); [|discriminate].
    intros [= <-]. split; [|exact Hop].
    intros id. unfold owner_of, approval_of. simpl.
    rewrite lookup_default_insert, lookup_default_delete.
    case_decide; [reflexivity|apply Ha].
  - unfold safeTransferFrom_data. rewrite safeTransferFrom_cases.
    destruct (accepts _ _ _ _ _ _ _); [|discriminate].
    rewrite transferFrom_cases.
    destruct (_from =? 0); [discriminate|].
    destruct (owner_of st _tokenId =? _from); simpl; [|discriminate].
    destruct (_to =? 0) eqn:Ht; [discriminate|].
    destruct (may_transfer env st _from _tokenId); simpl; [|discriminate].
    destruct (0 <? _); simpl; [|discriminate].
    destruct (_ + 1 <? 2 ^ 256); [|discriminate].
    intros [= <-]. split; [|exact Hop].
    intros id. unfold owner_of, approval_of. simpl.
    rewrite lookup_default_insert, lookup_default_delete.
    case_decide; [reflexivity|apply Ha].
  - rewrite create_cases.
    destruct (_to =? 0) eqn:Ht; [discriminate|].
    destruct (owner_of st _tokenId =? 0) eqn:Ho; simpl; [|discriminate].
    destruct (_ + 1 <? 2 ^ 256); [|discriminate].
    intros [= <-]. split; [|exact Hop].
    intros id. unfold owner_of, approval_of. simpl.
    rewrite lookup_default_insert.
    apply Z.eqb_neq in Ht.
    case_decide; [congruence|apply Ha].
  - rewrite destroy_cases.
    destruct (owner_of st _tokenId =? 0); [discriminate|].
    destruct (0 <? _); simpl; [|discriminate].
    intros [= <-]. split; [|exact Hop].
    intros id. unfold owner_of, approval_of. simpl.
    rewrite !lookup_default_delete.
    case_decide; [reflexivity|apply Ha].
  - intros [= <-]. split; assumption.
Qed.

Lemma run_ops_clean ops st :
  real_senders ops -> clean st -> clean (run_ops' ops st).
Proof.
  intros Hs. revert st. induction Hs as [|op ops Hop Hs IH]; intros st Hc;
    [exact Hc|].
  simpl. apply IH. apply apply_op_preserves; [exact Hc|].
  intros st'. apply op_clean; assumption.
Qed.

End Run.

End NFTokenInvariants.

Module NFTokenTheorems.
Import Abi Evm NFToken NFTokenLife NFTokenFacts NFTokenInvariants.


Lemma transferFrom_bounded env f t id st st' :
  bounded st -> _transferFrom env f t id st = Return tt st' -> bounded st'.
Proof.
  intros Hb. rewrite transferFrom_cases.
  destruct (f =? 0); [discriminate|].
  destruct (owner_of st id =? f); simpl; [|discriminate].
  destruct (t =? 0); [discriminate|].
  destruct (may_transfer env st f id); simpl; [|discriminate].
  destruct (0 <? count_of st f); simpl; [|discriminate].
  destruct (_ + 1 <? 2 ^ 256) eqn:Hlt; [|discriminate].
  intros [= <-] a. apply Z.ltb_lt in Hlt.
  pose proof (Hb a). pose proof (Hb f). pose proof (Hb t).
  unfold count_of in *. simpl. rewrite !lookup_default_insert.
  unfold count_of. repeat case_decide; subst; lia.
Qed.

(** *** When a transfer succeeds *)

Lemma transferFrom_iff env f t id st :
  consistent st -> bounded st ->
  ((exists st', transferFrom env f t id st = Return tt st') <->
   f <> 0 /\ owner_of st id = f /\ t <> 0 /\
   (Xcert.msg_sender env = f
    \/ approval_of st id = Xcert.msg_sender env
    \/ operator_of st f (Xcert.msg_sender env) = true) /\
   (f = t \/ count_of st t < 2 ^ 256 - 1))
  /\ forall st', transferFrom env f t id st <> Revert (Panic 1) st'.
Proof.
  intros Hc Hb.
  unfold transferFrom.
  rewrite (transferFrom_consistent_cases env f t id st Hc).
  unfold may_transfer.
  destruct (Z.eqb_spec f 0) as [Hf|Hf].
  { split; [|intros ? [=]]. split; [intros [? [=]]|tauto]. }
  destruct (Z.eqb_spec (owner_of st id) f) as [Ho|Ho]; simpl.
  2:{ split; [|intros ? [=]]. split; [intros [? [=]]|tauto]. }
  destruct (Z.eqb_spec t 0) as [Ht|Ht].
  { split; [|intros ? [=]]. split; [intros [? [=]]|tauto]. }
  destruct (Z.eqb_spec f (Xcert.msg_sender env)) as [Hs|Hs];
    destruct (Z.eqb_spec (approval_of st id) (Xcert.msg_sender env)) as [Ha|Ha];
    destruct (operator_of st f (Xcert.msg_sender env)) eqn:Hop; simpl.
  8:{ split; [|intros ? [=]]. split; [intros [? [=]]|].
      intros (_ & _ & _ & [E|[E|E]] & _); congruence. }
  all: pose proof (Hb f) as Hbf.
  all: match goal with
       | |- context [?c + 1 <? 2 ^ 256] =>
           destruct (Z.ltb_spec (c + 1) (2 ^ 256)) as [Hlt|Hge]
       end.
  all: (split; [|intros ? [=]]).
  all: split.
  all: try solve [intros [? [=]]].
  all: try (intros _; eexists; reflexivity).
  all: try (intros _; repeat (split; [solve [auto]|]);
            case_decide; [left; assumption|right; lia]).
  all: intros (_ & _ & _ & _ & [E|E]); case_decide; try congruence; lia.
Qed.


(** *** What a transfer does *)

Lemma transferFrom_return env f t id st st' :
  _transferFrom env f t id st = Return tt st' ->
  f <> 0 /\ owner_of st id = f /\ t <> 0 /\ may_transfer env st f id = true /\
  st' = transferred st f t id
          ((if decide (f = t) then count_of st f - 1 else count_of st t) + 1).
Proof.
  rewrite transferFrom_cases.
  destruct (Z.eqb_spec f 0); [discriminate|].
  destruct (Z.eqb_spec (owner_of st id) f); simpl; [|discriminate].
  destruct (Z.eqb_spec t 0); [discriminate|].
  destruct (may_transfer env st f id); simpl; [|discriminate].
  destruct (0 <? count_of st f); simpl; [|discriminate].
  destruct (_ + 1 <? 2 ^ 256); [|discriminate].
  intros [= <-]. auto.
Qed.

Lemma may_transfer_true env st f id :
  may_transfer env st f id = true <->
  Xcert.msg_sender env = f
  \/ approval_of st id = Xcert.msg_sender env
  \/ operator_of st f (Xcert.msg_sender env) = true.
Proof.
  unfold may_transfer. rewrite !orb_true_iff, !Z.eqb_eq.
  intuition congruence.
Qed.

Lemma owner_of_transferred st f t id c id' :
  owner_of (transferred st f t id c) id' =
    if decide (id = id') then t else owner_of st id'.
Proof. apply lookup_default_insert. Qed.

Lemma approval_of_transferred st f t id c id' :
  approval_of (transferred st f t id c) id' =
    if decide (id = id') then 0 else approval_of st id'.
Proof. apply lookup_default_delete. Qed.

Lemma count_of_transferred st f t id c a :
  count_of (transferred st f t id c) a =
    if decide (t = a) then c
    else if decide (f = a) then count_of st f - 1 else count_of st a.
Proof.
  unfold count_of at 1. simpl. rewrite !lookup_default_insert. reflexivity.
Qed.

(** A successful [transferFrom] was authorised: [_from] owned the token
    and the sender was the owner, the approved address or an operator
    of the owner. It gives the token to [_to], clears the token's
    approval, moves one unit of balance, logs one [Transfer], and leaves
    every other token, approval and operator as it was. *)
Theorem transferFrom_success env f t id st st' :
  transferFrom env f t id st = Return tt st' ->
  (f <> 0 /\ t <> 0 /\ owner_of st id = f /\
   (Xcert.msg_sender env = f
    \/ approval_of st id = Xcert.msg_sender env
    \/ operator_of st f (Xcert.msg_sender env) = true)) /\
  owner_of st' id = t /\ approval_of st' id = 0 /\
  (forall id', id' <> id ->
     owner_of st' id' = owner_of st id' /\
     approval_of st' id' = approval_of st id') /\
  (forall a, count_of st' a =
               count_of st a - (if decide (a = f) then 1 else 0)
                             + (if decide (a = t) then 1 else 0)) /\
  (forall a o, operator_of st' a o = operator_of st a o) /\
  logs st' = logs st ++ [Transfer f t id].
Proof.
  intros H. apply transferFrom_return in H as (Hf & Ho & Ht & Hm & ->).
  apply may_transfer_true in Hm.
  split; [auto|].
  split; [rewrite owner_of_transferred; case_decide; congruence|].
  split; [rewrite approval_of_transferred; case_decide; congruence|].
  split.
  { intros id' Hid. rewrite owner_of_transferred, approval_of_transferred.
    case_decide; [congruence|auto]. }
  split; [|split; reflexivity].
  intros a. rewrite count_of_transferred.
  repeat case_decide; subst; try congruence; lia.
Qed.

(** The approval of a single token is spent by the transfer: a sender
    (not the zero address) that moved a token, and that is neither the
    new owner nor an operator of the new owner, cannot move the token
    again, from whatever address to whatever address. *)
Theorem approval_is_spent env f t id st st' :
  transferFrom env f t id st = Return tt st' ->
  Xcert.msg_sender env <> 0 ->
  Xcert.msg_sender env <> t ->
  operator_of st t (Xcert.msg_sender env) = false ->
  forall f2 t2,
    exists reason,
      transferFrom env f2 t2 id st' = Revert (Error reason) st' /\
      (f2 = t -> t2 <> 0 -> reason = NOT_OWNER_APPROWED_OR_OPERATOR).
Proof.
  intros H Hs0 Hs Hop f2 t2.
  apply transferFrom_return in H as (Hf & Ho & Ht & Hm & ->).
  set (st' := transferred _ _ _ _ _).
  unfold transferFrom. rewrite transferFrom_cases.
  destruct (Z.eqb_spec f2 0) as [Hf2|Hf2].
  { eexists. split; [reflexivity|]. congruence. }
  assert (owner_of st' id = t) as Hown
    by (unfold st'; rewrite owner_of_transferred; case_decide; congruence).
  rewrite Hown.
  destruct (Z.eqb_spec t f2) as [<-|Hne]; simpl.
  2:{ eexists. split; [reflexivity|]. congruence. }
  destruct (Z.eqb_spec t2 0) as [Ht2|Ht2].
  { eexists. split; [reflexivity|]. congruence. }
  assert (may_transfer env st' t id = false) as ->.
  { unfold may_transfer.
    assert (approval_of st' id = 0) as ->
      by (unfold st'; rewrite approval_of_transferred; case_decide; congruence).
    change (operator_of st' t (Xcert.msg_sender env))
      with (operator_of st t (Xcert.msg_sender env)).
    rewrite Hop.
    destruct (Z.eqb_spec t (Xcert.msg_sender env)); [congruence|].
    destruct (Z.eqb_spec 0 (Xcert.msg_sender env)); [congruence|].
    reflexivity. }
  simpl. eexists. split; reflexivity.
Qed.

(** *** Creation and destruction *)



Lemma create_return t id st st' :
  _create t id st = Return tt st' ->
  t <> 0 /\ owner_of st id = 0 /\ count_of st t + 1 < 2 ^ 256 /\
  st' = created st t id.
Proof.
  rewrite create_cases.
  destruct (Z.eqb_spec t 0); [discriminate|].
  destruct (Z.eqb_spec (owner_of st id) 0); simpl; [|discriminate].
  destruct (Z.ltb_spec (count_of st t + 1) (2 ^ 256)); [|discriminate].
  intros [= <-]. auto.
Qed.

Lemma destroy_existing id st :
  consistent st -> owner_of st id <> 0 ->
  _destroy id st = Return tt (destroyed st id).
Proof.
  intros Hc Ho. rewrite destroy_cases.
  destruct (Z.eqb_spec (owner_of st id) 0); [contradiction|].
  pose proof (count_pos st id _ Hc eq_refl Ho) as Hpos.
  apply Z.ltb_lt in Hpos. rewrite Hpos. reflexivity.
Qed.

Lemma transfer_of_missing_token env f t id st :
  owner_of st id = 0 ->
  exists reason, transferFrom env f t id st = Revert (Error reason) st.
Proof.
  intros Ho. unfold transferFrom. rewrite transferFrom_cases, Ho.
  destruct (Z.eqb_spec f 0); [eexists; reflexivity|].
  destruct (Z.eqb_spec 0 f); [congruence|].
  eexists; reflexivity.
Qed.

Lemma transferFrom_keeps env f t id' st st' id :
  _transferFrom env f t id' st = Return tt st' ->
  (owner_of st' id =? 0) = (owner_of st id =? 0)
  /\ uriPrefix st' = uriPrefix st /\ uriPostfix st' = uriPostfix st
  /\ name st' = name st /\ symbol st' = symbol st.
Proof.
  intros H. apply transferFrom_return in H as (Hf & Hown & Ht & _ & ->).
  split; [|repeat split; reflexivity].
  rewrite owner_of_transferred.
  destruct (decide (id' = id)) as [->|]; [|reflexivity].
  destruct (Z.eqb_spec t 0); [contradiction|].
  destruct (Z.eqb_spec (owner_of st id) 0); congruence.
Qed.

Section Run.

Variable isDeployedContract : Z -> bool.
Variable onERC721Received :
  Z -> Z -> Z -> Z -> list Byte.byte -> Result Z.

Abbreviation apply_op' := (apply_op isDeployedContract onERC721Received).
Abbreviation run_ops' := (run_ops isDeployedContract onERC721Received).
Abbreviation op_body' := (op_body isDeployedContract onERC721Received).

Lemma op_bounded op st st' :
  bounded st -> op_body' op st = Return tt st' -> bounded st'.
Proof.
  intros Hb. destruct op; simpl.
  - rewrite approve_cases. destruct (_ || _); [|discriminate].
    intros [= <-]. exact Hb.
  - rewrite setApprovalForAll_cases. intros [= <-]. exact Hb.
  - apply transferFrom_bounded, Hb.
  - unfold safeTransferFrom_data. rewrite safeTransferFrom_cases.
    destruct (accepts _ _ _ _ _ _ _); [|discriminate].
    apply transferFrom_bounded, Hb.
  - rewrite create_cases.
    destruct (_to =? 0); [discriminate|].
    destruct (owner_of st _tokenId =? 0); simpl; [|discriminate].
    destruct (_ + 1 <? 2 ^ 256) eqn:Hlt; [|discriminate].
    intros [= <-] a. apply Z.ltb_lt in Hlt.
    pose proof (Hb a). unfold count_of in *. simpl.
    rewrite lookup_default_insert. unfold count_of, owner_of in *.
    case_decide; subst; lia.
  - rewrite destroy_cases.
    destruct (owner_of st _tokenId =? 0); [discriminate|].
    destruct (0 <? _); simpl; [|discriminate].
    intros [= <-] a.
    pose proof (Hb a). pose proof (Hb (owner_of st _tokenId)).
    unfold count_of in *. simpl.
    rewrite lookup_default_insert. unfold count_of, owner_of in *.
    case_decide; subst; lia.
  - intros [= <-]. exact Hb.
Qed.

Lemma run_ops_bounded ops st : bounded st -> bounded (run_ops' ops st).
Proof.
  revert st. induction ops as [|op ops IH]; intros st Hb; [exact Hb|].
  simpl. apply IH. apply apply_op_preserves; [exact Hb|].
  intros st'. apply op_bounded, Hb.
Qed.

Lemma deployed_bounded n s p q : bounded (deployed n s p q).
Proof. intros a. reflexivity. Qed.

(** *** The balance of an address *)

(** In every state the contract reaches from its deployment, by whatever
    calls, [balanceOf] answers the number of tokens the address owns, and
    the tokens an address owns are those [ownerOf] reports for it. *)
Theorem balanceOf_counts_tokens ops n s p q a :
  balanceOf a (run_ops' ops (deployed n s p q)) =
    (if a =? 0 then Fail (Error ZERO_ADDRESS)
     else Ok (Z.of_nat (size (tokens_of (run_ops' ops (deployed n s p q)) a))))
  /\ forall id,
       ownerOf id (run_ops' ops (deployed n s p q)) = Ok a <->
       tokens_of (run_ops' ops (deployed n s p q)) a !! id = Some a.
Proof.
  pose proof (run_ops_consistent isDeployedContract onERC721Received ops _
                (deployed_consistent n s p q)) as Hc.
  set (st := run_ops' ops (deployed n s p q)) in *.
  destruct Hc as [Hz Hcount]. split.
  - unfold balanceOf. destruct (a =? 0); [reflexivity|].
    rewrite Hcount. reflexivity.
  - intros id. unfold ownerOf, tokens_of. split.
    + destruct (owner_of st id =? 0) eqn:Ho; [discriminate|].
      intros [= E]. apply Z.eqb_neq in Ho.
      apply map_lookup_filter_Some. split; [|reflexivity].
      apply owner_lookup; congruence.
    + intros Hin. apply map_lookup_filter_Some in Hin as [Hin _].
      unfold owner_of. rewrite Hin. simpl.
      destruct (a =? 0) eqn:Ha; [|reflexivity].
      apply Z.eqb_eq in Ha. subst. exfalso. exact (Hz id Hin).
Qed.

(** *** When a transfer succeeds *)

(** In every state the contract reaches, [transferFrom] succeeds exactly
    when [_from] is not zero and owns the token, [_to] is not zero, the
    sender is the owner, the approved address or an operator of the
    owner, and the receiver's count can grow; in particular the
    [assert] on the owner's count never fails. *)
Theorem transferFrom_succeeds_iff ops n s p q env f t id :
  ((exists st',
      transferFrom env f t id (run_ops' ops (deployed n s p q)) =
        Return tt st') <->
   f <> 0 /\ owner_of (run_ops' ops (deployed n s p q)) id = f /\ t <> 0 /\
   (Xcert.msg_sender env = f
    \/ approval_of (run_ops' ops (deployed n s p q)) id = Xcert.msg_sender env
    \/ operator_of (run_ops' ops (deployed n s p q)) f (Xcert.msg_sender env)
       = true) /\
   (f = t \/ count_of (run_ops' ops (deployed n s p q)) t < 2 ^ 256 - 1))
  /\ forall st',
       transferFrom env f t id (run_ops' ops (deployed n s p q)) <>
         Revert (Panic 1) st'.
Proof.
  apply transferFrom_iff.
  - apply run_ops_consistent, deployed_consistent.
  - apply run_ops_bounded, deployed_bounded.
Qed.

(** *** A new token *)

(** When no call so far was sent by the zero address, a token created in
    a state the contract reaches belongs to [_to], has no approved
    address, and raises the balance of [_to] by one; a sender that is
    neither [_to] nor an operator of [_to] cannot transfer it. *)
Theorem created_token_is_unapproved ops n s p q t id st' :
  real_senders ops ->
  _create t id (run_ops' ops (deployed n s p q)) = Return tt st' ->
  ownerOf id st' = Ok t /\ getApproved id st' = Ok 0 /\
  balanceOf t st' = Ok (count_of (run_ops' ops (deployed n s p q)) t + 1) /\
  forall env f t2,
    Xcert.msg_sender env <> 0 -> Xcert.msg_sender env <> t ->
    operator_of st' t (Xcert.msg_sender env) = false ->
    exists reason, transferFrom env f t2 id st' = Revert (Error reason) st'.
Proof.
  intros Hs H.
  pose proof (run_ops_clean isDeployedContract onERC721Received ops _ Hs
                (deployed_clean n s p q)) as [Hclean _].
  set (st := run_ops' ops (deployed n s p q)) in *.
  apply create_return in H as (Ht & Ho & Hlt & ->).
  assert (owner_of (created st t id) id = t) as Hown.
  { unfold owner_of. simpl. rewrite lookup_default_insert.
    case_decide; congruence. }
  assert (approval_of (created st t id) id = 0) as Happ by apply Hclean, Ho.
  split; [|split; [|split]].
  - unfold ownerOf. rewrite Hown.
    destruct (Z.eqb_spec t 0); [contradiction|reflexivity].
  - unfold getApproved. rewrite Hown, Happ.
    destruct (Z.eqb_spec t 0); [contradiction|reflexivity].
  - unfold balanceOf. destruct (Z.eqb_spec t 0); [contradiction|].
    unfold count_of at 1. simpl. rewrite lookup_default_insert.
    case_decide; congruence.
  - intros env f t2 Hs0 Hst Hop. unfold transferFrom.
    rewrite transferFrom_cases, Hown.
    destruct (Z.eqb_spec f 0); [eexists; reflexivity|].
    destruct (Z.eqb_spec t f) as [<-|]; simpl; [|eexists; reflexivity].
    destruct (Z.eqb_spec t2 0); [eexists; reflexivity|].
    unfold may_transfer. rewrite Happ, Hop.
    destruct (Z.eqb_spec t (Xcert.msg_sender env)); [congruence|].
    destruct (Z.eqb_spec 0 (Xcert.msg_sender env)); [congruence|].
    eexists; reflexivity.
Qed.

(** *** Destruction *)

(** In every state the contract reaches, [_destroy] fails for a token
    that does not exist and succeeds for one that does; afterwards the
    token has no owner, no approved address and no URI, its former
    owner's balance is one less, every other token is as it was, and
    nobody can transfer the destroyed token. *)
Theorem destroy_removes_token ops n s p q id :
  (owner_of (run_ops' ops (deployed n s p q)) id = 0 ->
   _destroy id (run_ops' ops (deployed n s p q)) =
     Revert (Error NOT_VALID_NFT) (run_ops' ops (deployed n s p q)))
  /\
  (owner_of (run_ops' ops (deployed n s p q)) id <> 0 ->
   exists st',
     _destroy id (run_ops' ops (deployed n s p q)) = Return tt st' /\
     ownerOf id st' = Fail (Error NOT_VALID_NFT) /\
     getApproved id st' = Fail (Error NOT_VALID_NFT) /\
     tokenURI id st' = Fail (Error NOT_VALID_NFT) /\
     balanceOf (owner_of (run_ops' ops (deployed n s p q)) id) st' =
       Ok (count_of (run_ops' ops (deployed n s p q))
             (owner_of (run_ops' ops (deployed n s p q)) id) - 1) /\
     (forall id', id' <> id ->
        owner_of st' id' = owner_of (run_ops' ops (deployed n s p q)) id' /\
        approval_of st' id' =
          approval_of (run_ops' ops (deployed n s p q)) id') /\
     forall env f t,
       exists reason, transferFrom env f t id st' = Revert (Error reason) st').
Proof.
  pose proof (run_ops_consistent isDeployedContract onERC721Received ops _
                (deployed_consistent n s p q)) as Hc.
  set (st := run_ops' ops (deployed n s p q)) in *.
  split.
  - intros Ho. rewrite destroy_cases, Ho. reflexivity.
  - intros Ho. exists (destroyed st id).
    split; [apply destroy_existing; assumption|].
    assert (owner_of (destroyed st id) id = 0) as Hgone.
    { unfold owner_of at 1. simpl. rewrite lookup_default_delete.
      case_decide; congruence. }
    split; [unfold ownerOf; rewrite Hgone; reflexivity|].
    split; [unfold getApproved; rewrite Hgone; reflexivity|].
    split; [unfold tokenURI; rewrite Hgone; reflexivity|].
    split.
    { unfold balanceOf.
      destruct (Z.eqb_spec (owner_of st id) 0); [contradiction|].
      unfold count_of at 1. simpl. rewrite lookup_default_insert.
      case_decide; congruence. }
    split.
    { intros id' Hid. unfold owner_of at 1, approval_of at 1. simpl.
      rewrite !lookup_default_delete. case_decide; [congruence|auto]. }
    intros env f t. apply transfer_of_missing_token, Hgone.
Qed.

(** In every state the contract reaches, a token that was just created
    can be destroyed, and the two calls together leave every owner,
    balance and operator as before, leave the token without approved
    address, and log the two transfers. *)
Theorem create_then_destroy ops n s p q t id st1 :
  _create t id (run_ops' ops (deployed n s p q)) = Return tt st1 ->
  exists st2,
    _destroy id st1 = Return tt st2 /\
    (forall id', owner_of st2 id' =
                   owner_of (run_ops' ops (deployed n s p q)) id') /\
    (forall a, count_of st2 a =
                 count_of (run_ops' ops (deployed n s p q)) a) /\
    (forall id', id' <> id ->
       approval_of st2 id' =
         approval_of (run_ops' ops (deployed n s p q)) id') /\
    approval_of st2 id = 0 /\
    (forall a o, operator_of st2 a o =
                   operator_of (run_ops' ops (deployed n s p q)) a o) /\
    logs st2 =
      logs (run_ops' ops (deployed n s p q))
        ++ [Transfer 0 t id; Transfer t 0 id].
Proof.
  pose proof (run_ops_consistent isDeployedContract onERC721Received ops _
                (deployed_consistent n s p q)) as Hc.
  set (st := run_ops' ops (deployed n s p q)) in *.
  intros H.
  pose proof (create_consistent t id st st1 Hc H) as Hc1.
  apply create_return in H as (Ht & Ho & Hlt & ->).
  assert (owner_of (created st t id) id = t) as Hown.
  { unfold owner_of. simpl. rewrite lookup_default_insert.
    case_decide; congruence. }
  exists (destroyed (created st t id) id).
  split; [apply destroy_existing; [exact Hc1|congruence]|].
  split.
  { intros id'. unfold owner_of at 1. simpl.
    rewrite lookup_default_delete, lookup_default_insert.
    fold (owner_of st id'). case_decide; congruence. }
  split.
  { intros a. unfold count_of at 1. simpl. rewrite Hown.
    rewrite !lookup_default_insert. fold (count_of st a).
    case_decide; [|reflexivity]. subst a.
    unfold count_of at 1. simpl. rewrite lookup_default_insert.
    case_decide; [lia|congruence]. }
  split.
  { intros id' Hid. unfold approval_of at 1. simpl.
    rewrite lookup_default_delete. case_decide; [congruence|reflexivity]. }
  split.
  { unfold approval_of at 1. simpl. rewrite lookup_default_delete.
    case_decide; congruence. }
  split; [reflexivity|].
  simpl. rewrite Hown, <- app_assoc. reflexivity.
Qed.

(** *** Operators and approved addresses *)

(** In every state the contract reaches: after the owner of a token calls
    [setApprovalForAll] for an address that is neither the owner nor the
    token's approved address, that address can transfer the token
    exactly when the flag given was [true]. *)
Theorem operator_can_transfer ops n s p q env env' b t id :
  owner_of (run_ops' ops (deployed n s p q)) id = Xcert.msg_sender env ->
  Xcert.msg_sender env <> 0 ->
  Xcert.msg_sender env' <> Xcert.msg_sender env ->
  approval_of (run_ops' ops (deployed n s p q)) id <> Xcert.msg_sender env' ->
  t <> 0 ->
  (Xcert.msg_sender env = t
   \/ count_of (run_ops' ops (deployed n s p q)) t < 2 ^ 256 - 1) ->
  (exists st',
     transferFrom env' (Xcert.msg_sender env) t id
       (apply_op' (run_ops' ops (deployed n s p q))
          (op_setApprovalForAll env (Xcert.msg_sender env') b))
     = Return tt st')
  <-> b = true.
Proof.
  intros Ho Hs Hne Happ Ht Hcount.
  pose proof (run_ops_consistent isDeployedContract onERC721Received ops _
                (deployed_consistent n s p q)) as Hc.
  pose proof (run_ops_bounded ops _ (deployed_bounded n s p q)) as Hb.
  set (st := run_ops' ops (deployed n s p q)) in *.
  set (op := op_setApprovalForAll env (Xcert.msg_sender env') b).
  assert (consistent (apply_op' st op)) as Hc1.
  { apply apply_op_preserves; [exact Hc|].
    intros st'. apply op_consistent, Hc. }
  assert (bounded (apply_op' st op)) as Hb1.
  { apply apply_op_preserves; [exact Hb|].
    intros st'. apply op_bounded, Hb. }
  destruct (transferFrom_iff env' (Xcert.msg_sender env) t id _ Hc1 Hb1)
    as [Hiff _].
  rewrite Hiff.
  assert (operator_of (apply_op' st op) (Xcert.msg_sender env)
            (Xcert.msg_sender env') = b) as Hop.
  { unfold operator_of. simpl. rewrite lookup_default_insert.
    case_decide; congruence. }
  change (owner_of (apply_op' st op) id) with (owner_of st id).
  change (approval_of (apply_op' st op) id) with (approval_of st id).
  change (count_of (apply_op' st op) t) with (count_of st t).
  rewrite Hop. split.
  - intros (_ & _ & _ & [E|[E|E]] & _); congruence.
  - intros ->. auto 10.
Qed.

(** In every state the contract reaches: after the owner of a token, or
    an operator of the owner, approves an address for it, that address
    can transfer the token; the transfer gives the token to [_to] and
    leaves it without approved address. *)
Theorem approved_can_transfer ops n s p q env env' t id :
  owner_of (run_ops' ops (deployed n s p q)) id <> 0 ->
  (Xcert.msg_sender env = owner_of (run_ops' ops (deployed n s p q)) id
   \/ operator_of (run_ops' ops (deployed n s p q))
        (owner_of (run_ops' ops (deployed n s p q)) id)
        (Xcert.msg_sender env) = true) ->
  t <> 0 ->
  (owner_of (run_ops' ops (deployed n s p q)) id = t
   \/ count_of (run_ops' ops (deployed n s p q)) t < 2 ^ 256 - 1) ->
  exists st',
    transferFrom env' (owner_of (run_ops' ops (deployed n s p q)) id) t id
      (apply_op' (run_ops' ops (deployed n s p q))
         (op_approve env (Xcert.msg_sender env') id))
    = Return tt st'
    /\ ownerOf id st' = Ok t /\ getApproved id st' = Ok 0.
Proof.
  intros Ho Hauth Ht Hcount.
  pose proof (run_ops_consistent isDeployedContract onERC721Received ops _
                (deployed_consistent n s p q)) as Hc.
  pose proof (run_ops_bounded ops _ (deployed_bounded n s p q)) as Hb.
  set (st := run_ops' ops (deployed n s p q)) in *.
  set (op := op_approve env (Xcert.msg_sender env') id).
  assert (consistent (apply_op' st op)) as Hc1.
  { apply apply_op_preserves; [exact Hc|].
    intros st'. apply op_consistent, Hc. }
  assert (bounded (apply_op' st op)) as Hb1.
  { apply apply_op_preserves; [exact Hb|].
    intros st'. apply op_bounded, Hb. }
  assert (owner_of (apply_op' st op) id = owner_of st id
          /\ approval_of (apply_op' st op) id = Xcert.msg_sender env'
          /\ count_of (apply_op' st op) t = count_of st t) as (Ho1 & Ha1 & Hn1).
  { unfold apply_op, transact, op, op_body. rewrite approve_cases.
    assert ((owner_of st id =? Xcert.msg_sender env)
            || operator_of st (owner_of st id) (Xcert.msg_sender env) = true)
      as ->.
    { apply orb_true_iff. destruct Hauth as [E|E]; [left|right; exact E].
      apply Z.eqb_eq. congruence. }
    simpl. split; [reflexivity|]. split; [|reflexivity].
    unfold approval_of. simpl. rewrite lookup_default_insert.
    case_decide; congruence. }
  destruct (transferFrom_iff env' (owner_of st id) t id _ Hc1 Hb1)
    as [Hiff _].
  destruct Hiff as [_ Hiff].
  destruct Hiff as [st' Hst'].
  { rewrite Ho1, Ha1, Hn1. auto 10. }
  exists st'. split; [exact Hst'|].
  apply transferFrom_return in Hst' as (_ & _ & _ & _ & ->).
  unfold ownerOf, getApproved.
  rewrite owner_of_transferred, approval_of_transferred.
  case_decide; [|congruence].
  destruct (Z.eqb_spec t 0); [contradiction|]. split; reflexivity.
Qed.

(** *** What a stranger cannot do *)

(** No external call that runs no receiver hook ([approve],
    [setApprovalForAll], [transferFrom], and [safeTransferFrom] to a
    receiver that is not a deployed contract), sent by an address that is
    not the owner of a token, not its approved address and not an
    operator of its owner, changes the owner or the approved address of
    that token. *)
Theorem stranger_moves_nothing op sender st id :
  op_sender op = Some sender ->
  calls_receiver isDeployedContract op = false ->
  owner_of st id <> sender -> approval_of st id <> sender ->
  operator_of st (owner_of st id) sender = false ->
  owner_of (apply_op' st op) id = owner_of st id /\
  approval_of (apply_op' st op) id = approval_of st id.
Proof.
  intros Hs Hhook Ho Ha Hop. unfold apply_op, transact.
  destruct (op_body' op st) as [[] st'|e st'] eqn:E; simpl; [|auto].
  destruct op; simpl in Hs, Hhook, E; try discriminate; injection Hs as Hs.
  - rewrite approve_cases in E.
    destruct (_ || _) eqn:Hauth; [|discriminate].
    injection E as <-. split; [reflexivity|].
    unfold approval_of at 1. simpl. rewrite lookup_default_insert.
    case_decide; [|reflexivity]. subst _tokenId.
    rewrite Hs, Hop, orb_false_r in Hauth. apply Z.eqb_eq in Hauth.
    contradiction.
  - rewrite setApprovalForAll_cases in E. injection E as <-.
    split; reflexivity.
  - apply transferFrom_return in E as (_ & Hown & _ & Hm & ->).
    rewrite owner_of_transferred, approval_of_transferred.
    case_decide; [|auto]. subst _tokenId.
    apply may_transfer_true in Hm. rewrite Hs in Hm.
    destruct Hm as [Hm|[Hm|Hm]]; congruence.
  - unfold safeTransferFrom_data, _safeTransferFrom in E.
    rewrite Hhook in E. unfold_evm.
    apply transferFrom_return in E as (_ & Hown & _ & Hm & ->).
    rewrite owner_of_transferred, approval_of_transferred.
    case_decide; [|auto]. subst _tokenId.
    apply may_transfer_true in Hm. rewrite Hs in Hm.
    destruct Hm as [Hm|[Hm|Hm]]; congruence.
Qed.

(** External calls neither create nor destroy a token, and leave the URI
    of every token as it was. *)
Theorem external_calls_keep_tokens op sender st id :
  op_sender op = Some sender ->
  (ownerOf id (apply_op' st op) = Fail (Error NOT_VALID_NFT) <->
   ownerOf id st = Fail (Error NOT_VALID_NFT)) /\
  tokenURI id (apply_op' st op) = tokenURI id st.
Proof.
  intros Hs.
  assert ((owner_of (apply_op' st op) id =? 0) = (owner_of st id =? 0)
          /\ uriPrefix (apply_op' st op) = uriPrefix st
          /\ uriPostfix (apply_op' st op) = uriPostfix st) as (Hz & Hp & Hq).
  { unfold apply_op, transact.
    destruct (op_body' op st) as [[] st'|e st'] eqn:E; simpl; [|auto].
    assert (forall env f t id', _transferFrom env f t id' st = Return tt st' ->
              (owner_of st' id =? 0) = (owner_of st id =? 0)
              /\ uriPrefix st' = uriPrefix st
              /\ uriPostfix st' = uriPostfix st) as Htransfer.
    { intros env f t id' H.
      apply (transferFrom_keeps _ _ _ _ _ _ id) in H. tauto. }
    destruct op; simpl in Hs, E; try discriminate.
    - rewrite approve_cases in E. destruct (_ || _); [|discriminate].
      injection E as <-. auto.
    - rewrite setApprovalForAll_cases in E. injection E as <-. auto.
    - eapply Htransfer, E.
    - unfold safeTransferFrom_data in E. rewrite safeTransferFrom_cases in E.
      destruct (accepts _ _ _ _ _ _ _); [|discriminate].
      eapply Htransfer, E. }
  split.
  - unfold ownerOf. rewrite Hz.
    destruct (owner_of st id =? 0) eqn:E1; [tauto|].
    split; discriminate.
  - unfold tokenURI. rewrite Hz, Hp, Hq. reflexivity.
Qed.

(** The name and the symbol of the contract are those of its deployment,
    whatever calls were made. *)
Theorem name_and_symbol_are_fixed ops n s p q :
  name (run_ops' ops (deployed n s p q)) = n /\
  symbol (run_ops' ops (deployed n s p q)) = s.
Proof.
  assert (forall st, name (run_ops' ops st) = name st
                     /\ symbol (run_ops' ops st) = symbol st) as H.
  { induction ops as [|op ops IH]; intros st; [auto|].
    simpl. destruct (IH (apply_op' st op)) as [-> ->].
    apply (apply_op_preserves isDeployedContract onERC721Received
             (fun st' => name st' = name st /\ symbol st' = symbol st));
      [auto|].
    intros st' E.
    assert (forall env f t id, _transferFrom env f t id st = Return tt st' ->
              name st' = name st /\ symbol st' = symbol st) as Htransfer.
    { intros env f t id H.
      apply (transferFrom_keeps _ _ _ _ _ _ 0) in H. tauto. }
    destruct op; simpl in E.
    - rewrite approve_cases in E. destruct (_ || _); [|discriminate].
      injection E as <-. auto.
    - rewrite setApprovalForAll_cases in E. injection E as <-. auto.
    - eapply Htransfer, E.
    - unfold safeTransferFrom_data in E. rewrite safeTransferFrom_cases in E.
      destruct (accepts _ _ _ _ _ _ _); [|discriminate].
      eapply Htransfer, E.
    - apply create_return in E as (_ & _ & _ & ->). auto.
    - rewrite destroy_cases in E.
      destruct (owner_of st _tokenId =? 0); [discriminate|].
      destruct (0 <? _); simpl in E; [|discriminate].
      injection E as <-. auto.
    - injection E as <-. auto. }
  apply H.
Qed.

End Run.

End NFTokenTheorems.

(** ** The life of a claim, transaction by transaction *)

Module ClaimLifeFacts.
Import Abi Xcert XcertFacts AbiFacts ClaimCodec ClaimFacts ClaimLife.

Section Life.

Variable keccak256 : list Byte.byte -> Z.
Variable ecrecover : Z -> Z -> Z -> Z -> Z.
Variable World : Type.
Variable ERC20_transferFrom : Z -> Z -> Z -> Z -> Z -> World -> World + string.

Abbreviation perform :=
  (setApprovalForAllWithSignature keccak256 ecrecover World ERC20_transferFrom).
Abbreviation cancel := (cancelSetApprovalForAllWithSignature keccak256 World).
Abbreviation digest := (generateClaim keccak256).
Abbreviation valid := (isValidSignature keccak256 ecrecover).
Abbreviation apply := (apply_tx keccak256 ecrecover World ERC20_transferFrom).
Abbreviation run_all := (run keccak256 ecrecover World ERC20_transferFrom).
Abbreviation claim_of_tx := (tx_claim keccak256).


(** What one transaction does to the two flags of a digest. *)
Lemma apply_flags (st : State World) tx d :
  (is_performed (apply st tx) d = is_performed st d
   /\ is_cancelled (apply st tx) d = is_cancelled st d)
  \/ (d = claim_of_tx tx /\ is_cancelled st d = false
      /\ is_performed st d = false
      /\ is_performed (apply st tx) d = true
      /\ is_cancelled (apply st tx) d = false)
  \/ (d = claim_of_tx tx /\ is_performed st d = false
      /\ is_performed (apply st tx) d = false
      /\ is_cancelled (apply st tx) d = true).
Proof.
  unfold apply_tx, transact.
  destruct tx as [env o op a ft fv fr sd ex sg|env o op a ft fv fr sd ex];
    unfold tx_body, tx_claim.
  - rewrite perform_cases. cbv zeta.
    set (claim := digest env o op a ft fv fr sd ex).
    destruct (is_cancelled st claim) eqn:Hc; [auto|].
    destruct (valid o claim sg) as [[|]|r]; auto.
    destruct (is_performed st claim) eqn:Hp; [auto|].
    destruct (ex <? block_timestamp env); [auto|].
    unfold effects. destruct (ERC20_transferFrom _ _ _ _ _ _); [|auto].
    simpl. rewrite is_performed_insert.
    destruct (decide (claim = d)) as [<-|Hne]; [|auto].
    right. left. auto 10.
  - rewrite cancel_cases. cbv zeta.
    set (claim := digest env o op a ft fv fr sd ex).
    destruct (negb _); [auto|].
    destruct (is_performed st claim) eqn:Hp; [auto|].
    simpl. rewrite is_cancelled_insert.
    destruct (decide (claim = d)) as [<-|Hne]; [|auto].
    right. right. auto 10.
Qed.

(** A redemption succeeds exactly when the claim is not cancelled, the
    signature is the owner's, the claim is not performed, it has not
    expired, and the call of the fee token's [transferFrom] (from the
    owner, to the fee recipient or, when that is the zero address, to
    the sender, of the fee value) returns.  After a redemption that
    succeeded the claim is performed and not cancelled, and the last
    event logged is the [ApprovalForAll] of the claim. *)
Theorem redemption_succeeds_iff env o op a ft fv fr sd ex sg
  (st : State World) :
  ((exists st1,
      transact (perform env o op a ft fv fr sd ex sg) st = (st1, None)) <->
   is_cancelled st (digest env o op a ft fv fr sd ex) = false /\
   valid o (digest env o op a ft fv fr sd ex) sg = Value true /\
   is_performed st (digest env o op a ft fv fr sd ex) = false /\
   block_timestamp env <= ex /\
   exists w,
     ERC20_transferFrom ft (this env) o
       (if fr =? 0 then msg_sender env else fr) fv (world st) = inl w)
  /\
  forall st1,
    transact (perform env o op a ft fv fr sd ex sg) st = (st1, None) ->
    is_performed st1 (digest env o op a ft fv fr sd ex) = true /\
    is_cancelled st1 (digest env o op a ft fv fr sd ex) = false /\
    exists before, logs st1 = before ++ [ApprovalForAll o op a].
Proof.
  unfold transact. rewrite perform_cases. cbv zeta.
  set (claim := digest env o op a ft fv fr sd ex).
  destruct (is_cancelled st claim) eqn:Hc.
  { split; [|discriminate]. split; [intros [? [=]]|].
    intros (E & _). discriminate. }
  destruct (valid o claim sg) as [[|]|r].
  2,3: (split; [|discriminate]; split; [intros [? [=]]|];
        intros (_ & E & _); discriminate).
  destruct (is_performed st claim).
  { split; [|discriminate]. split; [intros [? [=]]|].
    intros (_ & _ & E & _). discriminate. }
  destruct (Z.ltb_spec ex (block_timestamp env)) as [Hex|Hex].
  { split; [|discriminate]. split; [intros [? [=]]|].
    intros (_ & _ & _ & E & _). lia. }
  unfold effects.
  destruct (ERC20_transferFrom _ _ _ _ _ _) as [w|reason].
  - simpl. split.
    + split.
      * intros _. repeat (split; [reflexivity || assumption|]).
        exists w. reflexivity.
      * intros _. eexists. reflexivity.
    + intros st1 [= <-]. split.
      * rewrite is_performed_insert. case_decide; congruence.
      * split; [exact Hc|]. exists (logs st). reflexivity.
  - split; [|discriminate]. split; [intros [? [=]]|].
    intros (_ & _ & _ & _ & w' & E). discriminate.
Qed.

(** When the four checks pass and the transfer of the fee reverts, the
    redemption reverts with the reason of the transfer: the claim is not
    marked performed and the operator is not set, although both were
    written before the transfer was called. *)
Theorem failed_fee_transfer_changes_nothing env o op a ft fv fr sd ex sg
  (st : State World) reason :
  is_cancelled st (digest env o op a ft fv fr sd ex) = false ->
  valid o (digest env o op a ft fv fr sd ex) sg = Value true ->
  is_performed st (digest env o op a ft fv fr sd ex) = false ->
  block_timestamp env <= ex ->
  ERC20_transferFrom ft (this env) o
    (if fr =? 0 then msg_sender env else fr) fv (world st) = inr reason ->
  (exists written,
     perform env o op a ft fv fr sd ex sg st = Revert reason written /\
     is_performed written (digest env o op a ft fv fr sd ex) = true /\
     ownerToOperators written !! (o, op) = Some a) /\
  transact (perform env o op a ft fv fr sd ex sg) st = (st, Some reason).
Proof.
  intros Hc Hv Hp Hex Hfee. unfold transact. rewrite perform_cases. cbv zeta.
  rewrite Hc, Hv, Hp.
  destruct (Z.ltb_spec ex (block_timestamp env)); [lia|].
  unfold effects. rewrite Hfee. split; [|reflexivity].
  eexists. split; [reflexivity|]. split.
  - rewrite is_performed_insert. case_decide; congruence.
  - simpl. apply lookup_insert_eq.
Qed.

(** No claim is ever both performed and cancelled: the property holds
    after every sequence of transactions on claims when it held before
    it; and the two flags are never cleared. *)
Theorem performed_and_cancelled_exclude txs (st : State World) d :
  is_performed st d && is_cancelled st d = false ->
  is_performed (run_all txs st) d && is_cancelled (run_all txs st) d = false
  /\ (is_performed st d = true -> is_performed (run_all txs st) d = true)
  /\ (is_cancelled st d = true -> is_cancelled (run_all txs st) d = true).
Proof.
  revert st. induction txs as [|tx txs IH]; intros st Hex; [auto|].
  simpl.
  assert (is_performed (apply st tx) d && is_cancelled (apply st tx) d = false
          /\ (is_performed st d = true -> is_performed (apply st tx) d = true)
          /\ (is_cancelled st d = true -> is_cancelled (apply st tx) d = true))
    as (Hex1 & Hp1 & Hc1).
  { destruct (apply_flags st tx d)
      as [[-> ->]|[(_ & Hc & Hp & -> & ->)|(_ & Hp & -> & ->)]];
      [auto| |]; rewrite ?Hp, ?Hc; repeat split; auto; discriminate. }
  destruct (IH _ Hex1) as (Hex2 & Hp2 & Hc2). auto.
Qed.

(** A cancellation, whether it succeeds or is rejected, leaves the two
    flags of every digest other than that of its own claim, the
    operators and the log as they were; the function calls no other
    contract. *)
Theorem other_claims_untouched (st : State World) env o op a ft fv fr sd ex d :
  d <> digest env o op a ft fv fr sd ex ->
  is_performed
    (apply st (tx_cancelSetApprovalForAllWithSignature env o op a ft fv fr
                 sd ex)) d = is_performed st d /\
  is_cancelled
    (apply st (tx_cancelSetApprovalForAllWithSignature env o op a ft fv fr
                 sd ex)) d = is_cancelled st d /\
  ownerToOperators
    (apply st (tx_cancelSetApprovalForAllWithSignature env o op a ft fv fr
                 sd ex)) = ownerToOperators st /\
  logs
    (apply st (tx_cancelSetApprovalForAllWithSignature env o op a ft fv fr
                 sd ex)) = logs st.
Proof.
  intros Hne. unfold apply_tx, transact, tx_body.
  rewrite cancel_cases. cbv zeta.
  destruct (negb _); [auto|].
  destruct (is_performed st _); [auto|].
  simpl. split; [reflexivity|]. split; [|auto].
  rewrite is_cancelled_insert. case_decide; [congruence|reflexivity].
Qed.

(** Two calls of [generateClaim] whose arguments are values of their
    types give the same digest only if they are made on the same
    contract with the same arguments, or the hash function collides on
    their packed encodings, which are different byte strings of 197
    bytes. *)
Theorem equal_digests env o op a ft fv fr sd ex env' o' op' a' ft' fv' fr' sd' ex' :
  well_formed (claim_of_call env o op a ft fv fr sd ex) ->
  well_formed (claim_of_call env' o' op' a' ft' fv' fr' sd' ex') ->
  digest env o op a ft fv fr sd ex = digest env' o' op' a' ft' fv' fr' sd' ex' ->
  (this env = this env' /\ o = o' /\ op = op' /\ a = a' /\ ft = ft' /\
   fv = fv' /\ fr = fr' /\ sd = sd' /\ ex = ex')
  \/ exists p p',
       p <> p' /\ length p = 197%nat /\ length p' = 197%nat /\
       keccak256 p = keccak256 p' /\
       digest env o op a ft fv fr sd ex = keccak256 p /\
       digest env' o' op' a' ft' fv' fr' sd' ex' = keccak256 p'.
Proof.
  intros Hw Hw' E.
  set (c := claim_of_call env o op a ft fv fr sd ex) in *.
  set (c' := claim_of_call env' o' op' a' ft' fv' fr' sd' ex') in *.
  destruct (List.list_eq_dec Byte.byte_eq_dec (encodePacked (field_order c))
              (encodePacked (field_order c'))) as [Heq|Hne].
  - left. apply claim_preimage_injective in Heq; [|assumption|assumption].
    unfold c, c', claim_of_call in Heq. injection Heq. auto 10.
  - right. exists (encodePacked (field_order c)),
                  (encodePacked (field_order c')).
    split; [exact Hne|].
    split; [rewrite claim_preimage, !length_app, !length_be_bytes; reflexivity|].
    split; [rewrite claim_preimage, !length_app, !length_be_bytes; reflexivity|].
    split; [exact E|]. split; reflexivity.
Qed.

End Life.

End ClaimLifeFacts.

(** ** The bitfield of a list of abilities, whatever its order *)

Module BitfieldFacts.
Import AssetLedger.

Lemma bitAbilities_from abilities acc :
  fold_left (fun bitAbilities ability => bitAbilities + ability_value ability)
    abilities acc = acc + bitAbilities_of abilities.
Proof.
  unfold bitAbilities_of. revert acc.
  induction abilities as [|a abilities IH]; intros acc; cbn [fold_left];
    [lia|].
  rewrite (IH (acc + ability_value a)), (IH (0 + ability_value a)). lia.
Qed.

Lemma bitAbilities_cons a abilities :
  bitAbilities_of (a :: abilities) = ability_value a + bitAbilities_of abilities.
Proof. unfold bitAbilities_of at 1. simpl. apply bitAbilities_from. Qed.

Lemma bitAbilities_perm l l' :
  l ≡ₚ l' -> bitAbilities_of l = bitAbilities_of l'.
Proof.
  induction 1 as [|a l l' _ IH|a b l|l l' l'' _ IH1 _ IH2].
  - reflexivity.
  - rewrite !bitAbilities_cons, IH. reflexivity.
  - rewrite !bitAbilities_cons. lia.
  - congruence.
Qed.

Lemma includes_perm l l' a : l ≡ₚ l' -> includes l a = includes l' a.
Proof.
  intros Hp. rewrite !AssetLedgerFacts.includes_elem_of.
  apply bool_decide_ext. rewrite Hp. reflexivity.
Qed.

(** The number computed for a list of abilities does not depend on the
    order in which they are listed: two lists that are permutations of
    each other give the same string of [getBitfieldFromAbilities], and
    [grantAbilities] and [revokeAbilities] send the same mutation for
    them; and for any two lists the number of their concatenation is the
    sum of their numbers. *)
Theorem bitfield_order_independent l l' :
  (l ≡ₚ l' ->
   getBitfieldFromAbilities l = getBitfieldFromAbilities l' /\
   (forall self accountId,
      grantAbilities self accountId l = grantAbilities self accountId l') /\
   (forall self accountId,
      revokeAbilities self accountId l = revokeAbilities self accountId l'))
  /\
  bitAbilities_of (l ++ l') = bitAbilities_of l + bitAbilities_of l' /\
  getBitfieldFromAbilities (l ++ l') =
    toHexString (bitAbilities_of l + bitAbilities_of l').
Proof.
  assert (bitAbilities_of (l ++ l') = bitAbilities_of l + bitAbilities_of l')
    as Happ.
  { unfold bitAbilities_of at 1. rewrite fold_left_app.
    apply bitAbilities_from. }
  split.
  - intros Hp. pose proof (bitAbilities_perm l l' Hp) as E.
    split; [unfold getBitfieldFromAbilities; rewrite E; reflexivity|].
    split; [intros; unfold grantAbilities; rewrite E; reflexivity|].
    intros. unfold revokeAbilities.
    rewrite E, (includes_perm l l' _ Hp). reflexivity.
  - split; [exact Happ|].
    unfold getBitfieldFromAbilities. rewrite Happ. reflexivity.
Qed.

End BitfieldFacts.

(** ** The properties above at work on the instances *)

Module LedgerScenarios.
Import Abi Evm NFToken Decimal NFTokenLife NFTokenSample.

(** Discharges the first premise of [T] by evaluation. *)
Ltac premise T tac :=
  match type of T with
  | ?A -> _ =>
      let H := fresh "H" in
      assert A as H by tac; specialize (T H); clear H
  end.

Abbreviation run_sample := (run_ops isDeployedContract onERC721Received).
Abbreviation apply_sample := (apply_op isDeployedContract onERC721Received).

(** The number 2021 is written with digits that read back as 2021. *)
Lemma uint2str_decimal_witness :
  0 <= 2021 < 2 ^ 256 /\
  exists s, _uint2str 2021 = Ok s /\ value (list_byte_of_string s) = 2021.
Proof.
  assert (0 <= 2021 < 2 ^ 256) as H by (split; [lia|reflexivity]).
  split; [exact H|].
  destruct (NFTokenUriFacts.uint2str_decimal 2021 H) as (s & E & _ & V & _).
  exists s. split; [exact E|exact V].
Defined.

(** The URI of the token 1 is the prefix, the digits of 1 and the
    postfix. *)
Lemma tokenURI_of_tokens_witness :
  0 <= 1 < 2 ^ 256 /\
  exists digits,
    _uint2str 1 = Ok digits /\
    value (list_byte_of_string digits) = 1 /\
    tokenURI 1 minted =
      Ok (uriPrefix minted +:+ digits +:+ uriPostfix minted)%string.
Proof.
  assert (0 <= 1 < 2 ^ 256) as H by (split; [lia|reflexivity]).
  split; [exact H|].
  destruct (NFTokenUriFacts.tokenURI_of_tokens minted 1 1 H H)
    as (_ & _ & Huri & _).
  apply Huri; vm_compute; discriminate.
Defined.

(** The approved account 9 transfers the token 1 from 7 to 8. *)
Lemma transferFrom_success_witness :
  transferFrom (sent_by 9) 7 8 1 minted = Return tt moved /\
  owner_of moved 1 = 8 /\ approval_of moved 1 = 0 /\
  logs moved = logs minted ++ [Transfer 7 8 1].
Proof.
  assert (transferFrom (sent_by 9) 7 8 1 minted = Return tt moved) as H
    by (vm_compute; reflexivity).
  split; [exact H|].
  destruct (NFTokenTheorems.transferFrom_success (sent_by 9) 7 8 1 minted
              moved H) as (_ & Ho & Ha & _ & _ & _ & Hl).
  split; [exact Ho|]. split; [exact Ha|exact Hl].
Defined.

(** After that transfer the account 9 cannot take the token 1 from 8. *)
Lemma approval_is_spent_witness :
  transferFrom (sent_by 9) 7 8 1 minted = Return tt moved /\
  transferFrom (sent_by 9) 8 9 1 moved =
    Revert (Error NOT_OWNER_APPROWED_OR_OPERATOR) moved.
Proof.
  assert (transferFrom (sent_by 9) 7 8 1 minted = Return tt moved) as H
    by (vm_compute; reflexivity).
  split; [exact H|].
  pose proof (NFTokenTheorems.approval_is_spent (sent_by 9) 7 8 1 minted
                moved H) as T.
  premise T ltac:(simpl; lia).
  premise T ltac:(simpl; lia).
  premise T ltac:(vm_compute; reflexivity).
  destruct (T 8 9) as (reason & E & Hr).
  rewrite E, (Hr eq_refl ltac:(lia)). reflexivity.
Defined.

(** The token 4 created for 8 on the sample ledger has no approved
    address. *)
Lemma created_token_is_unapproved_witness :
  real_senders history /\
  _create 8 4 (run_sample history
                 (deployed "Certificates" "CRT" "https://example.org/" ".json"))
    = Return tt (created minted 8 4) /\
  ownerOf 4 (created minted 8 4) = Ok 8 /\
  getApproved 4 (created minted 8 4) = Ok 0.
Proof.
  assert (real_senders history) as Hs
    by (repeat constructor; simpl; congruence).
  assert (_create 8 4 (run_sample history
            (deployed "Certificates" "CRT" "https://example.org/" ".json"))
          = Return tt (created minted 8 4)) as H
    by (vm_compute; reflexivity).
  split; [exact Hs|]. split; [exact H|].
  destruct (NFTokenTheorems.created_token_is_unapproved isDeployedContract
              onERC721Received history _ _ _ _ 8 4 _ Hs H)
    as (Ho & Ha & _).
  split; [exact Ho|exact Ha].
Defined.

(** The token 4 is created and destroyed: the balances are those of the
    sample ledger. *)
Lemma create_then_destroy_witness :
  _create 8 4 (run_sample history
                 (deployed "Certificates" "CRT" "https://example.org/" ".json"))
    = Return tt (created minted 8 4) /\
  exists st2,
    _destroy 4 (created minted 8 4) = Return tt st2 /\
    forall a, count_of st2 a = count_of minted a.
Proof.
  assert (_create 8 4 (run_sample history
            (deployed "Certificates" "CRT" "https://example.org/" ".json"))
          = Return tt (created minted 8 4)) as H
    by (vm_compute; reflexivity).
  split; [exact H|].
  destruct (NFTokenTheorems.create_then_destroy isDeployedContract
              onERC721Received history _ _ _ _ 8 4 _ H)
    as (st2 & Hd & _ & Hc & _).
  exists st2. split; [exact Hd|exact Hc].
Defined.

(** The owner 7 of the token 2 makes 5 an operator, and 5 transfers the
    token to 8. *)
Lemma operator_can_transfer_witness :
  owner_of minted 2 = 7 /\
  exists st',
    transferFrom (sent_by 5) 7 8 2
      (apply_sample minted (op_setApprovalForAll (sent_by 7) 5 true))
    = Return tt st'.
Proof.
  assert (owner_of minted 2 = 7) as Ho by (vm_compute; reflexivity).
  split; [exact Ho|].
  pose proof (NFTokenTheorems.operator_can_transfer isDeployedContract
                onERC721Received history
                "Certificates" "CRT" "https://example.org/" ".json"
                (sent_by 7) (sent_by 5) true 8 2) as T.
  premise T ltac:(vm_compute; reflexivity).
  premise T ltac:(simpl; lia).
  premise T ltac:(simpl; lia).
  premise T ltac:(vm_compute; discriminate).
  premise T ltac:(lia).
  premise T ltac:(right; vm_compute; reflexivity).
  apply T. reflexivity.
Defined.

(** The owner 7 of the token 2 approves 5 for it, and 5 transfers the
    token to 8. *)
Lemma approved_can_transfer_witness :
  owner_of minted 2 <> 0 /\
  exists st',
    transferFrom (sent_by 5) (owner_of minted 2) 8 2
      (apply_sample minted (op_approve (sent_by 7) 5 2))
    = Return tt st'
    /\ ownerOf 2 st' = Ok 8 /\ getApproved 2 st' = Ok 0.
Proof.
  assert (owner_of minted 2 <> 0) as Ho by (vm_compute; discriminate).
  split; [exact Ho|].
  pose proof (NFTokenTheorems.approved_can_transfer isDeployedContract
                onERC721Received history
                "Certificates" "CRT" "https://example.org/" ".json"
                (sent_by 7) (sent_by 5) 8 2) as T.
  premise T ltac:(vm_compute; discriminate).
  premise T ltac:(left; vm_compute; reflexivity).
  premise T ltac:(lia).
  premise T ltac:(right; vm_compute; reflexivity).
  exact T.
Defined.

(** The account 5, a stranger to the token 2, tries to take it by a safe
    transfer to itself; 5 is no contract, so no hook runs. *)
Lemma stranger_moves_nothing_witness :
  op_sender (op_safeTransferFrom (sent_by 5) 7 5 2 []) = Some 5 /\
  calls_receiver isDeployedContract (op_safeTransferFrom (sent_by 5) 7 5 2 [])
    = false /\
  owner_of (apply_sample minted (op_safeTransferFrom (sent_by 5) 7 5 2 [])) 2
    = owner_of minted 2.
Proof.
  split; [reflexivity|]. split; [reflexivity|].
  pose proof (NFTokenTheorems.stranger_moves_nothing isDeployedContract
                onERC721Received (op_safeTransferFrom (sent_by 5) 7 5 2 [])
                5 minted 2) as T.
  premise T ltac:(reflexivity).
  premise T ltac:(reflexivity).
  premise T ltac:(vm_compute; discriminate).
  premise T ltac:(vm_compute; discriminate).
  premise T ltac:(vm_compute; reflexivity).
  apply T.
Defined.

(** The transfer of the token 2 by its owner leaves its URI as it was. *)
Lemma external_calls_keep_tokens_witness :
  op_sender (op_transferFrom (sent_by 7) 7 8 2) = Some 7 /\
  tokenURI 2 (apply_sample minted (op_transferFrom (sent_by 7) 7 8 2)) =
    tokenURI 2 minted.
Proof.
  split; [reflexivity|].
  apply (NFTokenTheorems.external_calls_keep_tokens isDeployedContract
           onERC721Received (op_transferFrom (sent_by 7) 7 8 2) 7 minted 2).
  reflexivity.
Defined.

End LedgerScenarios.

Module ClaimScenarios.
Import Abi Xcert ClaimCodec ClaimFacts ClaimLife NFTokenSample.

Ltac premise T tac :=
  match type of T with
  | ?A -> _ =>
      let H := fresh "H" in
      assert A as H by tac; specialize (T H); clear H
  end.

Abbreviation perform_tx :=
  (setApprovalForAllWithSignature Sample.keccak256 Sample.ecrecover
     Sample.World Sample.ERC20_transferFrom).
Abbreviation run_sample :=
  (run Sample.keccak256 Sample.ecrecover Sample.World
     Sample.ERC20_transferFrom).
Abbreviation apply_sample :=
  (apply_tx Sample.keccak256 Sample.ecrecover Sample.World
     Sample.ERC20_transferFrom).
Abbreviation digest_of seed :=
  (generateClaim Sample.keccak256 (Sample.at_time 3 1500) 7 8 true 500 5 9
     seed 2000).

(** The claim is redeemed, and its owner then tries to cancel it. *)
Definition redeem_then_cancel : list Tx :=
  [ tx_setApprovalForAllWithSignature (Sample.at_time 3 1500)
      7 8 true 500 5 9 1 2000 (Sample.sign 7 eth_sign (Sample.claim_of 2000));
    tx_cancelSetApprovalForAllWithSignature (Sample.at_time 7 1550)
      7 8 true 500 5 9 1 2000 ].

(** The owner cannot pay the fee: the redemption reverts with the reason
    of the fee token and changes nothing. *)
Lemma failed_fee_transfer_witness :
  Sample.ERC20_transferFrom 500 (this (Sample.at_time 3 1500)) 7
    (if 9 =? 0 then msg_sender (Sample.at_time 3 1500) else 9) 5
    (world penniless) = inr "insufficient balance"%string /\
  transact (perform_tx (Sample.at_time 3 1500) 7 8 true 500 5 9 1 2000
              (Sample.sign 7 eth_sign (Sample.claim_of 2000))) penniless =
    (penniless, Some "insufficient balance"%string).
Proof.
  pose proof (ClaimLifeFacts.failed_fee_transfer_changes_nothing
                Sample.keccak256 Sample.ecrecover Sample.World
                Sample.ERC20_transferFrom (Sample.at_time 3 1500)
                7 8 true 500 5 9 1 2000
                (Sample.sign 7 eth_sign (Sample.claim_of 2000)) penniless
                "insufficient balance"%string) as T.
  premise T ltac:(vm_compute; reflexivity).
  premise T ltac:(vm_compute; reflexivity).
  premise T ltac:(vm_compute; reflexivity).
  premise T ltac:(simpl; lia).
  split; [vm_compute; reflexivity|].
  premise T ltac:(vm_compute; reflexivity).
  apply T.
Defined.

(** After the redemption and the attempt to cancel, the claim is not both
    performed and cancelled. *)
Lemma performed_and_cancelled_exclude_witness :
  is_performed Sample.genesis (digest_of 1)
    && is_cancelled Sample.genesis (digest_of 1) = false /\
  is_performed (run_sample redeem_then_cancel Sample.genesis) (digest_of 1)
    && is_cancelled (run_sample redeem_then_cancel Sample.genesis)
         (digest_of 1) = false.
Proof.
  assert (is_performed Sample.genesis (digest_of 1)
          && is_cancelled Sample.genesis (digest_of 1) = false) as H
    by (vm_compute; reflexivity).
  split; [exact H|].
  apply (ClaimLifeFacts.performed_and_cancelled_exclude Sample.keccak256
           Sample.ecrecover Sample.World Sample.ERC20_transferFrom
           redeem_then_cancel Sample.genesis (digest_of 1) H).
Defined.

(** The owner's cancellation of the claim of seed 1 leaves the claim of
    seed 2 uncancelled. *)
Lemma other_claims_untouched_witness :
  digest_of 2 <>
    generateClaim Sample.keccak256 (Sample.at_time 7 1500) 7 8 true 500 5 9
      1 2000 /\
  is_cancelled
    (apply_sample Sample.genesis
       (tx_cancelSetApprovalForAllWithSignature (Sample.at_time 7 1500)
          7 8 true 500 5 9 1 2000))
    (digest_of 2) = is_cancelled Sample.genesis (digest_of 2).
Proof.
  assert (digest_of 2 <>
    generateClaim Sample.keccak256 (Sample.at_time 7 1500) 7 8 true 500 5 9
      1 2000) as H
    by (vm_compute; discriminate).
  split; [exact H|].
  apply (ClaimLifeFacts.other_claims_untouched Sample.keccak256
           Sample.ecrecover Sample.World Sample.ERC20_transferFrom
           Sample.genesis (Sample.at_time 7 1500) 7 8 true 500 5 9 1 2000
           (digest_of 2) H).
Defined.

(** The checksum of the instance gives the claims of seed 65536 and of
    seed 526 the same digest: their packed encodings are different byte
    strings on which the checksum collides. *)
Lemma equal_digests_witness :
  digest_of 65536 = digest_of 526 /\
  exists p p',
    p <> p' /\ Sample.keccak256 p = Sample.keccak256 p' /\
    digest_of 65536 = Sample.keccak256 p.
Proof.
  assert (digest_of 65536 = digest_of 526) as E by (vm_compute; reflexivity).
  split; [exact E|].
  pose proof (ClaimLifeFacts.equal_digests Sample.keccak256
                (Sample.at_time 3 1500) 7 8 true 500 5 9 65536 2000
                (Sample.at_time 3 1500) 7 8 true 500 5 9 526 2000) as T.
  premise T ltac:(repeat constructor; vm_compute; congruence).
  premise T ltac:(repeat constructor; vm_compute; congruence).
  destruct (T E) as [(_ & _ & _ & _ & _ & _ & _ & Hsd & _)
                    |(p & p' & Hne & _ & _ & Hk & Hp & _)];
    [discriminate Hsd|].
  exists p, p'. split; [exact Hne|]. split; [exact Hk|exact Hp].
Defined.

End ClaimScenarios.

Module BitfieldScenarios.
Import AssetLedger.

(** Two abilities in either order. *)
Lemma bitfield_order_independent_witness :
  [General CREATE_ASSET; General UPDATE_ASSET]
    ≡ₚ [General UPDATE_ASSET; General CREATE_ASSET] /\
  getBitfieldFromAbilities [General CREATE_ASSET; General UPDATE_ASSET] =
    getBitfieldFromAbilities [General UPDATE_ASSET; General CREATE_ASSET].
Proof.
  assert ([General CREATE_ASSET; General UPDATE_ASSET]
            ≡ₚ [General UPDATE_ASSET; General CREATE_ASSET]) as H
    by apply perm_swap.
  split; [exact H|].
  destruct (BitfieldFacts.bitfield_order_independent
              [General CREATE_ASSET; General UPDATE_ASSET]
              [General UPDATE_ASSET; General CREATE_ASSET]) as [Hperm _].
  apply (Hperm H).
Defined.

End BitfieldScenarios.
